(** * pdf-edit: page-scoped notes, their persistence and the autosave timer

    A shallow embedding of the note-handling code of the PDF-Notes plugin:

    - [unnamed/part_003]: [loadNotes] and [saveNotes], which read and
      rewrite one page's section of [<pdf>-notes.md] with regular
      expressions;
    - [main.ts]: [parseExistingNotes], [saveAllNotesToFile],
      [saveCurrentPageNotes], [debouncedSave] and [onClose], which keep a
      [pageNotes] record per view and write the whole document;
    - [unnamed/part_002]: the debounced save of the textarea of
      [loadNotesEditor], and [onClose].

    Further code of the same files is embedded after these: the
    template of a new notes file, the editor and the page buttons of
    [main.ts], the cursor of [part_002], and of [part_003] the copy made
    by the save button, the panes, the zoom and the pages of the viewer,
    the notes area and the saved folders.

    JavaScript strings are sequences of UTF-16 code units; they are
    modelled as lists of code units ([N]).  Page numbers are JavaScript
    numbers holding integers and are modelled as [Z]. *)

From Stdlib Require Import ZArith NArith Lia String Ascii List.
From Stdlib Require Floats.PrimFloat.
From stdpp Require Import base list gmap.

Local Open Scope N_scope.

(** ** JavaScript strings *)

Abbreviation jsstring := (list N).

(** [js] reads a string literal the way the source writes it: the two
    characters backslash-n stand for a line feed. *)
Fixpoint js (s : string) : jsstring :=
  match s with
  | EmptyString => []
  | String c s' =>
      match s' with
      | EmptyString => [N_of_ascii c]
      | String d s'' =>
          if (N_of_ascii c =? 92) && (N_of_ascii d =? 110)
          then 10 :: js s''
          else N_of_ascii c :: js s'
      end
  end.

(** ECMAScript LineTerminator: LF, CR, LS, PS. *)
Definition isLineTerminator (c : N) : bool :=
  (c =? 10) || (c =? 13) || (c =? 0x2028) || (c =? 0x2029).

(** ECMAScript WhiteSpace and LineTerminator code units: what
    [String.prototype.trim] strips and what [\s] matches. *)
Definition isWhiteSpace (c : N) : bool :=
  (c =? 9) || (c =? 10) || (c =? 11) || (c =? 12) || (c =? 13) ||
  (c =? 32) || (c =? 160) || (c =? 0x1680) ||
  ((0x2000 <=? c) && (c <=? 0x200A)) ||
  (c =? 0x2028) || (c =? 0x2029) || (c =? 0x202F) || (c =? 0x205F) ||
  (c =? 0x3000) || (c =? 0xFEFF).

(** [\d] without the unicode flag: ASCII digits only. *)
Definition isDigit (c : N) : bool := (48 <=? c) && (c <=? 57).

Fixpoint trimStart (s : jsstring) : jsstring :=
  match s with
  | [] => []
  | c :: s' => if isWhiteSpace c then trimStart s' else s
  end.

Definition trimEnd (s : jsstring) : jsstring := rev (trimStart (rev s)).

(** [String.prototype.trim]. *)
Definition trim (s : jsstring) : jsstring := trimEnd (trimStart s).

(** [s.startsWith(pat)], returning the rest of [s] after [pat]. *)
Fixpoint stripPrefix (pat s : jsstring) : option jsstring :=
  match pat with
  | [] => Some s
  | a :: pat' =>
      match s with
      | [] => None
      | c :: s' => if a =? c then stripPrefix pat' s' else None
      end
  end.

Definition startsWith (pat s : jsstring) : bool :=
  match stripPrefix pat s with Some _ => true | None => false end.

(** [s.includes(pat)]: [pat] occurs somewhere in [s]. *)
Fixpoint includes (pat s : jsstring) : bool :=
  startsWith pat s ||
  match s with
  | [] => false
  | _ :: s' => includes pat s'
  end.

(** Decimal digits of a natural number, most significant first.  The fuel
    is the bit length of the number, which bounds its decimal length. *)
Fixpoint digitsFuel (fuel : nat) (n : N) (acc : jsstring) : jsstring :=
  match fuel with
  | O => acc
  | S fuel' =>
      let acc' := (48 + n mod 10) :: acc in
      if n <? 10 then acc' else digitsFuel fuel' (n / 10) acc'
  end.

Definition digitsOf (n : N) : jsstring :=
  digitsFuel (S (N.to_nat (N.log2 n))) n [].

(** [Number.MAX_SAFE_INTEGER], 2^53 - 1.  Up to it in absolute value a
    JavaScript number holds every integer, a template literal writes it
    in plain decimal and [parseInt] reads its digits exactly: there
    [numberToString] and [parseInt] below are the code's.  The page
    numbers of a document are within it; what is stated of any number
    that a caller or a text may give is stated for these numbers. *)
Definition MAX_SAFE_INTEGER : Z := 9007199254740991.

(** [String(n)], as a template literal applies it, for a number holding
    an integer up to [MAX_SAFE_INTEGER] in absolute value (above it
    JavaScript writes the shortest digits that give the number back,
    and from 10^21 on an exponent). *)
Definition numberToString (n : Z) : jsstring :=
  if (n <? 0)%Z then 45 :: digitsOf (Z.to_N (- n)) else digitsOf (Z.to_N n).

(** [parseInt] on a string of ASCII digits, as [(\d+)] captures it: the
    integer the digits write, which is the code's number up to
    [MAX_SAFE_INTEGER] (above it JavaScript gives the nearest number it
    can hold). *)
Definition parseInt (ds : jsstring) : Z :=
  fold_left (fun a d => (10 * a + (Z.of_N d - 48))%Z) ds 0%Z.

(** ** The markers *)

Definition PAGE : jsstring := Eval cbv in js "## Page".
Definition PAGE_SP : jsstring := Eval cbv in js "## Page ".
Definition NO_NOTES : jsstring := Eval cbv in js "_No notes for this page_".

(** ** part_003: one section per call

    [loadNotes] matches
      [new RegExp(`## Page ${pageNumber}\\n([\\s\\S]*?)(?=## Page|$)`)]
    and [saveNotes] matches
      [new RegExp(`${pageHeader}\\n[\\s\\S]*?(?=## Page|$)`)],
    both without flags: the header text is searched anywhere in the
    content (no anchor), [$] is the end of the content, and the lazy
    star stops at the first position where [## Page] follows. *)

(** [[\s\S]*?(?=## Page|$)]: the shortest run of code units after which
    [## Page] follows or the content ends; returns the run and the rest. *)
Fixpoint lazyUntilPage (s : jsstring) : jsstring * jsstring :=
  match s with
  | [] => ([], [])
  | c :: s' =>
      if startsWith PAGE s then ([], s)
      else let '(body, rest) := lazyUntilPage s' in (c :: body, rest)
  end.

(** [RegExp.prototype.exec] for [hdr[\s\S]*?(?=## Page|$)], [hdr] a
    literal: the leftmost position where [hdr] occurs.  The result is the
    text before the match, the text the lazy star took, and the text
    after the match. *)
Fixpoint execSection (hdr s : jsstring) : option (jsstring * jsstring * jsstring) :=
  match stripPrefix hdr s with
  | Some rest =>
      let '(body, after) := lazyUntilPage rest in Some ([], body, after)
  | None =>
      match s with
      | [] => None
      | c :: s' =>
          match execSection hdr s' with
          | Some (before, body, after) => Some (c :: before, body, after)
          | None => None
          end
      end
  end.

(** [`## Page ${pageNumber}`] *)
Definition pageHeader (pageNumber : Z) : jsstring :=
  PAGE_SP ++ numberToString pageNumber.

(** The literal part of both regular expressions: the header and [\n]. *)
Definition pageHeaderLine (pageNumber : Z) : jsstring :=
  pageHeader pageNumber ++ [10].

(** [loadNotes] on the content read: [content.match(...)], then
    [pageMatch ? pageMatch[1].trim() : null]. *)
Definition loadNotesFrom (content : jsstring) (pageNumber : Z) : option jsstring :=
  match execSection (pageHeaderLine pageNumber) content with
  | Some (_, body, _) => Some (trim body)
  | None => None
  end.

(** GetSubstitution of [String.prototype.replace] for a replacement
    string, when the pattern has no capture group: [$$], [$&], [$`] and
    [$'] are expanded; [$1] and the like, [$<] and any other [$] stay as
    they are. *)
Fixpoint getSubstitution (matched before after template : jsstring) : jsstring :=
  match template with
  | [] => []
  | c :: t =>
      if c =? 36 then
        match t with
        | [] => [36]
        | d :: t' =>
            if d =? 36 then 36 :: getSubstitution matched before after t'
            else if d =? 38 then matched ++ getSubstitution matched before after t'
            else if d =? 96 then before ++ getSubstitution matched before after t'
            else if d =? 39 then after ++ getSubstitution matched before after t'
            else 36 :: getSubstitution matched before after t
        end
      else c :: getSubstitution matched before after t
  end.

(** [saveNotes] from the content read to the content written. *)
Definition saveNotesInto (content : jsstring) (pageNumber : Z) (notes : jsstring) : jsstring :=
  let newPageContent := pageHeader pageNumber ++ [10] ++ notes ++ [10; 10] in
  match execSection (pageHeaderLine pageNumber) content with
  | Some (before, body, after) =>
      before
      ++ getSubstitution (pageHeaderLine pageNumber ++ body) before after
           (trim newPageContent)
      ++ after
  | None => content ++ newPageContent
  end.

(** [loadNotes] and [saveNotes] against the vault adapter.  The vault is
    a map from paths to contents; [adapter.read] throws when the file
    does not exist. *)
Inductive IO :=
  | AdapterRead (path : jsstring)
  | AdapterWrite (path content : jsstring).

Definition notesFileOf (currentPdfPath : jsstring) : jsstring :=
  currentPdfPath ++ js "-notes.md".

(** [if (!this.currentPdfPath) return null]: [null] and the empty string
    are falsy. *)
Definition truthyPath (currentPdfPath : option jsstring) : option jsstring :=
  match currentPdfPath with
  | Some (c :: p) => Some (c :: p)
  | _ => None
  end.

Definition loadNotes (vault : gmap jsstring jsstring)
    (currentPdfPath : option jsstring) (pageNumber : Z)
    : option jsstring * list IO :=
  match truthyPath currentPdfPath with
  | None => (None, [])
  | Some pdf =>
      let notesFile := notesFileOf pdf in
      match vault !! notesFile with
      | Some content => (loadNotesFrom content pageNumber, [AdapterRead notesFile])
      | None => (None, [AdapterRead notesFile])
      end
  end.

Definition saveNotes (vault : gmap jsstring jsstring)
    (currentPdfPath : option jsstring) (pageNumber : Z) (notes : jsstring)
    : gmap jsstring jsstring * list IO :=
  match truthyPath currentPdfPath with
  | None => (vault, [])
  | Some pdf =>
      let notesFile := notesFileOf pdf in
      let content :=
        match vault !! notesFile with
        | Some content => content
        | None => js "# PDF Notes\n\n"
        end in
      let content' := saveNotesInto content pageNumber notes in
      (<[notesFile := content']> vault,
       [AdapterRead notesFile; AdapterWrite notesFile content'])
  end.

(** The handler of the page input of part_003, which guards the call of
    [renderPage] (and through it [loadNotes] and [saveNotes]):
    [if (newPage >= 1 && newPage <= this.currentPdf.numPages)].  The
    result is the page rendered, if any. *)
Definition pageInputChange (numPages newPage : Z) : option Z :=
  if (1 <=? newPage)%Z && (newPage <=? numPages)%Z then Some newPage else None.

(** ** main.ts: the whole document per write *)

(** [content.split(/^## Page (\d+)$/gm)].

    With the [m] flag, [^] holds at the start of the content and after a
    line terminator, and [$] holds at the end of the content and before a
    line terminator. *)

(** [\d+], greedy. *)
Fixpoint spanDigits (s : jsstring) : jsstring * jsstring :=
  match s with
  | [] => ([], [])
  | c :: s' =>
      if isDigit c then let '(ds, rest) := spanDigits s' in (c :: ds, rest)
      else ([], s)
  end.

Definition atLineEnd (s : jsstring) : bool :=
  match s with
  | [] => true
  | c :: _ => isLineTerminator c
  end.

(** [## Page (\d+)$] at the head of [s]: the digits captured.  The digits
    are all that follow, since giving one back would leave a digit, not a
    line end, after the match. *)
Definition matchMarker (s : jsstring) : option jsstring :=
  match stripPrefix PAGE_SP s with
  | None => None
  | Some r =>
      let '(ds, rest) := spanDigits r in
      match ds with
      | [] => None
      | _ :: _ => if atLineEnd rest then Some ds else None
      end
  end.

(** Puts a code unit in front of the piece being collected. *)
Definition consPiece (c : N) (pieces : list jsstring) : list jsstring :=
  match pieces with
  | [] => [[c]]
  | piece :: pieces' => (c :: piece) :: pieces'
  end.

(** The loop of [RegExp.prototype[Symbol.split]]: at each position the
    pattern is tried in place; on a match the piece collected so far, then
    the capture, are emitted, and the scan goes on after the match; else
    the code unit joins the piece.  [skip] counts the code units of a
    match still to pass over, [bol] tells whether [^] holds here. *)
Fixpoint splitPieces (skip : nat) (bol : bool) (s : jsstring) : list jsstring :=
  match s with
  | [] => [[]]
  | c :: s' =>
      match skip with
      | S k => splitPieces k false s'
      | O =>
          match (if bol then matchMarker s else None) with
          | Some ds =>
              [] :: ds :: splitPieces (length PAGE_SP + length ds - 1) false s'
          | None => consPiece c (splitPieces 0 (isLineTerminator c) s')
          end
      end
  end.

Definition split (content : jsstring) : list jsstring :=
  splitPieces 0 true content.

(** The loop of [parseExistingNotes] over [pageHeaders] from index 1 on:
    a captured number, then the text up to the next marker. *)
Fixpoint parseSections (pageHeaders : list jsstring)
    (pageNotes : gmap Z jsstring) : gmap Z jsstring :=
  match pageHeaders with
  | [] => pageNotes
  | number :: rest =>
      let pageNumber := parseInt number in
      let pageContent := match rest with [] => [] | text :: _ => trim text end in
      let pageNotes' :=
        if decide (pageContent = NO_NOTES) then pageNotes
        else <[pageNumber := pageContent]> pageNotes in
      match rest with
      | [] => pageNotes'
      | _ :: rest' => parseSections rest' pageNotes'
      end
  end.

Definition parseExistingNotes (content : jsstring) : gmap Z jsstring :=
  parseSections (tail (split content)) ∅.

Record TFile := { basename : jsstring; name : jsstring; path : jsstring }.

(** The fields of [PDFNotesView] the notes code reads and writes;
    [currentPdf] holds [numPages], [notesEditor] the editor's document,
    [autoSaveOnClose] is [plugin.settings.autoSaveOnClose]. *)
Record PDFNotesView := {
  currentPdf : option Z;
  currentPage : Z;
  currentPdfFile : option TFile;
  currentNotesFile : option TFile;
  pageNotes : gmap Z jsstring;
  notesEditor : option jsstring;
  autoSaveOnClose : bool
}.

Definition setPageNotes (v : PDFNotesView) (m : gmap Z jsstring) : PDFNotesView :=
  {| currentPdf := currentPdf v; currentPage := currentPage v;
     currentPdfFile := currentPdfFile v; currentNotesFile := currentNotesFile v;
     pageNotes := m; notesEditor := notesEditor v;
     autoSaveOnClose := autoSaveOnClose v |}.

Definition saveCurrentPageNotes (v : PDFNotesView) : PDFNotesView :=
  match notesEditor v with
  | Some currentContent =>
      setPageNotes v (<[currentPage v := currentContent]> (pageNotes v))
  | None => v
  end.

(** [this.currentPdf?.numPages || 0] *)
Definition numPagesOr0 (v : PDFNotesView) : Z :=
  match currentPdf v with Some n => n | None => 0%Z end.

(** [this.currentPdfFile?.basename || "PDF"] *)
Definition pdfNameOf (v : PDFNotesView) : jsstring :=
  match currentPdfFile v with
  | Some f => match basename f with [] => js "PDF" | b => b end
  | None => js "PDF"
  end.

(** [`${this.currentPdfFile?.name}`] *)
Definition pdfFileNameOf (v : PDFNotesView) : jsstring :=
  match currentPdfFile v with
  | Some f => name f
  | None => js "undefined"
  end.

Definition notesHeading (pdfName fileName : jsstring) (numPages : Z) : jsstring :=
  js "# " ++ pdfName ++ js " - Notes\n\n"
  ++ js "**PDF:** [[" ++ fileName ++ js "]]\n"
  ++ js "**Total Pages:** " ++ numberToString numPages ++ js "\n\n".

(** One turn of the loop of [saveAllNotesToFile]. *)
Definition pageBlock (pageNotes : gmap Z jsstring) (page : Z) : jsstring :=
  js "## Page " ++ numberToString page ++ js "\n\n"
  ++ match pageNotes !! page with
     | Some (c :: body) => (c :: body) ++ js "\n\n"
     | _ => js "_No notes for this page_\n\n"
     end.

Definition pageBlocks (pageNotes : gmap Z jsstring) (numPages : Z) : jsstring :=
  concat (map (pageBlock pageNotes) (seqZ 1 numPages)).

Definition fullContent (v : PDFNotesView) : jsstring :=
  notesHeading (pdfNameOf v) (pdfFileNameOf v) (numPagesOr0 v)
  ++ pageBlocks (pageNotes v) (numPagesOr0 v).

(** [saveAllNotesToFile]: the view afterwards and the call of
    [vault.modify], if any. *)
Definition saveAllNotesToFile (v : PDFNotesView)
    : PDFNotesView * option (TFile * jsstring) :=
  match currentNotesFile v with
  | None => (v, None)
  | Some file =>
      let v' := saveCurrentPageNotes v in
      (v', Some (file, fullContent v'))
  end.

(** [loadNotesForCurrentPage]: the text put into the editor,
    [this.pageNotes?.[this.currentPage] || '']. *)
Definition pageContentOf (v : PDFNotesView) : jsstring :=
  match pageNotes v !! currentPage v with
  | Some text => text
  | None => []
  end.

(** ** The debounced save and the close

    main.ts ([debouncedSave], [onClose]) and part_002 (the [input]
    listener of the textarea, [onClose]) share one shape: a listener
    that takes the edit, clears the timer and arms it anew for 1000 ms;
    a callback of the timer that writes; a close that writes when the
    settings say so.

    The event loop is single threaded.  The state of a run is the view,
    the clock in milliseconds, the due time of the one timer the
    listener keeps in its closure, and the calls of [vault.modify] made
    so far, oldest first.  A call of [vault.modify] is taken as complete
    when it is made. *)

Definition DEBOUNCE_MS : N := 1000.

Inductive Event :=
  | DocChanged (doc : jsstring)
  | Close.

Section Debounce.
Context {View : Type}.

(** What the listener does to the view, if there is a listener; what
    the callback of the timer does and writes; what the close does
    and writes. *)
Variable listener : jsstring -> View -> option View.
Variable callback : View -> View * option (TFile * jsstring).
Variable closing : View -> View * option (TFile * jsstring).

Record Run := {
  view : View;
  clock : N;
  timeout : option N;
  modified : list (N * TFile * jsstring)
}.

Definition logModify (now : N) (w : option (TFile * jsstring))
    (log : list (N * TFile * jsstring)) : list (N * TFile * jsstring) :=
  match w with
  | Some (file, content) => log ++ [(now, file, content)]
  | None => log
  end.

(** The timer runs its callback. *)
Definition fireTimeout (due : N) (r : Run) : Run :=
  let '(v', w) := callback (view r) in
  {| view := v'; clock := due; timeout := None;
     modified := logModify due w (modified r) |}.

(** [ms] milliseconds pass with no event: a timer that falls due
    runs. *)
Definition elapse (ms : N) (r : Run) : Run :=
  let r' :=
    match timeout r with
    | Some due => if due <=? clock r + ms then fireTimeout due r else r
    | None => r
    end in
  {| view := view r'; clock := clock r + ms; timeout := timeout r';
     modified := modified r' |}.

(** An edit: the listener takes it, then [clearTimeout] and
    [setTimeout(..., 1000)]. *)
Definition docChanged (doc : jsstring) (r : Run) : Run :=
  match listener doc (view r) with
  | None => r
  | Some v' =>
      {| view := v'; clock := clock r;
         timeout := Some (clock r + DEBOUNCE_MS);
         modified := modified r |}
  end.

(** [onClose]: the timer is left as it is. *)
Definition onClose (r : Run) : Run :=
  let '(v', w) := closing (view r) in
  {| view := v'; clock := clock r; timeout := timeout r;
     modified := logModify (clock r) w (modified r) |}.

Definition handle (e : Event) (r : Run) : Run :=
  match e with
  | DocChanged doc => docChanged doc r
  | Close => onClose r
  end.

(** A run: each event comes some milliseconds after the one before. *)
Fixpoint runEvents (events : list (N * Event)) (r : Run) : Run :=
  match events with
  | [] => r
  | (ms, e) :: events' => runEvents events' (handle e (elapse ms r))
  end.
End Debounce.

Arguments Run : clear implicits.

(** *** main.ts *)

(** The update listener of the editor on [update.docChanged]: the new
    document goes into [pageNotes], then [this.debouncedSave()].
    Without an editor there is no listener. *)
Definition editView (doc : jsstring) (v : PDFNotesView) : PDFNotesView :=
  {| currentPdf := currentPdf v; currentPage := currentPage v;
     currentPdfFile := currentPdfFile v;
     currentNotesFile := currentNotesFile v;
     pageNotes := <[currentPage v := doc]> (pageNotes v);
     notesEditor := Some doc;
     autoSaveOnClose := autoSaveOnClose v |}.

Definition updateListener (doc : jsstring) (v : PDFNotesView) : option PDFNotesView :=
  match notesEditor v with
  | None => None
  | Some _ => Some (editView doc v)
  end.

(** The body of [onClose] of main.ts. *)
Definition closeView (v : PDFNotesView) : PDFNotesView * option (TFile * jsstring) :=
  let '(v1, w) :=
    match autoSaveOnClose v, currentNotesFile v with
    | true, Some _ => saveAllNotesToFile (saveCurrentPageNotes v)
    | _, _ => (v, None)
    end in
  ({| currentPdf := None; currentPage := currentPage v1;
      currentPdfFile := currentPdfFile v1;
      currentNotesFile := currentNotesFile v1;
      pageNotes := pageNotes v1;
      notesEditor := None;
      autoSaveOnClose := autoSaveOnClose v1 |}, w).

(** The run of a view of main.ts: the timer of [debouncedSave] calls
    [saveAllNotesToFile]. *)
Definition runView : list (N * Event) -> Run PDFNotesView -> Run PDFNotesView :=
  runEvents updateListener saveAllNotesToFile closeView.

(** *** part_002 *)

(** The view of part_002 as its notes code sees it: the textarea that
    shows the whole notes file, the notes file, the setting. *)
Record TextareaView := {
  textareaValue : jsstring;
  areaNotesFile : option TFile;
  areaAutoSaveOnClose : bool
}.

(** The [input] listener of the textarea. *)
Definition inputListener (value : jsstring) (v : TextareaView) : option TextareaView :=
  Some {| textareaValue := value; areaNotesFile := areaNotesFile v;
          areaAutoSaveOnClose := areaAutoSaveOnClose v |}.

(** The callback: [if (this.currentNotesFile) await
    this.app.vault.modify(this.currentNotesFile, textarea.value)]. *)
Definition saveTextarea (v : TextareaView) : TextareaView * option (TFile * jsstring) :=
  (v, match areaNotesFile v with
      | Some file => Some (file, textareaValue v)
      | None => None
      end).

(** The body of [onClose] of part_002. *)
Definition closeTextarea (v : TextareaView) : TextareaView * option (TFile * jsstring) :=
  (v, match areaAutoSaveOnClose v, areaNotesFile v with
      | true, Some file => Some (file, textareaValue v)
      | _, _ => None
      end).

Definition runTextarea : list (N * Event) -> Run TextareaView -> Run TextareaView :=
  runEvents inputListener saveTextarea closeTextarea.

(** ** Lines and marker lines

    The reading of [/^## Page (\d+)$/m] by lines: every line terminator
    ends a line (so CR LF ends two), and a marker line is [## Page ]
    followed by one or more digits and nothing else. *)

Fixpoint linesOf (s : jsstring) : list jsstring :=
  match s with
  | [] => [[]]
  | c :: s' =>
      if isLineTerminator c then [] :: linesOf s'
      else consPiece c (linesOf s')
  end.

Definition markerDigits (line : jsstring) : option jsstring :=
  match stripPrefix PAGE_SP line with
  | Some (d :: ds) => if forallb isDigit (d :: ds) then Some (d :: ds) else None
  | _ => None
  end.

(** No line of the text is a marker line. *)
Definition markerFree (text : jsstring) : bool :=
  forallb (fun line => match markerDigits line with Some _ => false | None => true end)
    (linesOf text).

(** The captures among the pieces of [split]: every second piece. *)
Fixpoint captures (pieces : list jsstring) : list jsstring :=
  match pieces with
  | _ :: number :: rest => number :: captures rest
  | _ => []
  end.

Definition allWhiteSpace (s : jsstring) : bool := forallb isWhiteSpace s.

(** The code units that make [$] special in a replacement string when
    the pattern has no capture group: [$], [&], the backquote and the
    quote. *)
Definition isSubstitutionSymbol (d : N) : bool :=
  (d =? 36) || (d =? 38) || (d =? 96) || (d =? 39).

(** The text holds one of [$$], [$&], [$`] and [$']. *)
Fixpoint hasSubstitution (s : jsstring) : bool :=
  match s with
  | [] => false
  | c :: t =>
      match t with
      | [] => false
      | d :: _ => ((c =? 36) && isSubstitutionSymbol d) || hasSubstitution t
      end
  end.

(** Notes that [saveNotes] writes as they are, up to white space at
    their ends, and that end no section: none of [$$], [$&], [$`] and
    [$'], and no [## Page]. *)
Definition safeNotes (notes : jsstring) : bool :=
  negb (hasSubstitution notes) && negb (includes PAGE notes).

(** Safe notes with some text other than white space. *)
Definition plainNotes (notes : jsstring) : bool :=
  negb (allWhiteSpace notes) && safeNotes notes.

(** A document built by [saveNotes] calls alone, and the notes saved
    last for a page. *)
Definition saveAll (content : jsstring) (calls : list (Z * jsstring)) : jsstring :=
  fold_left (fun content call => saveNotesInto content (fst call) (snd call))
    calls content.

Definition lastSaved (p : Z) (calls : list (Z * jsstring)) : option jsstring :=
  fold_left (fun found call =>
               if decide (fst call = p) then Some (snd call) else found)
    calls None.

(** The sections [parseExistingNotes] reads, in order: page number and
    trimmed text. *)
Fixpoint sectionsOf (pageHeaders : list jsstring) : list (Z * jsstring) :=
  match pageHeaders with
  | [] => []
  | number :: rest =>
      match rest with
      | [] => [(parseInt number, [])]
      | text :: rest' => (parseInt number, trim text) :: sectionsOf rest'
      end
  end.

Definition keptFor (p : Z) (section : Z * jsstring) : bool :=
  bool_decide (fst section = p) && negb (bool_decide (snd section = NO_NOTES)).

(** The text [saveAllNotesToFile] writes under the marker of a page. *)
Definition writtenText (pageNotes : gmap Z jsstring) (page : Z) : jsstring :=
  match pageNotes !! page with
  | Some (c :: body) => c :: body
  | _ => NO_NOTES
  end.

(** The heading and the texts written for pages 1 to [numPages] hold no
    marker line of their own. *)
Definition markerFreeNotes (v : PDFNotesView) : bool :=
  markerFree (notesHeading (pdfNameOf v) (pdfFileNameOf v) (numPagesOr0 v))
  && forallb (fun page => markerFree (writtenText (pageNotes v) page))
       (seqZ 1 (numPagesOr0 v)).

(** What [parseExistingNotes] keeps of a written text. *)
Definition reloaded (text : jsstring) : option jsstring :=
  if decide (trim text = NO_NOTES) then None else Some (trim text).

(** Opening the notes file again: [loadNotesEditor] replaces [pageNotes]
    by what [parseExistingNotes] reads. *)
Definition reloadNotes (v : PDFNotesView) (content : jsstring) : PDFNotesView :=
  setPageNotes v (parseExistingNotes content).

Definition editEvents (edits : list (N * jsstring)) : list (N * Event) :=
  map (fun edit => (fst edit, DocChanged (snd edit))) edits.

Definition totalDelay (edits : list (N * jsstring)) : N :=
  fold_right (fun edit total => fst edit + total) 0 edits.

Definition lastDoc (doc : jsstring) (edits : list (N * jsstring)) : jsstring :=
  List.last (map snd edits) doc.

(** A view of main.ts that listens to edits and has [file] as its notes
    file; the same for part_002. *)
Definition readyView (file : TFile) (v : PDFNotesView) : Prop :=
  is_Some (notesEditor v) /\ currentNotesFile v = Some file.

Definition readyTextarea (file : TFile) (v : TextareaView) : Prop :=
  areaNotesFile v = Some file.

Definition editTextarea (value : jsstring) (v : TextareaView) : TextareaView :=
  {| textareaValue := value; areaNotesFile := areaNotesFile v;
     areaAutoSaveOnClose := areaAutoSaveOnClose v |}.

(** ** Notions used in the proofs *)

(** The shape of the markers: two [#], then text without [#].  A
    pattern of this shape cannot straddle the start of a text that
    itself begins with two [#]. *)
Definition hashShape (pat : jsstring) : Prop :=
  exists c t, pat = 35 :: 35 :: c :: t /\ ~ In 35 (c :: t).

Definition startsHash (y : jsstring) : Prop :=
  y = [] \/ exists y', y = 35 :: 35 :: y'.

Definition endOrPage (y : jsstring) : Prop :=
  y = [] \/ startsWith PAGE y = true.

Definition shiftMatch (x : jsstring)
    (m : option (jsstring * jsstring * jsstring))
    : option (jsstring * jsstring * jsstring) :=
  match m with
  | Some (before, body, after) => Some (x ++ before, body, after)
  | None => None
  end.

Definition parseStep (a : Z) (d : N) : Z := (10 * a + (Z.of_N d - 48))%Z.

(** What follows the header in [newPageContent.trim()]. *)
Definition trimmedBody (notes : jsstring) : jsstring :=
  match trimEnd notes with
  | [] => []
  | r => 10 :: r
  end.

Definition noLineTerminator (l : jsstring) : bool :=
  forallb (fun c => negb (isLineTerminator c)) l.

Definition prependPiece (x : jsstring) (pieces : list jsstring) : list jsstring :=
  match pieces with
  | [] => [x]
  | piece :: pieces' => (x ++ piece) :: pieces'
  end.

Definition blockPieces (m : gmap Z jsstring) (k : Z) : list jsstring :=
  [numberToString k; 10 :: 10 :: writtenText m k ++ [10; 10]].

Definition storeSection (pageNotes : gmap Z jsstring) (section : Z * jsstring)
    : gmap Z jsstring :=
  if decide (snd section = NO_NOTES) then pageNotes
  else <[fst section := snd section]> pageNotes.

(** * More of the code *)

(** ** main.ts and part_002: the template of a new notes file *)

(** One turn of the loop of [createNotesTemplate]. *)
Definition templateSection (i : Z) : jsstring :=
  js "## Page " ++ numberToString i ++ js "\n\n"
  ++ js "### Key Points\n- \n\n"
  ++ js "### Questions\n- \n\n"
  ++ js "### Summary\n\n\n"
  ++ js "---\n\n".

(** [createNotesTemplate], the same in main.ts and in part_002. *)
Definition createNotesTemplate (v : PDFNotesView) : jsstring :=
  let pdfName := pdfNameOf v in
  let totalPages := numPagesOr0 v in
  js "# " ++ pdfName ++ js " - Notes\n\n"
  ++ js "**PDF:** [[" ++ pdfFileNameOf v ++ js "]]\n"
  ++ js "**Total Pages:** " ++ numberToString totalPages ++ js "\n\n"
  ++ js "---\n\n"
  ++ concat (map templateSection (seqZ 1 totalPages)).

(** The text of a section of the template between its marker and the
    next, without the white space at its ends. *)
Definition TEMPLATE_NOTES : jsstring :=
  Eval cbv in js "### Key Points\n- \n\n### Questions\n- \n\n### Summary\n\n\n---".

(** The notes the template holds for pages 1 to [n]. *)
Definition templateNotes (n : Z) : gmap Z jsstring :=
  gset_to_gmap TEMPLATE_NOTES (list_to_set (seqZ 1 n)).

(** What follows the marker line and the empty line in a section of
    the template. *)
Definition TEMPLATE_REST : jsstring :=
  Eval cbv in js "### Key Points\n- \n\n### Questions\n- \n\n### Summary\n\n\n---\n\n".

(** ** main.ts: the editor and the page navigation *)

(** Line breaks normalised: [\r\n] and [\r] become [\n].  The editor
    holds its document as lines: a string given to it is split at
    [/\r\n?|\n/], and [doc.toString()] joins the lines with [\n].  The
    [value] of a textarea is read in the same way. *)
Fixpoint normalizeLineBreaks (s : jsstring) : jsstring :=
  match s with
  | [] => []
  | c :: s' =>
      if c =? 13 then
        10 :: match s' with
              | d :: s'' =>
                  if d =? 10 then normalizeLineBreaks s'' else normalizeLineBreaks s'
              | [] => []
              end
      else c :: normalizeLineBreaks s'
  end.

Definition onView (f : PDFNotesView -> PDFNotesView) (r : Run PDFNotesView)
    : Run PDFNotesView :=
  {| view := f (view r); clock := clock r; timeout := timeout r;
     modified := modified r |}.

(** [notesEditor.dispatch({changes: {from: 0, to: doc.length, insert}})]:
    the document becomes [insert].  Unless the change is empty (nothing
    replaced by nothing), the update listener runs with [docChanged]: it
    stores the document under the current page and calls
    [debouncedSave]. *)
Definition dispatchReplaceAll (insert : jsstring) (r : Run PDFNotesView)
    : Run PDFNotesView :=
  match notesEditor (view r) with
  | None => r
  | Some doc =>
      match doc, insert with
      | [], [] => r
      | _, _ => docChanged updateListener (normalizeLineBreaks insert) r
      end
  end.

Definition loadNotesForCurrentPage (r : Run PDFNotesView) : Run PDFNotesView :=
  match notesEditor (view r) with
  | None => r
  | Some _ => dispatchReplaceAll (pageContentOf (view r)) r
  end.

Definition updateNotesForPage (r : Run PDFNotesView) : Run PDFNotesView :=
  match currentNotesFile (view r) with
  | None => r
  | Some _ => loadNotesForCurrentPage (onView saveCurrentPageNotes r)
  end.

Definition setCurrentPage (page : Z) (v : PDFNotesView) : PDFNotesView :=
  {| currentPdf := currentPdf v; currentPage := page;
     currentPdfFile := currentPdfFile v; currentNotesFile := currentNotesFile v;
     pageNotes := pageNotes v; notesEditor := notesEditor v;
     autoSaveOnClose := autoSaveOnClose v |}.

(** The click handlers of [prevBtn] and [nextBtn].  [renderPage] draws
    the page and then sets [currentPage] to the page it was given; the
    drawing is taken to end before the next event, so that this is the
    value [currentPage] has already.  The handler of [nextBtn] reads
    [this.currentPdf.numPages], which throws when [currentPdf] is null. *)
Definition prevClick (r : Run PDFNotesView) : Run PDFNotesView :=
  if (1 <? currentPage (view r))%Z
  then updateNotesForPage (onView (setCurrentPage (currentPage (view r) - 1)) r)
  else r.

Definition nextClick (r : Run PDFNotesView) : Run PDFNotesView :=
  match currentPdf (view r) with
  | None => r
  | Some numPages =>
      if (currentPage (view r) <? numPages)%Z
      then updateNotesForPage (onView (setCurrentPage (currentPage (view r) + 1)) r)
      else r
  end.

Inductive NavClick := PrevBtn | NextBtn.

Definition navClick (r : Run PDFNotesView) (click : NavClick) : Run PDFNotesView :=
  match click with
  | PrevBtn => prevClick r
  | NextBtn => nextClick r
  end.

(** [createMarkdownEditor(container, content)]: a new editor on
    [content]. *)
Definition createMarkdownEditor (content : jsstring) (v : PDFNotesView) : PDFNotesView :=
  {| currentPdf := currentPdf v; currentPage := currentPage v;
     currentPdfFile := currentPdfFile v; currentNotesFile := currentNotesFile v;
     pageNotes := pageNotes v;
     notesEditor := Some (normalizeLineBreaks content);
     autoSaveOnClose := autoSaveOnClose v |}.

(** [loadNotesEditor], [content] being what [vault.read] returns for the
    notes file. *)
Definition loadNotesEditor (content : jsstring) (r : Run PDFNotesView)
    : Run PDFNotesView :=
  match currentNotesFile (view r) with
  | None => r
  | Some _ =>
      let r1 := onView (fun v => reloadNotes v content) r in
      let currentPageContent := pageContentOf (view r1) in
      updateNotesForPage (onView (createMarkdownEditor currentPageContent) r1)
  end.

Definition navClicks (clicks : list NavClick) (r : Run PDFNotesView)
    : Run PDFNotesView :=
  fold_left navClick clicks r.

(** A view of main.ts with a document of [numPages] pages open on one of
    them, [file] as its notes file and an editor that holds [doc]. *)
Definition openView (file : TFile) (doc : jsstring) (numPages : Z)
    (v : PDFNotesView) : Prop :=
  currentNotesFile v = Some file
  /\ notesEditor v = Some doc
  /\ currentPdf v = Some numPages
  /\ (1 <= currentPage v <= numPages)%Z.

(** ** part_002: the cursor moved to the section of the page *)

(** [s.indexOf(pat)]: the index of the first occurrence, or -1. *)
Fixpoint indexOf (pat s : jsstring) : Z :=
  if startsWith pat s then 0%Z
  else match s with
       | [] => (-1)%Z
       | _ :: s' =>
           let i := indexOf pat s' in
           if (i =? -1)%Z then (-1)%Z else (i + 1)%Z
       end.

Module Textarea.

(** [updateNotesForPage] of part_002 on the value of the textarea: the
    index given to [setSelectionRange], if any. *)
Definition updateNotesForPage (currentPage : Z) (v : TextareaView) : option Z :=
  let pageHeader := PAGE_SP ++ numberToString currentPage in
  let content := textareaValue v in
  let pageIndex := indexOf pageHeader content in
  if (pageIndex =? -1)%Z then None else Some pageIndex.

End Textarea.

(** ** part_003: saving the PDF and its notes under another name *)

(** [s.lastIndexOf(c)] for a string [c] of one code unit: the index of
    the last occurrence, or -1. *)
Fixpoint lastIndexOf (c : N) (s : jsstring) : Z :=
  match s with
  | [] => (-1)%Z
  | d :: s' =>
      let i := lastIndexOf c s' in
      if (i =? -1)%Z then (if d =? c then 0%Z else (-1)%Z) else (i + 1)%Z
  end.

(** [s.substring(start, finish)]: both indices are brought into
    [0 .. s.length] and swapped when out of order. *)
Definition substring (s : jsstring) (start finish : Z) : jsstring :=
  let len := Z.of_nat (length s) in
  let a := Z.min (Z.max start 0) len in
  let b := Z.min (Z.max finish 0) len in
  take (Z.to_nat (Z.max a b - Z.min a b)) (drop (Z.to_nat (Z.min a b)) s).

(** The class of the pattern of [savePdfWithNotes]: backslash, slash,
    colon, star, question mark, double quote, angle brackets and bar. *)
Definition isReservedChar (c : N) : bool :=
  (c =? 92) || (c =? 47) || (c =? 58) || (c =? 42) || (c =? 63) ||
  (c =? 34) || (c =? 60) || (c =? 62) || (c =? 124).

(** The global [replace] of [savePdfWithNotes]: every code unit of the
    class becomes a hyphen. *)
Definition sanitizeSaveName (saveName : jsstring) : jsstring :=
  map (fun c => if isReservedChar c then 45 else c) saveName.

(** The front matter put before the notes; [created] is
    [new Date().toISOString()]. *)
Definition notesMetadata (saveName created : jsstring) : jsstring :=
  js "---\npdf: " ++ [34] ++ saveName ++ js ".pdf" ++ [34]
  ++ js "\ntype: pdf-notes\ncreated: " ++ created ++ js "\n---\n\n".

(** [savePdfWithNotes]: the vault and [currentPdfPath] afterwards.  The
    adapter reads and writes texts and binary contents in one name
    space; a read of a file that does not exist throws.  When the PDF
    cannot be read the outer [catch] ends the call; when the notes cannot
    be read the inner one does, and the path is updated all the same. *)
Definition savePdfWithNotes (created : jsstring) (vault : gmap jsstring jsstring)
    (currentPdfPath : option jsstring) (saveName : jsstring)
    : gmap jsstring jsstring * option jsstring :=
  match truthyPath currentPdfPath with
  | None => (vault, currentPdfPath)
  | Some pdf =>
      let currentDir := substring pdf 0 (lastIndexOf 47 pdf) in
      let saveName := sanitizeSaveName saveName in
      let newPdfPath := currentDir ++ js "/" ++ saveName ++ js ".pdf" in
      let newNotesPath := currentDir ++ js "/" ++ saveName ++ js ".md" in
      match vault !! pdf with
      | None => (vault, currentPdfPath)
      | Some pdfContent =>
          let vault1 := <[newPdfPath := pdfContent]> vault in
          let notesFile := notesFileOf pdf in
          let vault2 :=
            match vault1 !! notesFile with
            | Some notesContent =>
                <[newNotesPath := notesMetadata saveName created ++ notesContent]> vault1
            | None => vault1
            end in
          (vault2, Some newPdfPath)
      end
  end.

(** The default name of the save button: [.pdf] at the end of the path
    is replaced by [-copy] (without the [m] flag, [$] is the end of the
    string). *)
Definition defaultSaveName (currentPdfPath : jsstring) : jsstring :=
  let stem := take (length currentPdfPath - 4) currentPdfPath in
  if decide (drop (length currentPdfPath - 4) currentPdfPath = js ".pdf")
  then stem ++ js "-copy"
  else currentPdfPath.

(** The click handler of the save button; [pdfLoaded] tells whether
    [currentPdf] is set. *)
Definition saveBtnClick (created : jsstring) (vault : gmap jsstring jsstring)
    (pdfLoaded : bool) (currentPdfPath : option jsstring)
    : gmap jsstring jsstring * option jsstring :=
  match pdfLoaded, truthyPath currentPdfPath with
  | true, Some pdf =>
      savePdfWithNotes created vault currentPdfPath (defaultSaveName pdf)
  | _, _ => (vault, currentPdfPath)
  end.

(** The path of the copy of the PDF and of the copy of the notes. *)
Definition newPdfPathOf (pdf saveName : jsstring) : jsstring :=
  substring pdf 0 (lastIndexOf 47 pdf) ++ js "/" ++ sanitizeSaveName saveName
  ++ js ".pdf".

Definition newNotesPathOf (pdf saveName : jsstring) : jsstring :=
  substring pdf 0 (lastIndexOf 47 pdf) ++ js "/" ++ sanitizeSaveName saveName
  ++ js ".md".

(** ** part_003: which panes are shown *)

(** [plugin.settings.showPdf] and [showNotes], the [style.display] of
    the two containers and the texts of the two toggle buttons of the
    controls. *)
Record Panes := {
  showPdf : bool;
  showNotes : bool;
  pdfDisplay : jsstring;
  noteDisplay : jsstring;
  togglePdfText : jsstring;
  toggleNotesText : jsstring
}.

Definition displayOf (shown : bool) : jsstring :=
  if shown then js "block" else js "none".

(** [updateVisibility] with both containers present. *)
Definition updateVisibility (s : Panes) : Panes :=
  let both := negb (showPdf s) && negb (showNotes s) in
  let pdf := if both then true else showPdf s in
  let notes := if both then true else showNotes s in
  {| showPdf := pdf; showNotes := notes;
     pdfDisplay := displayOf pdf; noteDisplay := displayOf notes;
     togglePdfText := togglePdfText s; toggleNotesText := toggleNotesText s |}.

(** [togglePdfBtn.onclick] and [toggleNotesBtn.onclick]. *)
Definition togglePdfClick (s : Panes) : Panes :=
  if negb (showPdf s) && negb (showNotes s) then s
  else
    let pdf := negb (showPdf s) in
    updateVisibility
      {| showPdf := pdf; showNotes := showNotes s;
         pdfDisplay := pdfDisplay s; noteDisplay := noteDisplay s;
         togglePdfText := if pdf then js "Hide PDF" else js "Show PDF";
         toggleNotesText := toggleNotesText s |}.

Definition toggleNotesClick (s : Panes) : Panes :=
  if negb (showNotes s) && negb (showPdf s) then s
  else
    let notes := negb (showNotes s) in
    updateVisibility
      {| showPdf := showPdf s; showNotes := notes;
         pdfDisplay := pdfDisplay s; noteDisplay := noteDisplay s;
         togglePdfText := togglePdfText s;
         toggleNotesText := if notes then js "Hide Notes" else js "Show Notes" |}.

(** The toggles of the settings tab and its reset button, as far as the
    panes go: the setting is stored, then every open view runs
    [updateVisibility]. *)
Definition setShowPdf (value : bool) (s : Panes) : Panes :=
  updateVisibility
    {| showPdf := value; showNotes := showNotes s;
       pdfDisplay := pdfDisplay s; noteDisplay := noteDisplay s;
       togglePdfText := togglePdfText s; toggleNotesText := toggleNotesText s |}.

Definition setShowNotes (value : bool) (s : Panes) : Panes :=
  updateVisibility
    {| showPdf := showPdf s; showNotes := value;
       pdfDisplay := pdfDisplay s; noteDisplay := noteDisplay s;
       togglePdfText := togglePdfText s; toggleNotesText := toggleNotesText s |}.

Definition resetViewSettings (s : Panes) : Panes :=
  updateVisibility
    {| showPdf := true; showNotes := true;
       pdfDisplay := pdfDisplay s; noteDisplay := noteDisplay s;
       togglePdfText := togglePdfText s; toggleNotesText := toggleNotesText s |}.

Inductive PaneEvent :=
  | TogglePdf
  | ToggleNotes
  | SetShowPdf (value : bool)
  | SetShowNotes (value : bool)
  | ResetViewSettings.

Definition paneEvent (s : Panes) (e : PaneEvent) : Panes :=
  match e with
  | TogglePdf => togglePdfClick s
  | ToggleNotes => toggleNotesClick s
  | SetShowPdf value => setShowPdf value s
  | SetShowNotes value => setShowNotes value s
  | ResetViewSettings => resetViewSettings s
  end.

(** One pane at least is set to be shown, and the containers are
    displayed as the settings say. *)
Definition panesShown (s : Panes) : Prop :=
  showPdf s || showNotes s = true
  /\ pdfDisplay s = displayOf (showPdf s)
  /\ noteDisplay s = displayOf (showNotes s).

(** ** The zoom

    [currentScale] is a JavaScript number, a binary64 floating-point
    value; it is modelled by the primitive floating-point numbers, on
    which [+], [-], [/] and [<] are those of IEEE 754. *)

Module Math.
Import PrimFloat.

(** [Math.max] and [Math.min] of two numbers: NaN when one of them is
    NaN, and [+0] is larger than [-0]. *)
Definition max (a b : float) : float :=
  if is_nan a || is_nan b then nan
  else if (a <? b)%float then b
  else if (b <? a)%float then a
  else if get_sign a then b else a.

Definition min (a b : float) : float :=
  if is_nan a || is_nan b then nan
  else if (a <? b)%float then a
  else if (b <? a)%float then b
  else if get_sign a then a else b.

End Math.

Section Zoom.
Import PrimFloat.

(** The literal [0.2] stands for the binary64 value nearest to it, in
    JavaScript as here. *)
Local Set Warnings "-inexact-float".

(** main.ts and part_002: the click handlers of [zoomOut] and [zoomIn]
    on [currentScale]. *)
Definition zoomOutClick (currentScale : float) : float :=
  Math.max 0.5 (currentScale - 0.25).

Definition zoomInClick (currentScale : float) : float :=
  Math.min 3.0 (currentScale + 0.25).

Inductive ZoomClick := ZoomOut | ZoomIn.

Definition zoomClick (currentScale : float) (click : ZoomClick) : float :=
  match click with
  | ZoomOut => zoomOutClick currentScale
  | ZoomIn => zoomInClick currentScale
  end.

(** The scales from 50% to 300% in steps of 25%. *)
Definition zoomSteps : list float :=
  [0.5; 0.75; 1.0; 1.25; 1.5; 1.75; 2.0; 2.25; 2.5; 2.75; 3.0]%float.

(** part_003: the document, the page and the scale of the viewer. *)
Record PdfViewer := {
  viewerPages : option Z;
  viewerPage : Z;
  viewerScale : float
}.

(** [renderPage(pageNumber)] of part_003 as far as the page and the
    scale go, the drawing being taken to end before the next event.
    [fitScale] is what [calculateFitScale(page)] returns for the first
    page.
    [getPage] rejects a number outside 1 to [numPages], and the [catch]
    then leaves the viewer as it is. *)
Definition renderPage (fitScale : float) (pageNumber : Z) (s : PdfViewer) : PdfViewer :=
  match viewerPages s with
  | None => s
  | Some numPages =>
      if (1 <=? pageNumber)%Z && (pageNumber <=? numPages)%Z then
        {| viewerPages := viewerPages s;
           viewerPage := pageNumber;
           viewerScale := if (pageNumber =? 1)%Z then fitScale else viewerScale s |}
      else s
  end.

Definition setScale (scale : float) (s : PdfViewer) : PdfViewer :=
  {| viewerPages := viewerPages s; viewerPage := viewerPage s;
     viewerScale := scale |}.

(** The handlers of the controls of part_003.  Reading
    [this.currentPdf.numPages] throws when no document is loaded. *)
Definition prevButtonClick (fitScale : float) (s : PdfViewer) : PdfViewer :=
  if (1 <? viewerPage s)%Z then renderPage fitScale (viewerPage s - 1) s else s.

Definition nextButtonClick (fitScale : float) (s : PdfViewer) : PdfViewer :=
  match viewerPages s with
  | None => s
  | Some numPages =>
      if (viewerPage s <? numPages)%Z
      then renderPage fitScale (viewerPage s + 1) s
      else s
  end.

Definition pageInputOnChange (fitScale : float) (newPage : Z) (s : PdfViewer)
    : PdfViewer :=
  match viewerPages s with
  | None => s
  | Some numPages =>
      match pageInputChange numPages newPage with
      | Some page => renderPage fitScale page s
      | None => s
      end
  end.

Definition zoomOutButtonClick (fitScale : float) (s : PdfViewer) : PdfViewer :=
  renderPage fitScale (viewerPage s)
    (setScale (Math.max 0.5 (viewerScale s - 0.2)) s).

Definition zoomInButtonClick (fitScale : float) (s : PdfViewer) : PdfViewer :=
  renderPage fitScale (viewerPage s)
    (setScale (Math.min 3 (viewerScale s + 0.2)) s).

Inductive ViewerEvent :=
  | PrevButton
  | NextButton
  | PageInput (newPage : Z)
  | ZoomOutButton
  | ZoomInButton.

Definition viewerEvent (fitScale : float) (s : PdfViewer) (e : ViewerEvent)
    : PdfViewer :=
  match e with
  | PrevButton => prevButtonClick fitScale s
  | NextButton => nextButtonClick fitScale s
  | PageInput newPage => pageInputOnChange fitScale newPage s
  | ZoomOutButton => zoomOutButtonClick fitScale s
  | ZoomInButton => zoomInButtonClick fitScale s
  end.

End Zoom.

(** ** part_003: the notes area of a page *)

(** [if (notes) noteArea.value = notes], and [noteArea.value] as read
    afterwards: the textarea starts empty, [null] and the empty string
    are falsy, and the value is read with its line breaks normalised. *)
Definition noteAreaValue (notes : option jsstring) : jsstring :=
  match notes with
  | Some (c :: text) => normalizeLineBreaks (c :: text)
  | _ => []
  end.

(** [updateNoteSection(pageNumber)]: the value of the textarea it
    builds, if it builds one. *)
Definition updateNoteSection (vault : gmap jsstring jsstring)
    (currentPdfPath : option jsstring) (pageNumber : Z) : option jsstring :=
  match truthyPath currentPdfPath with
  | None => None
  | Some _ => Some (noteAreaValue (fst (loadNotes vault currentPdfPath pageNumber)))
  end.

(** [noteArea.onblur]: the vault afterwards. *)
Definition noteAreaBlur (vault : gmap jsstring jsstring)
    (currentPdfPath : option jsstring) (pageNumber : Z) (value : jsstring)
    : gmap jsstring jsstring :=
  fst (saveNotes vault currentPdfPath pageNumber value).

(** ** part_003: the folders offered by [loadSavedPdf] *)

(** A file of [vault.getFiles()]: its extension and [file.parent?.path]. *)
Record VaultFile := {
  extension : jsstring;
  parentPath : option jsstring
}.

(** [Set.prototype.add]: a set keeps its elements in the order they came
    in, each once. *)
Definition setAdd (x : jsstring) (set : list jsstring) : list jsstring :=
  if decide (x ∈ set) then set else set ++ [x].

(** The loop of [loadSavedPdf] over the files. *)
Definition pdfFolders (files : list VaultFile) : list jsstring :=
  fold_left
    (fun set file =>
       if decide (extension file = js "pdf" /\ parentPath file <> Some (js "/"))
       then setAdd (default [] (parentPath file)) set
       else set)
    files [].

(** [loadSavedPdf]: the folders the modal lists, or nothing when the
    notice is shown instead. *)
Definition loadSavedPdf (files : list VaultFile) : option (list jsstring) :=
  match pdfFolders files with
  | [] => None
  | folders => Some (List.filter (fun path => negb (bool_decide (path = []))) folders)
  end.

(** [files.find(...)] of [loadFromSaveFolder]. *)
Definition findPdfIn (folder : jsstring) (files : list VaultFile) : option VaultFile :=
  List.find
    (fun file => bool_decide (parentPath file = Some folder)
                 && bool_decide (extension file = js "pdf"))
    files.

(** * Properties *)

#[local] Arguments N.eqb : simpl never.
#[local] Arguments N.leb : simpl never.

(** ** Strings: prefixes and occurrences *)

Lemma stripPrefix_app (pat s : jsstring) : stripPrefix pat (pat ++ s) = Some s.
Proof.
  induction pat as [|a pat IH]; simpl; [reflexivity|].
  rewrite N.eqb_refl. exact IH.
Qed.

Lemma stripPrefix_Some (pat s r : jsstring) :
  stripPrefix pat s = Some r -> s = pat ++ r.
Proof.
  revert s. induction pat as [|a pat IH]; intros s H; simpl in *.
  - congruence.
  - destruct s as [|c s]; [discriminate|].
    destruct (N.eqb_spec a c) as [->|]; [|discriminate].
    f_equal. apply IH, H.
Qed.

Lemma startsWith_app (pat s : jsstring) : startsWith pat (pat ++ s) = true.
Proof. unfold startsWith. now rewrite stripPrefix_app. Qed.

Lemma startsWith_true (pat s : jsstring) :
  startsWith pat s = true -> exists r, s = pat ++ r.
Proof.
  unfold startsWith. destruct (stripPrefix pat s) as [r|] eqn:E; [|discriminate].
  intros _. exists r. now apply stripPrefix_Some.
Qed.

Lemma startsWith_nil_r (pat : jsstring) :
  pat <> [] -> startsWith pat [] = false.
Proof. destruct pat; [congruence|reflexivity]. Qed.

(** A prefix test looks at no more than [length pat] code units. *)
Lemma stripPrefix_app_long (pat x y : jsstring) :
  (length pat <= length x)%nat ->
  stripPrefix pat (x ++ y) = option_map (fun r => r ++ y) (stripPrefix pat x).
Proof.
  revert x. induction pat as [|a pat IH]; intros x H; simpl in *; [reflexivity|].
  destruct x as [|c x]; simpl in *; [lia|].
  destruct (a =? c); [|reflexivity]. apply IH. lia.
Qed.

Lemma startsWith_app_long (pat x y : jsstring) :
  (length pat <= length x)%nat ->
  startsWith pat (x ++ y) = startsWith pat x.
Proof.
  intros H. unfold startsWith. rewrite stripPrefix_app_long by exact H.
  now destruct (stripPrefix pat x).
Qed.

Lemma startsWith_app_true (pat x y : jsstring) :
  startsWith pat x = true -> startsWith pat (x ++ y) = true.
Proof.
  intros H. destruct (startsWith_true _ _ H) as [r ->].
  rewrite <- app_assoc. apply startsWith_app.
Qed.

Lemma startsWith_length (pat s : jsstring) :
  startsWith pat s = true -> (length pat <= length s)%nat.
Proof.
  intros H. destruct (startsWith_true _ _ H) as [r ->].
  rewrite length_app. lia.
Qed.

Lemma includes_cons (pat : jsstring) (c : N) (s : jsstring) :
  includes pat (c :: s) = startsWith pat (c :: s) || includes pat s.
Proof. reflexivity. Qed.

Lemma includes_app_r (pat x y : jsstring) :
  includes pat y = true -> includes pat (x ++ y) = true.
Proof.
  intros H. induction x as [|c x IH]; [exact H|].
  simpl app. rewrite includes_cons, IH. apply orb_true_r.
Qed.

Lemma includes_app_l (pat x y : jsstring) :
  includes pat x = true -> includes pat (x ++ y) = true.
Proof.
  induction x as [|c x IH]; intros H.
  - simpl in H. rewrite orb_false_r in H.
    destruct pat; [|discriminate]. destruct y; reflexivity.
  - simpl app. rewrite includes_cons in *.
    apply orb_true_iff in H as [H|H].
    + apply (startsWith_app_true pat (c :: x) y) in H. simpl in H.
      now rewrite H.
    + rewrite (IH H). apply orb_true_r.
Qed.

Lemma includes_app_false (pat x y : jsstring) :
  includes pat (x ++ y) = false ->
  includes pat x = false /\ includes pat y = false.
Proof.
  intros H. split.
  - destruct (includes pat x) eqn:E; [|reflexivity].
    now rewrite (includes_app_l _ _ y E) in H.
  - destruct (includes pat y) eqn:E; [|reflexivity].
    now rewrite (includes_app_r _ x _ E) in H.
Qed.

(** A pattern cannot reach past a code unit it does not contain. *)
Lemma startsWith_stop (pat x : jsstring) (c : N) (y : jsstring) :
  ~ In c pat -> startsWith pat (x ++ c :: y) = true ->
  (length pat <= length x)%nat.
Proof.
  unfold startsWith. revert x. induction pat as [|a pat IH]; intros x Hc H; simpl in *.
  - lia.
  - destruct x as [|b x]; simpl in *.
    + destruct (N.eqb_spec a c) as [->|]; [|discriminate]. tauto.
    + destruct (a =? b); [|discriminate].
      assert (length pat <= length x)%nat; [|lia].
      apply IH; [tauto|exact H].
Qed.

(** Text made of code units the pattern does not contain adds no
    occurrence at the end. *)
Lemma includes_app_foreign (pat x w : jsstring) :
  pat <> [] -> (forall c, In c w -> ~ In c pat) ->
  includes pat x = false -> includes pat (x ++ w) = false.
Proof.
  intros Hne Hw. induction x as [|b x IH]; intros H.
  - simpl app. clear H. induction w as [|c w IHw].
    + simpl. now rewrite startsWith_nil_r.
    + rewrite includes_cons, IHw by (intros; apply Hw; now right).
      rewrite orb_false_r.
      destruct pat as [|a pat]; [congruence|].
      unfold startsWith. simpl.
      destruct (N.eqb_spec a c) as [->|]; [|reflexivity].
      exfalso. apply (Hw c); now left.
  - simpl app. rewrite includes_cons in *.
    apply orb_false_iff in H as [H1 H2].
    rewrite (IH H2), orb_false_r.
    destruct (startsWith pat (b :: x ++ w)) eqn:E; [|reflexivity].
    change (b :: x ++ w) with ((b :: x) ++ w) in E.
    destruct w as [|c w]; [now rewrite app_nil_r, H1 in E|].
    assert (L : (length pat <= length (b :: x))%nat).
    { apply (startsWith_stop pat (b :: x) c w); [apply Hw; now left|exact E]. }
    rewrite (startsWith_app_long _ _ _ L) in E. congruence.
Qed.

(** Text made of code units other than the first one of the pattern
    holds no occurrence and starts none. *)
Lemma includes_skip_foreign (a : N) (pat x y : jsstring) :
  ~ In a x -> includes (a :: pat) (x ++ y) = includes (a :: pat) y.
Proof.
  induction x as [|b x IH]; intros H; [reflexivity|].
  simpl app. rewrite includes_cons, IH by (simpl in H; tauto).
  unfold startsWith. simpl.
  destruct (N.eqb_spec a b) as [->|]; [|reflexivity].
  exfalso. apply H. now left.
Qed.

Lemma no_straddle (pat x y : jsstring) :
  hashShape pat -> startsHash y ->
  startsWith pat (x ++ y) = true ->
  x = [] \/ (length pat <= length x)%nat.
Proof.
  intros (c & t & -> & Hc) [->|[y' ->]] H.
  - right. rewrite app_nil_r in H. now apply startsWith_length.
  - destruct x as [|a [|b x]]; [now left|exfalso|right].
    + unfold startsWith in H. simpl in H.
      destruct (35 =? a); [|discriminate].
      destruct (N.eqb_spec c 35) as [->|]; [|discriminate].
      apply Hc. now left.
    + unfold startsWith in H. simpl in H.
      destruct (35 =? a); [|discriminate].
      destruct (35 =? b); [|discriminate].
      change (startsWith (c :: t) (x ++ 35 :: 35 :: y') = true) in H.
      apply startsWith_stop in H; [simpl in *; lia|exact Hc].
Qed.

Lemma startsWith_app_hash (pat x y : jsstring) :
  hashShape pat -> startsHash y -> x <> [] ->
  startsWith pat (x ++ y) = startsWith pat x.
Proof.
  intros Hp Hy Hx.
  destruct (startsWith pat (x ++ y)) eqn:E.
  - destruct (no_straddle _ _ _ Hp Hy E) as [?|L]; [congruence|].
    now rewrite (startsWith_app_long _ _ _ L) in E.
  - destruct (startsWith pat x) eqn:E'; [|reflexivity].
    now rewrite (startsWith_app_true _ _ y E') in E.
Qed.

Lemma includes_app_hash (pat x y : jsstring) :
  hashShape pat -> startsHash y ->
  includes pat x = false ->
  includes pat (x ++ y) = includes pat y.
Proof.
  intros Hp Hy. induction x as [|c x IH]; intros H; [reflexivity|].
  simpl app. rewrite includes_cons in *.
  apply orb_false_iff in H as [H1 H2].
  rewrite (IH H2).
  change (c :: x ++ y) with ((c :: x) ++ y).
  rewrite (startsWith_app_hash _ _ _ Hp Hy), H1 by discriminate.
  reflexivity.
Qed.

Lemma hashShape_PAGE : hashShape PAGE.
Proof.
  exists 32, (skipn 3 PAGE). split; [reflexivity|].
  simpl. intros H. repeat (destruct H as [H|H]; [discriminate|]). exact H.
Qed.

Lemma startsHash_PAGE (y : jsstring) : startsWith PAGE y = true -> startsHash y.
Proof.
  intros H. destruct (startsWith_true _ _ H) as [r ->]. right.
  eexists. reflexivity.
Qed.

(** ** The section regular expression *)

Lemma endOrPage_startsHash (y : jsstring) : endOrPage y -> startsHash y.
Proof. intros [->|H]; [now left|now apply startsHash_PAGE]. Qed.

Lemma lazyUntilPage_inv (s body after : jsstring) :
  lazyUntilPage s = (body, after) ->
  s = body ++ after /\ includes PAGE body = false /\ endOrPage after.
Proof.
  revert body after. induction s as [|c s IH]; intros body after H; simpl in H.
  - injection H as <- <-. repeat split. now left.
  - destruct (startsWith PAGE (c :: s)) eqn:E.
    + injection H as <- <-. repeat split. now right.
    + destruct (lazyUntilPage s) as [b r]. injection H as <- <-.
      destruct (IH b r eq_refl) as (-> & Hb & Hr).
      repeat split; [|exact Hr].
      rewrite includes_cons, Hb, orb_false_r.
      destruct (startsWith PAGE (c :: b)) eqn:E'; [|reflexivity].
      apply (startsWith_app_true _ _ r) in E'. simpl in E'. congruence.
Qed.

(** The lazy star takes exactly [x] when [x] holds no [## Page] and is
    followed by [## Page] or by the end. *)
Lemma lazyUntilPage_app (x y : jsstring) :
  includes PAGE x = false -> endOrPage y ->
  lazyUntilPage (x ++ y) = (x, y).
Proof.
  intros Hx Hy. induction x as [|c x IH].
  - destruct Hy as [->|Hy]; [reflexivity|].
    destruct y as [|c y]; [reflexivity|]. simpl. now rewrite Hy.
  - rewrite includes_cons in Hx. apply orb_false_iff in Hx as [H1 H2].
    change ((c :: x) ++ y) with (c :: (x ++ y)).
    cbn [lazyUntilPage].
    change (c :: (x ++ y)) with ((c :: x) ++ y).
    rewrite (startsWith_app_hash PAGE (c :: x) y hashShape_PAGE
               (endOrPage_startsHash _ Hy)) by discriminate.
    now rewrite H1, (IH H2).
Qed.

(** What the lazy star takes does not depend on what follows a later
    [## Page]. *)
Lemma lazyUntilPage_fst_app (x y : jsstring) :
  endOrPage y ->
  fst (lazyUntilPage (x ++ y)) = fst (lazyUntilPage x).
Proof.
  intros Hy. induction x as [|c x IH].
  - destruct Hy as [->|Hy]; [reflexivity|].
    destruct y as [|c y]; [reflexivity|]. simpl. now rewrite Hy.
  - change ((c :: x) ++ y) with (c :: (x ++ y)).
    cbn [lazyUntilPage].
    change (c :: (x ++ y)) with ((c :: x) ++ y).
    rewrite (startsWith_app_hash PAGE (c :: x) y hashShape_PAGE
               (endOrPage_startsHash _ Hy)) by discriminate.
    destruct (startsWith PAGE (c :: x)); [reflexivity|].
    destruct (lazyUntilPage (x ++ y)), (lazyUntilPage x).
    simpl in *. now rewrite IH.
Qed.

Lemma execSection_here (hdr rest : jsstring) :
  execSection hdr (hdr ++ rest) =
  Some ([], fst (lazyUntilPage rest), snd (lazyUntilPage rest)).
Proof.
  destruct hdr as [|a hdr].
  - destruct rest as [|c rest]; [reflexivity|].
    cbn [app execSection stripPrefix].
    now destruct (lazyUntilPage (c :: rest)).
  - cbn [app execSection stripPrefix].
    rewrite N.eqb_refl, stripPrefix_app. now destruct (lazyUntilPage rest).
Qed.

Lemma execSection_cons_miss (hdr : jsstring) (c : N) (s : jsstring) :
  startsWith hdr (c :: s) = false ->
  execSection hdr (c :: s) = shiftMatch [c] (execSection hdr s).
Proof.
  unfold startsWith. intros H. cbn [execSection].
  destruct (stripPrefix hdr (c :: s)); [discriminate|].
  destruct (execSection hdr s) as [[[? ?] ?]|]; reflexivity.
Qed.

(** Text without the header, followed by text that starts with two [#],
    is passed over. *)
Lemma execSection_skip (hdr x y : jsstring) :
  hashShape hdr -> startsHash y -> includes hdr x = false ->
  execSection hdr (x ++ y) = shiftMatch x (execSection hdr y).
Proof.
  intros Hh Hy. induction x as [|c x IH]; intros Hx.
  - simpl. now destruct (execSection hdr y) as [[[? ?] ?]|].
  - rewrite includes_cons in Hx. apply orb_false_iff in Hx as [H1 H2].
    change ((c :: x) ++ y) with (c :: (x ++ y)).
    rewrite execSection_cons_miss, (IH H2).
    + now destruct (execSection hdr y) as [[[? ?] ?]|].
    + change (c :: (x ++ y)) with ((c :: x) ++ y).
      now rewrite (startsWith_app_hash hdr (c :: x) y Hh Hy) by discriminate.
Qed.

Lemma execSection_None (hdr s : jsstring) :
  hdr <> [] -> includes hdr s = false -> execSection hdr s = None.
Proof.
  intros Hne. induction s as [|c s IH]; intros H.
  - destruct hdr; [congruence|reflexivity].
  - rewrite includes_cons in H. apply orb_false_iff in H as [H1 H2].
    now rewrite execSection_cons_miss, (IH H2).
Qed.

Lemma execSection_inv (hdr s before body after : jsstring) :
  hdr <> [] ->
  execSection hdr s = Some (before, body, after) ->
  s = before ++ hdr ++ body ++ after
  /\ includes hdr before = false
  /\ includes PAGE body = false
  /\ endOrPage after.
Proof.
  intros Hne. revert before.
  induction s as [|c s IH]; intros before H; cbn [execSection] in H.
  - destruct (stripPrefix hdr []) as [r|] eqn:E; [|discriminate].
    destruct hdr; [congruence|discriminate].
  - destruct (stripPrefix hdr (c :: s)) as [r|] eqn:E.
    + destruct (lazyUntilPage r) as [b a] eqn:L. injection H as <- <- <-.
      apply stripPrefix_Some in E. apply lazyUntilPage_inv in L as (-> & Hb & Ha).
      repeat split; [exact E| |exact Hb|exact Ha].
      simpl. now rewrite startsWith_nil_r.
    + destruct (execSection hdr s) as [[[b0 body0] a0]|]; [|discriminate].
      injection H as <- <- <-.
      destruct (IH b0 eq_refl) as (-> & Hb & Hbody & Ha).
      repeat split; [|exact Hbody|exact Ha].
      rewrite includes_cons, Hb, orb_false_r.
      destruct (startsWith hdr (c :: b0)) eqn:E'; [|reflexivity].
      apply (startsWith_app_true _ _ (hdr ++ body0 ++ a0)) in E'.
      unfold startsWith in E'. simpl in E', E. now rewrite E in E'.
Qed.

Lemma execSection_None_inv (hdr s : jsstring) :
  execSection hdr s = None -> includes hdr s = false.
Proof.
  induction s as [|c s IH]; intros H; cbn [execSection] in H.
  - simpl. unfold startsWith.
    destruct (stripPrefix hdr []); [|reflexivity].
    now destruct (lazyUntilPage _).
  - rewrite includes_cons. unfold startsWith.
    destruct (stripPrefix hdr (c :: s)).
    + now destruct (lazyUntilPage _).
    + destruct (execSection hdr s) as [[[? ?] ?]|]; [discriminate|].
      now rewrite IH.
Qed.

(** The header, a body without [## Page], then [## Page] or the end:
    that is the match when the header occurs nowhere before. *)
Lemma execSection_app (hdr before body after : jsstring) :
  hashShape hdr ->
  includes hdr before = false ->
  includes PAGE body = false ->
  endOrPage after ->
  execSection hdr (before ++ hdr ++ body ++ after) = Some (before, body, after).
Proof.
  intros Hh Hb Hbody Ha.
  rewrite execSection_skip; [|exact Hh| |exact Hb].
  - rewrite execSection_here, (lazyUntilPage_app _ _ Hbody Ha).
    simpl. now rewrite app_nil_r.
  - destruct Hh as (c & t & -> & _). right. eexists. reflexivity.
Qed.

(** A match found in [x] stays the match, with the same body, when text
    that starts with [## Page] is put after [x]. *)
Lemma execSection_found_app (hdr x y before body after : jsstring) :
  execSection hdr x = Some (before, body, after) ->
  endOrPage y ->
  exists after', execSection hdr (x ++ y) = Some (before, body, after').
Proof.
  intros H Hy. revert before H.
  induction x as [|c x IH]; intros before H; cbn [execSection] in H.
  - destruct (stripPrefix hdr []) as [r|] eqn:E; [|discriminate].
    destruct hdr; [|discriminate]. simpl in E. injection E as <-.
    simpl in H. injection H as <- <- <-.
    change ([] ++ y) with ([] ++ [] ++ y). rewrite execSection_here.
    replace (fst (lazyUntilPage ([] ++ y))) with (fst (lazyUntilPage [])).
    + eexists. reflexivity.
    + symmetry. now apply lazyUntilPage_fst_app.
  - destruct (stripPrefix hdr (c :: x)) as [r|] eqn:E.
    + destruct (lazyUntilPage r) as [b a] eqn:L. injection H as <- <- <-.
      apply stripPrefix_Some in E. rewrite E, <- app_assoc, execSection_here.
      rewrite (lazyUntilPage_fst_app r y Hy), L. eexists. reflexivity.
    + destruct (execSection hdr x) as [[[b0 body0] a0]|] eqn:X; [|discriminate].
      injection H as <- <- <-.
      destruct (IH b0 eq_refl) as [a' Ha'].
      change ((c :: x) ++ y) with (c :: (x ++ y)).
      rewrite execSection_cons_miss, Ha'; [eexists; reflexivity|].
      destruct (startsWith hdr (c :: (x ++ y))) eqn:S; [|reflexivity].
      change (c :: (x ++ y)) with ((c :: x) ++ y) in S.
      assert (L : (length hdr <= length (c :: x))%nat).
      { destruct hdr as [|h hdr]; [simpl; lia|].
        apply execSection_inv in X as (-> & _); [|discriminate].
        repeat (rewrite ?length_app; simpl). lia. }
      rewrite (startsWith_app_long _ _ _ L) in S.
      unfold startsWith in S. now rewrite E in S.
Qed.

(** ** Numbers as text *)

Lemma digitsFuel_spec (fuel : nat) (n : N) (acc : jsstring) :
  exists ds, digitsFuel fuel n acc = ds ++ acc
             /\ Forall (fun c => isDigit c = true) ds
             /\ (fuel <> O -> ds <> []).
Proof.
  revert n acc. induction fuel as [|fuel IH]; intros n acc; simpl.
  - exists []. repeat split; [constructor|congruence].
  - assert (D : isDigit (48 + n mod 10) = true).
    { unfold isDigit. pose proof (N.mod_upper_bound n 10 ltac:(discriminate)) as M.
      revert M. generalize (n mod 10). intros m M.
      apply andb_true_iff. split; apply N.leb_le; lia. }
    destruct (n <? 10).
    + exists [48 + n mod 10]. repeat split; [now constructor|discriminate].
    + destruct (IH (n / 10) ((48 + n mod 10) :: acc)) as (ds & -> & F & _).
      exists (ds ++ [48 + n mod 10]). rewrite <- app_assoc.
      repeat split.
      * apply Forall_app. split; [exact F|now constructor].
      * intros _. destruct ds; discriminate.
Qed.

Lemma digitsOf_digits (n : N) : Forall (fun c => isDigit c = true) (digitsOf n).
Proof.
  unfold digitsOf.
  destruct (digitsFuel_spec (S (N.to_nat (N.log2 n))) n []) as (ds & -> & F & _).
  now rewrite app_nil_r.
Qed.

Lemma digitsOf_nonempty (n : N) : digitsOf n <> [].
Proof.
  unfold digitsOf.
  destruct (digitsFuel_spec (S (N.to_nat (N.log2 n))) n []) as (ds & -> & _ & H).
  rewrite app_nil_r. now apply H.
Qed.

Lemma digitsFuel_parse (fuel : nat) (n : N) (acc : jsstring) :
  n < 2 ^ N.of_nat fuel ->
  fold_left parseStep (digitsFuel fuel n acc) 0%Z
  = fold_left parseStep acc (Z.of_N n).
Proof.
  revert n acc. induction fuel as [|fuel IH]; intros n acc H.
  - simpl in H. assert (n = 0) as -> by lia. reflexivity.
  - cbn [digitsFuel]. destruct (N.ltb_spec n 10) as [L|L].
    + cbn [fold_left]. f_equal. unfold parseStep.
      rewrite N.mod_small by exact L. lia.
    + rewrite IH.
      * cbn [fold_left]. f_equal. unfold parseStep.
        pose proof (N.div_mod n 10 ltac:(discriminate)) as E.
        revert E. generalize (n / 10), (n mod 10). intros q m E.
        rewrite N2Z.inj_add. lia.
      * apply N.Div0.div_lt_upper_bound.
        rewrite Nat2N.inj_succ, N.pow_succ_r' in H. lia.
Qed.

Lemma parseInt_digitsOf (n : N) : parseInt (digitsOf n) = Z.of_N n.
Proof.
  unfold parseInt, digitsOf.
  change (fun a d => (10 * a + (Z.of_N d - 48))%Z) with parseStep.
  rewrite digitsFuel_parse; [reflexivity|].
  rewrite Nat2N.inj_succ, N2Nat.id.
  destruct (N.eq_dec n 0) as [->|Hn]; [reflexivity|].
  apply N.log2_spec. lia.
Qed.

Lemma parseInt_numberToString (n : Z) :
  (0 <= n)%Z -> parseInt (numberToString n) = n.
Proof.
  intros H. unfold numberToString.
  destruct (Z.ltb_spec n 0); [lia|].
  rewrite parseInt_digitsOf. lia.
Qed.

(** The text of a number is made of digits and, in front, maybe [-]. *)
Lemma numberToString_chars (n : Z) (c : N) :
  In c (numberToString n) -> c = 45 \/ isDigit c = true.
Proof.
  unfold numberToString. intros H.
  destruct (n <? 0)%Z; [destruct H as [<-|H]; [now left|]|]; right;
    exact (proj1 (List.Forall_forall _ _) (digitsOf_digits _) c H).
Qed.

Lemma numberToString_not (n : Z) (c : N) :
  c <> 45 -> isDigit c = false -> ~ In c (numberToString n).
Proof.
  intros H1 H2 H. destruct (numberToString_chars n c H); congruence.
Qed.

Lemma numberToString_nonempty (n : Z) : numberToString n <> [].
Proof.
  unfold numberToString. destruct (n <? 0)%Z; [discriminate|].
  apply digitsOf_nonempty.
Qed.

Lemma digitsOf_inj (m n : N) : digitsOf m = digitsOf n -> m = n.
Proof.
  intros H. apply (f_equal parseInt) in H.
  rewrite !parseInt_digitsOf in H. lia.
Qed.

Lemma numberToString_inj (m n : Z) :
  numberToString m = numberToString n -> m = n.
Proof.
  unfold numberToString.
  destruct (Z.ltb_spec m 0) as [Hm|Hm], (Z.ltb_spec n 0) as [Hn|Hn]; intros H.
  - injection H as H'. apply digitsOf_inj in H'. lia.
  - exfalso. pose proof (digitsOf_digits (Z.to_N n)) as D.
    rewrite <- H in D. inversion D as [|? ? D1 _]. discriminate.
  - exfalso. pose proof (digitsOf_digits (Z.to_N m)) as D.
    rewrite H in D. inversion D as [|? ? D1 _]. discriminate.
  - apply digitsOf_inj in H. lia.
Qed.

(** A text ending in [a] is no prefix of a text that continues, after a
    part without [a], with something else. *)
Lemma stripPrefix_sentinel (u v w : jsstring) (a : N) :
  ~ In a v ->
  startsWith (u ++ [a]) (v ++ w) = true ->
  (u = v /\ exists w', w = a :: w')
  \/ (exists c w', w = c :: w' /\ In c u).
Proof.
  unfold startsWith. revert v. induction u as [|b u IH]; intros v Hv H.
  - destruct v as [|c v]; simpl in *.
    + destruct w as [|c w]; [discriminate|].
      destruct (N.eqb_spec a c) as [->|]; [|discriminate].
      left. split; [reflexivity|]. eexists. reflexivity.
    + destruct (N.eqb_spec a c) as [->|]; [|discriminate]. tauto.
  - destruct v as [|c v]; simpl in *.
    + destruct w as [|c w]; [discriminate|].
      destruct (N.eqb_spec b c) as [->|]; [|discriminate].
      right. exists c, w. split; [reflexivity|now left].
    + destruct (N.eqb_spec b c) as [->|]; [|discriminate].
      destruct (IH v ltac:(tauto) H) as [[-> Hw]|(d & w' & -> & Hd)].
      * left. split; [reflexivity|exact Hw].
      * right. exists d, w'. split; [reflexivity|now right].
Qed.

(** ** Page headers *)

Lemma pageHeaderLine_eq (p : Z) :
  pageHeaderLine p = 35 :: 35 :: 32 :: js "Page " ++ numberToString p ++ [10].
Proof. reflexivity. Qed.

Lemma hashShape_pageHeaderLine (p : Z) : hashShape (pageHeaderLine p).
Proof.
  exists 32, (js "Page " ++ numberToString p ++ [10]).
  split; [reflexivity|].
  intros [H|H]; [discriminate|].
  apply in_app_or in H as [H|H].
  - simpl in H. repeat (destruct H as [H|H]; [discriminate|]). exact H.
  - apply in_app_or in H as [H|[H|[]]]; [|discriminate].
    revert H. now apply numberToString_not.
Qed.

Lemma pageHeaderLine_nonempty (p : Z) : pageHeaderLine p <> [].
Proof. discriminate. Qed.

Lemma startsWith_PAGE_pageHeader (p : Z) (s : jsstring) :
  startsWith PAGE (pageHeader p ++ s) = true.
Proof. reflexivity. Qed.

Lemma endOrPage_pageHeader (p : Z) (s : jsstring) :
  endOrPage (pageHeader p ++ s).
Proof. right. apply startsWith_PAGE_pageHeader. Qed.

(** After the header of page [p] no header line of another page begins,
    whatever follows, as long as that holds no [## Page]. *)
Lemma includes_header_other (p q : Z) (w : jsstring) :
  q <> p ->
  (w = [] \/ exists w', w = 10 :: w') ->
  includes PAGE w = false ->
  includes (pageHeaderLine q) (pageHeader p ++ w) = false.
Proof.
  intros Hqp Hw Hpage.
  assert (Hin : includes PAGE (numberToString p ++ w) = false).
  { unfold PAGE. rewrite includes_skip_foreign; [exact Hpage|].
    now apply numberToString_not. }
  assert (Hrest : includes (pageHeaderLine q)
                    (js "# Page " ++ numberToString p ++ w) = false).
  { destruct (includes (pageHeaderLine q) (js "# Page " ++ numberToString p ++ w))
      eqn:E; [|reflexivity].
    assert (includes PAGE (js "# Page " ++ numberToString p ++ w) = true) as C.
    { clear -E. revert E.
      generalize (js "# Page " ++ numberToString p ++ w). intros s.
      induction s as [|c s IH]; intros E.
      - discriminate.
      - rewrite includes_cons in *. apply orb_true_iff in E as [E|E].
        + destruct (startsWith_true _ _ E) as [r ->]. reflexivity.
        + rewrite (IH E). apply orb_true_r. }
    change (js "# Page ") with [35; 32; 80; 97; 103; 101; 32] in C.
    cbn [app] in C.
    rewrite !includes_cons in C. cbn [startsWith stripPrefix PAGE] in C.
    simpl in C. congruence. }
  change (pageHeader p ++ w) with (35 :: js "# Page " ++ numberToString p ++ w).
  rewrite includes_cons, Hrest, orb_false_r.
  destruct (startsWith (pageHeaderLine q)
              (35 :: js "# Page " ++ numberToString p ++ w)) eqn:E; [|reflexivity].
  exfalso.
  change (startsWith (PAGE_SP ++ (numberToString q ++ [10]))
            (PAGE_SP ++ (numberToString p ++ w)) = true) in E.
  assert (E' : startsWith (numberToString q ++ [10]) (numberToString p ++ w) = true).
  { revert E. unfold startsWith. generalize PAGE_SP. intros z.
    induction z as [|a z IH]; [tauto|]. simpl. now rewrite N.eqb_refl. }
  apply stripPrefix_sentinel in E'
    as [[E' _]|(c & w' & -> & Hc)].
  - apply numberToString_inj in E'. congruence.
  - destruct Hw as [?|[w'' Hw]]; [discriminate|]. injection Hw as -> ->.
    revert Hc. now apply numberToString_not.
  - now apply numberToString_not.
Qed.

(** ** Trimming *)

Lemma trimStart_app (x y : jsstring) :
  trimStart (x ++ y) =
  match trimStart x with [] => trimStart y | r => r ++ y end.
Proof.
  induction x as [|c x IH]; [reflexivity|]. simpl.
  destruct (isWhiteSpace c); [exact IH|reflexivity].
Qed.

Lemma trimStart_white (w : jsstring) :
  allWhiteSpace w = true -> trimStart w = [].
Proof.
  induction w as [|c w IH]; [reflexivity|]. simpl.
  intros H. apply andb_true_iff in H as [-> H]. now apply IH.
Qed.

Lemma trimStart_nil_white (s : jsstring) :
  trimStart s = [] -> allWhiteSpace s = true.
Proof.
  induction s as [|c s IH]; [reflexivity|]. simpl.
  destruct (isWhiteSpace c); [exact IH|discriminate].
Qed.

Lemma allWhiteSpace_rev (w : jsstring) :
  allWhiteSpace (rev w) = allWhiteSpace w.
Proof.
  unfold allWhiteSpace. induction w as [|c w IH]; [reflexivity|]. simpl.
  rewrite forallb_app, IH. simpl. rewrite andb_true_r. apply andb_comm.
Qed.

Lemma trimEnd_app (x y : jsstring) :
  trimEnd (x ++ y) =
  match trimEnd y with [] => trimEnd x | r => x ++ r end.
Proof.
  unfold trimEnd. rewrite rev_app_distr, trimStart_app.
  destruct (trimStart (rev y)) as [|c r] eqn:E; [reflexivity|].
  rewrite rev_app_distr, rev_involutive.
  destruct (rev (c :: r)) eqn:E'; [|reflexivity].
  apply (f_equal (@length N)) in E'. rewrite length_rev in E'. discriminate.
Qed.

Lemma trimEnd_white (w : jsstring) :
  allWhiteSpace w = true -> trimEnd w = [].
Proof.
  intros H. unfold trimEnd. rewrite trimStart_white; [reflexivity|].
  now rewrite allWhiteSpace_rev.
Qed.

Lemma trimEnd_app_white (x w : jsstring) :
  allWhiteSpace w = true -> trimEnd (x ++ w) = trimEnd x.
Proof. intros H. now rewrite trimEnd_app, (trimEnd_white w H). Qed.

Lemma trimStart_suffix (s : jsstring) :
  exists w, s = w ++ trimStart s /\ allWhiteSpace w = true.
Proof.
  induction s as [|c s (w & E & W)]; [now exists []|]. simpl.
  destruct (isWhiteSpace c) eqn:C.
  - exists (c :: w). simpl. rewrite C, W. split; [now f_equal|reflexivity].
  - now exists [].
Qed.

(** [trimEnd] keeps a prefix and drops white space only. *)
Lemma trimEnd_prefix (s : jsstring) :
  exists w, s = trimEnd s ++ w /\ allWhiteSpace w = true.
Proof.
  destruct (trimStart_suffix (rev s)) as (w & E & W).
  exists (rev w). split; [|now rewrite allWhiteSpace_rev].
  unfold trimEnd. rewrite <- rev_app_distr, <- E. now rewrite rev_involutive.
Qed.

Lemma trimStart_keep (c : N) (s : jsstring) :
  isWhiteSpace c = false -> trimStart (c :: s) = c :: s.
Proof. intros H. simpl. now rewrite H. Qed.

Lemma trimEnd_keep (s : jsstring) :
  (forall c, In c s -> isWhiteSpace c = false) -> trimEnd s = s.
Proof.
  intros H. unfold trimEnd.
  destruct (rev s) as [|c r] eqn:E.
  - apply (f_equal (@rev N)) in E. now rewrite rev_involutive in E.
  - rewrite trimStart_keep, <- E; [apply rev_involutive|].
    apply H. apply in_rev. rewrite E. now left.
Qed.

Lemma trim_white (w : jsstring) : allWhiteSpace w = true -> trim w = [].
Proof. intros H. unfold trim. now rewrite trimStart_white. Qed.

(** White space around a text does not change what [trim] yields. *)
Lemma trim_app_white (s w : jsstring) :
  allWhiteSpace w = true -> trim (s ++ w) = trim s.
Proof.
  intros H. unfold trim. rewrite trimStart_app.
  destruct (trimStart s) as [|c r] eqn:E.
  - rewrite (trimStart_white w H). reflexivity.
  - now apply trimEnd_app_white.
Qed.

Lemma trim_white_app (w s : jsstring) :
  allWhiteSpace w = true -> trim (w ++ s) = trim s.
Proof.
  intros H. unfold trim. now rewrite trimStart_app, (trimStart_white w H).
Qed.

Lemma trim_trimEnd (s : jsstring) : trim (trimEnd s) = trim s.
Proof.
  destruct (trimEnd_prefix s) as (w & E & W).
  rewrite E at 2. now rewrite trim_app_white.
Qed.

Lemma includes_trimEnd (pat s : jsstring) :
  includes pat s = false -> includes pat (trimEnd s) = false.
Proof.
  intros H. destruct (trimEnd_prefix s) as (w & E & _).
  rewrite E in H. now apply includes_app_false in H.
Qed.

(** ** The replacement text of [saveNotes] *)

Lemma numberToString_noWhite (p : Z) (c : N) :
  In c (numberToString p) -> isWhiteSpace c = false.
Proof.
  intros H. destruct (numberToString_chars p c H) as [->|D]; [reflexivity|].
  unfold isDigit in D. apply andb_true_iff in D as [D1 D2].
  apply N.leb_le in D1, D2.
  unfold isWhiteSpace.
  repeat (apply orb_false_iff; split);
    try (apply N.eqb_neq; lia).
  apply andb_false_iff. left. apply N.leb_gt. lia.
Qed.

Lemma trim_newPageContent (p : Z) (notes : jsstring) :
  trim (pageHeader p ++ [10] ++ notes ++ [10; 10])
  = pageHeader p ++ trimmedBody notes.
Proof.
  unfold trim.
  change (pageHeader p ++ [10] ++ notes ++ [10; 10])
    with (35 :: (skipn 1 PAGE_SP ++ numberToString p) ++ [10] ++ notes ++ [10; 10]).
  rewrite trimStart_keep by reflexivity.
  change (35 :: (skipn 1 PAGE_SP ++ numberToString p) ++ [10] ++ notes ++ [10; 10])
    with (PAGE_SP ++ numberToString p ++ (10 :: notes) ++ [10; 10]).
  unfold pageHeader. rewrite <- app_assoc.
  rewrite !trimEnd_app.
  change (trimEnd [10; 10]) with (@nil N).
  change ([10] ++ notes) with (10 :: notes).
  change (10 :: notes) with ([10] ++ notes). rewrite trimEnd_app.
  change (trimEnd [10]) with (@nil N).
  unfold trimmedBody.
  pose proof (numberToString_nonempty p) as Hne.
  destruct (trimEnd notes) as [|c r].
  - rewrite trimEnd_keep by apply numberToString_noWhite.
    destruct (numberToString p); [congruence|]. now rewrite app_nil_r.
  - destruct (numberToString p); reflexivity.
Qed.

Lemma getSubstitution_plain (matched before after template : jsstring) :
  hasSubstitution template = false ->
  getSubstitution matched before after template = template.
Proof.
  induction template as [|c t IH]; intros H; [reflexivity|].
  cbn [getSubstitution]. destruct t as [|d t'].
  - now destruct (N.eqb_spec c 36) as [->|].
  - cbn [hasSubstitution] in H. apply orb_false_iff in H as [H1 H2].
    destruct (N.eqb_spec c 36) as [->|].
    + simpl in H1. unfold isSubstitutionSymbol in H1.
      repeat (apply orb_false_iff in H1 as [H1 ?]).
      replace (d =? 36) with false by congruence.
      replace (d =? 38) with false by congruence.
      replace (d =? 96) with false by congruence.
      replace (d =? 39) with false by congruence.
      f_equal. now apply IH.
    + f_equal. now apply IH.
Qed.

Lemma hasSubstitution_cons_other (c : N) (s : jsstring) :
  c <> 36 -> hasSubstitution (c :: s) = hasSubstitution s.
Proof.
  intros H. destruct s as [|d s]; [reflexivity|]. cbn [hasSubstitution].
  destruct (N.eqb_spec c 36); [congruence|reflexivity].
Qed.

Lemma hasSubstitution_skip (x y : jsstring) :
  ~ In 36 x -> hasSubstitution (x ++ y) = hasSubstitution y.
Proof.
  induction x as [|c x IH]; intros H; [reflexivity|].
  simpl app. rewrite hasSubstitution_cons_other.
  - apply IH. intros H'. apply H. now right.
  - intros ->. apply H. now left.
Qed.

Lemma hasSubstitution_prefix (x w : jsstring) :
  hasSubstitution (x ++ w) = false -> hasSubstitution x = false.
Proof.
  induction x as [|c x IH]; intros H; [reflexivity|].
  destruct x as [|d x]; [reflexivity|].
  cbn [app hasSubstitution] in *.
  apply orb_false_iff in H as [H1 H2]. rewrite H1. now apply IH.
Qed.

Lemma trimmedBody_plain (notes : jsstring) :
  hasSubstitution notes = false -> hasSubstitution (trimmedBody notes) = false.
Proof.
  intros H. unfold trimmedBody.
  destruct (trimEnd_prefix notes) as (w & E & _).
  rewrite E in H. apply hasSubstitution_prefix in H.
  destruct (trimEnd notes) as [|c r]; [reflexivity|].
  now rewrite hasSubstitution_cons_other.
Qed.

Lemma pageHeader_plain (p : Z) : ~ In 36 (pageHeader p).
Proof.
  unfold pageHeader. intros H. apply in_app_or in H as [H|H].
  - simpl in H. repeat (destruct H as [H|H]; [discriminate|]). exact H.
  - revert H. now apply numberToString_not.
Qed.

Lemma includes_PAGE_trimmedBody (notes : jsstring) :
  includes PAGE notes = false -> includes PAGE (trimmedBody notes) = false.
Proof.
  intros H. unfold trimmedBody.
  pose proof (includes_trimEnd _ _ H) as H'.
  destruct (trimEnd notes) as [|c r]; [reflexivity|].
  rewrite includes_cons, H'. reflexivity.
Qed.

(** What [saveNotes] writes, for notes that [replace] leaves as they
    are. *)
Lemma saveNotesInto_found (content : jsstring) (p : Z) (notes before body after : jsstring) :
  execSection (pageHeaderLine p) content = Some (before, body, after) ->
  hasSubstitution notes = false ->
  saveNotesInto content p notes
  = before ++ (pageHeader p ++ trimmedBody notes) ++ after.
Proof.
  intros E H. unfold saveNotesInto. rewrite E, trim_newPageContent.
  rewrite getSubstitution_plain; [reflexivity|].
  rewrite hasSubstitution_skip by apply pageHeader_plain.
  now apply trimmedBody_plain.
Qed.

Lemma saveNotesInto_absent (content : jsstring) (p : Z) (notes : jsstring) :
  execSection (pageHeaderLine p) content = None ->
  saveNotesInto content p notes
  = content ++ pageHeaderLine p ++ notes ++ [10; 10].
Proof.
  intros E. unfold saveNotesInto. rewrite E.
  unfold pageHeaderLine. now rewrite <- !app_assoc.
Qed.

(** ** part_003: saving and loading one page *)

Lemma includes_startsWith (pat s : jsstring) :
  startsWith pat s = true -> includes pat s = true.
Proof. intros H. destruct s; simpl; now rewrite H. Qed.

Lemma trimEnd_nonblank (s : jsstring) :
  allWhiteSpace s = false -> trimEnd s <> [].
Proof.
  intros H E. unfold trimEnd in E.
  apply (f_equal (@rev N)) in E. rewrite rev_involutive in E. simpl in E.
  apply trimStart_nil_white in E. rewrite allWhiteSpace_rev in E. congruence.
Qed.

Lemma trimmedBody_nonblank (notes : jsstring) :
  allWhiteSpace notes = false -> trimmedBody notes = 10 :: trimEnd notes.
Proof.
  intros H. apply trimEnd_nonblank in H. unfold trimmedBody.
  destruct (trimEnd notes); [congruence|reflexivity].
Qed.

Lemma includes_PAGE_lf (s : jsstring) :
  includes PAGE (10 :: s) = includes PAGE s.
Proof. reflexivity. Qed.

Lemma includes_PAGE_blank_lines (s : jsstring) :
  includes PAGE s = false -> includes PAGE (s ++ [10; 10]) = false.
Proof.
  apply includes_app_foreign; [discriminate|].
  intros c [<-|[<-|[]]] H; simpl in H;
    repeat (destruct H as [H|H]; [discriminate|]); exact H.
Qed.

(** Loading what was just saved. *)
Lemma loadNotesFrom_saveNotesInto (content : jsstring) (p : Z) (notes : jsstring) :
  hasSubstitution notes = false ->
  includes PAGE notes = false ->
  includes (pageHeaderLine p) content = false \/ allWhiteSpace notes = false ->
  loadNotesFrom (saveNotesInto content p notes) p = Some (trim notes).
Proof.
  intros Hd Hp Hc.
  destruct (execSection (pageHeaderLine p) content) as [[[before body] after]|] eqn:E.
  - rewrite (saveNotesInto_found _ _ _ _ _ _ E Hd).
    apply execSection_inv in E as (-> & Hb & _ & Ha); [|apply pageHeaderLine_nonempty].
    destruct Hc as [Hc|Hc].
    { exfalso. rewrite includes_app_r in Hc; [discriminate|].
      apply includes_startsWith, startsWith_app. }
    rewrite (trimmedBody_nonblank _ Hc).
    replace (before ++ (pageHeader p ++ 10 :: trimEnd notes) ++ after)
      with (before ++ pageHeaderLine p ++ trimEnd notes ++ after)
      by (unfold pageHeaderLine; now rewrite <- !app_assoc).
    unfold loadNotesFrom.
    rewrite execSection_app;
      [|apply hashShape_pageHeaderLine|exact Hb|now apply includes_trimEnd|exact Ha].
    f_equal. apply trim_trimEnd.
  - rewrite (saveNotesInto_absent _ _ _ E).
    apply execSection_None_inv in E.
    unfold loadNotesFrom.
    replace (content ++ pageHeaderLine p ++ notes ++ [10; 10])
      with (content ++ pageHeaderLine p ++ (notes ++ [10; 10]) ++ [])
      by now rewrite app_nil_r.
    rewrite execSection_app;
      [|apply hashShape_pageHeaderLine|exact E
       |now apply includes_PAGE_blank_lines|now left].
    f_equal. now apply trim_app_white.
Qed.

(** The section under the first header line ends at the next
    [## Page]; what comes after is not read. *)
Lemma loadNotesFrom_first_section (before body rest : jsstring) (p : Z) :
  includes (pageHeaderLine p) before = false ->
  includes PAGE body = false ->
  loadNotesFrom (before ++ pageHeaderLine p ++ body ++ PAGE ++ rest) p
  = Some (trim body).
Proof.
  intros Hb Hbody. unfold loadNotesFrom.
  rewrite execSection_app;
    [reflexivity|apply hashShape_pageHeaderLine|exact Hb|exact Hbody|].
  right. apply startsWith_app.
Qed.

Lemma loadNotesFrom_found_app (content y : jsstring) (q : Z)
    (before body after : jsstring) :
  execSection (pageHeaderLine q) content = Some (before, body, after) ->
  endOrPage y ->
  loadNotesFrom (content ++ y) q = Some (trim body).
Proof.
  intros E Hy. unfold loadNotesFrom.
  destruct (execSection_found_app _ _ _ _ _ _ E Hy) as [a' ->]. reflexivity.
Qed.

Lemma loadNotesFrom_skip (x y : jsstring) (q : Z) :
  startsHash y -> includes (pageHeaderLine q) x = false ->
  loadNotesFrom (x ++ y) q = loadNotesFrom y q.
Proof.
  intros Hy Hx. unfold loadNotesFrom.
  rewrite (execSection_skip _ _ _ (hashShape_pageHeaderLine q) Hy Hx).
  now destruct (execSection (pageHeaderLine q) y) as [[[? ?] ?]|].
Qed.

Lemma startsHash_pageHeader (p : Z) (s : jsstring) : startsHash (pageHeader p ++ s).
Proof. right. eexists. reflexivity. Qed.

(** Saving page [p] leaves what is loaded for another page as it was. *)
Lemma loadNotesFrom_saveNotesInto_other (content : jsstring) (p q : Z) (notes : jsstring) :
  q <> p ->
  hasSubstitution notes = false ->
  includes PAGE notes = false ->
  loadNotesFrom (saveNotesInto content p notes) q = loadNotesFrom content q.
Proof.
  intros Hqp Hd Hp.
  destruct (execSection (pageHeaderLine p) content) as [[[before body] after]|] eqn:E.
  - rewrite (saveNotesInto_found _ _ _ _ _ _ E Hd).
    apply execSection_inv in E as (-> & _ & Hbody & Ha); [|apply pageHeaderLine_nonempty].
    destruct (execSection (pageHeaderLine q) before) as [[[b1 body1] a1]|] eqn:Q.
    + rewrite <- app_assoc.
      rewrite (loadNotesFrom_found_app _ _ _ _ _ _ Q (endOrPage_pageHeader p _)).
      unfold pageHeaderLine. rewrite <- app_assoc.
      now rewrite (loadNotesFrom_found_app _ _ _ _ _ _ Q (endOrPage_pageHeader p _)).
    + apply execSection_None_inv in Q.
      transitivity (loadNotesFrom after q).
      * replace (before ++ (pageHeader p ++ trimmedBody notes) ++ after)
          with ((before ++ pageHeader p ++ trimmedBody notes) ++ after)
          by now rewrite <- !app_assoc.
        apply loadNotesFrom_skip; [now apply endOrPage_startsHash|].
        rewrite includes_app_hash;
          [|apply hashShape_pageHeaderLine|apply startsHash_pageHeader|exact Q].
        apply includes_header_other; [exact Hqp| |now apply includes_PAGE_trimmedBody].
        unfold trimmedBody. destruct (trimEnd notes); [now left|right; eauto].
      * symmetry.
        replace (before ++ pageHeaderLine p ++ body ++ after)
          with ((before ++ pageHeader p ++ 10 :: body) ++ after)
          by (unfold pageHeaderLine; now rewrite <- !app_assoc).
        apply loadNotesFrom_skip; [now apply endOrPage_startsHash|].
        rewrite includes_app_hash;
          [|apply hashShape_pageHeaderLine|apply startsHash_pageHeader|exact Q].
        apply includes_header_other; [exact Hqp|right; eauto|exact Hbody].
  - rewrite (saveNotesInto_absent _ _ _ E).
    unfold pageHeaderLine at 1. rewrite <- app_assoc.
    destruct (execSection (pageHeaderLine q) content) as [[[b1 body1] a1]|] eqn:Q.
    + rewrite (loadNotesFrom_found_app _ _ _ _ _ _ Q (endOrPage_pageHeader p _)).
      unfold loadNotesFrom. now rewrite Q.
    + unfold loadNotesFrom at 2. rewrite Q.
      apply execSection_None_inv in Q.
      rewrite loadNotesFrom_skip; [|apply startsHash_pageHeader|exact Q].
      unfold loadNotesFrom. rewrite execSection_None; [reflexivity|discriminate|].
      apply includes_header_other; [exact Hqp|right; eauto|].
      change ([10] ++ notes ++ [10; 10]) with (10 :: (notes ++ [10; 10])).
      rewrite includes_PAGE_lf. now apply includes_PAGE_blank_lines.
Qed.

(** Saving the same notes again changes nothing once the page has its
    section. *)
Lemma saveNotesInto_again (content : jsstring) (p : Z) (notes : jsstring) :
  includes (pageHeaderLine p) content = true ->
  allWhiteSpace notes = false ->
  hasSubstitution notes = false ->
  includes PAGE notes = false ->
  saveNotesInto (saveNotesInto content p notes) p notes
  = saveNotesInto content p notes.
Proof.
  intros Hc Hw Hd Hp.
  destruct (execSection (pageHeaderLine p) content) as [[[before body] after]|] eqn:E.
  - rewrite (saveNotesInto_found _ _ _ _ _ _ E Hd).
    apply execSection_inv in E as (-> & Hb & _ & Ha); [|apply pageHeaderLine_nonempty].
    apply (saveNotesInto_found _ _ _ before (trimEnd notes) after); [|exact Hd].
    rewrite (trimmedBody_nonblank _ Hw).
    replace (before ++ (pageHeader p ++ 10 :: trimEnd notes) ++ after)
      with (before ++ pageHeaderLine p ++ trimEnd notes ++ after)
      by (unfold pageHeaderLine; now rewrite <- !app_assoc).
    apply execSection_app;
      [apply hashShape_pageHeaderLine|exact Hb|now apply includes_trimEnd|exact Ha].
  - apply execSection_None_inv in E. congruence.
Qed.

(** ** main.ts: [split] read line by line *)

Lemma consPiece_prependPiece (c : N) (x : jsstring) (pieces : list jsstring) :
  consPiece c (prependPiece x pieces) = prependPiece (c :: x) pieces.
Proof. now destruct pieces. Qed.

Lemma consPiece_as_prependPiece (c : N) (pieces : list jsstring) :
  consPiece c pieces = prependPiece [c] pieces.
Proof. now destruct pieces. Qed.

Lemma prependPiece_app (x y : jsstring) (pieces : list jsstring) :
  prependPiece x (prependPiece y pieces) = prependPiece (x ++ y) pieces.
Proof. destruct pieces; simpl; now rewrite <- ?app_assoc. Qed.

Lemma linesOf_line (l : jsstring) :
  noLineTerminator l = true -> linesOf l = [l].
Proof.
  induction l as [|c l IH]; [reflexivity|]. simpl. intros H.
  apply andb_true_iff in H as [H1 H2].
  destruct (isLineTerminator c); [discriminate|]. now rewrite (IH H2).
Qed.

Lemma linesOf_first (l : jsstring) (lt : N) (rest : jsstring) :
  noLineTerminator l = true -> isLineTerminator lt = true ->
  linesOf (l ++ lt :: rest) = l :: linesOf rest.
Proof.
  intros Hl Hlt. induction l as [|c l IH]; simpl.
  - now rewrite Hlt.
  - simpl in Hl. apply andb_true_iff in Hl as [H1 H2].
    destruct (isLineTerminator c); [discriminate|]. now rewrite (IH H2).
Qed.

(** Every text is one line, or a first line, a line terminator and the
    rest. *)
Lemma first_line (s : jsstring) :
  noLineTerminator s = true
  \/ exists l lt rest, s = l ++ lt :: rest
       /\ noLineTerminator l = true /\ isLineTerminator lt = true.
Proof.
  induction s as [|c s IH]; [now left|].
  destruct (isLineTerminator c) eqn:C.
  - right. exists [], c, s. now repeat split.
  - destruct IH as [H|(l & lt & rest & -> & Hl & Hlt)].
    + left. simpl. now rewrite C, H.
    + right. exists (c :: l), lt, rest. repeat split; [|exact Hlt].
      simpl. now rewrite C, Hl.
Qed.

Lemma isDigit_not_lineTerminator (c : N) :
  isDigit c = true -> isLineTerminator c = false.
Proof.
  unfold isDigit, isLineTerminator. intros H.
  apply andb_true_iff in H as [H1 H2]. apply N.leb_le in H1, H2.
  repeat (apply orb_false_iff; split); apply N.eqb_neq; lia.
Qed.

Lemma spanDigits_digits (ds rest : jsstring) :
  forallb isDigit ds = true -> atLineEnd rest = true ->
  spanDigits (ds ++ rest) = (ds, rest).
Proof.
  intros Hd Hr. induction ds as [|d ds IH]; simpl.
  - destruct rest as [|c rest]; [reflexivity|]. simpl in *.
    destruct (isDigit c) eqn:D; [|reflexivity].
    apply isDigit_not_lineTerminator in D. congruence.
  - simpl in Hd. apply andb_true_iff in Hd as [-> Hd]. now rewrite (IH Hd).
Qed.

Lemma spanDigits_inv (s ds rest : jsstring) :
  spanDigits s = (ds, rest) ->
  s = ds ++ rest /\ forallb isDigit ds = true.
Proof.
  revert ds. induction s as [|c s IH]; intros ds H; simpl in H.
  - now injection H as <- <-.
  - destruct (isDigit c) eqn:D.
    + destruct (spanDigits s) as [ds' r']. injection H as <- <-.
      destruct (IH ds' eq_refl) as [-> Hd]. simpl. now rewrite D, Hd.
    + now injection H as <- <-.
Qed.

Lemma spanDigits_stop (ds r rest r' : jsstring) :
  r ++ rest = ds ++ r' ->
  forallb isDigit ds = true -> forallb isDigit r = false ->
  noLineTerminator r = true ->
  atLineEnd r' = false.
Proof.
  revert r. induction ds as [|e es IH]; intros r S Hd D Hl.
  - simpl in S. subst r'. destruct r as [|c r]; [discriminate|].
    simpl in *. apply andb_true_iff in Hl as [Hl _].
    now destruct (isLineTerminator c).
  - simpl in Hd. apply andb_true_iff in Hd as [He Hd].
    destruct r as [|c r]; [discriminate|].
    simpl in S. injection S as -> S.
    simpl in D, Hl. rewrite He in D.
    apply andb_true_iff in Hl as [_ Hl].
    now apply (IH r).
Qed.

(** At the head of a line, followed by its line terminator or by the
    end, the pattern matches exactly when the line is a marker line. *)
Lemma matchMarker_line (l rest : jsstring) :
  noLineTerminator l = true -> atLineEnd rest = true ->
  matchMarker (l ++ rest) = markerDigits l.
Proof.
  intros Hl Hr. unfold matchMarker, markerDigits.
  destruct (stripPrefix PAGE_SP l) as [r|] eqn:E.
  - apply stripPrefix_Some in E. subst l.
    rewrite <- app_assoc, stripPrefix_app.
    unfold noLineTerminator in Hl. rewrite forallb_app in Hl.
    apply andb_true_iff in Hl as [_ Hl].
    destruct (forallb isDigit r) eqn:D.
    + rewrite (spanDigits_digits _ _ D Hr).
      destruct r; [reflexivity|]. now rewrite Hr, D.
    + assert (R : match r with
                  | [] => None
                  | d :: ds => if forallb isDigit (d :: ds) then Some (d :: ds) else None
                  end = @None jsstring).
      { destruct r; [reflexivity|]. now rewrite D. }
      rewrite R.
      destruct (spanDigits (r ++ rest)) as [ds r'] eqn:S.
      apply spanDigits_inv in S as [S Hd].
      destruct ds as [|d ds]; [reflexivity|].
      now rewrite (spanDigits_stop _ _ _ _ S Hd D Hl).
  - destruct (stripPrefix PAGE_SP (l ++ rest)) as [r|] eqn:E'; [|reflexivity].
    exfalso.
    assert (S : startsWith PAGE_SP (l ++ rest) = true)
      by (unfold startsWith; now rewrite E').
    assert (L : (length PAGE_SP <= length l)%nat).
    { destruct rest as [|c rest].
      - rewrite app_nil_r in S. now apply startsWith_length.
      - apply (startsWith_stop _ _ c rest); [|exact S].
        simpl in Hr. intros H. simpl in H.
        repeat (destruct H as [<-|H]; [discriminate|]). exact H. }
    rewrite (startsWith_app_long _ _ _ L) in S.
    unfold startsWith in S. now rewrite E in S.
Qed.

Lemma markerDigits_Some (l ds : jsstring) :
  markerDigits l = Some ds ->
  l = PAGE_SP ++ ds /\ ds <> [] /\ forallb isDigit ds = true.
Proof.
  unfold markerDigits.
  destruct (stripPrefix PAGE_SP l) as [[|d r]|] eqn:E; try discriminate.
  destruct (forallb isDigit (d :: r)) eqn:D; [|discriminate].
  intros H. injection H as <-. apply stripPrefix_Some in E.
  now repeat split.
Qed.

Lemma splitPieces_skip (u rest : jsstring) (bol : bool) :
  u <> [] ->
  splitPieces (length u) bol (u ++ rest) = splitPieces 0 false rest.
Proof.
  revert bol. induction u as [|c u IH]; intros bol H; [congruence|].
  simpl. destruct u as [|d u]; [now destruct rest|].
  apply IH. discriminate.
Qed.

Lemma splitPieces_lineTerminator (lt : N) (rest : jsstring) (bol : bool) :
  isLineTerminator lt = true ->
  splitPieces 0 bol (lt :: rest) = consPiece lt (splitPieces 0 true rest).
Proof.
  intros H. cbn [splitPieces].
  replace (if bol then matchMarker (lt :: rest) else None) with (@None jsstring).
  - now rewrite H.
  - destruct bol; [|reflexivity].
    unfold matchMarker. cbn [stripPrefix PAGE_SP].
    destruct (N.eqb_spec 35 lt) as [<-|]; [discriminate|reflexivity].
Qed.

(** Away from the start of a line nothing matches before the next
    line. *)
Lemma splitPieces_rest_of_line (l : jsstring) (lt : N) (rest : jsstring) :
  noLineTerminator l = true -> isLineTerminator lt = true ->
  splitPieces 0 false (l ++ lt :: rest)
  = prependPiece (l ++ [lt]) (splitPieces 0 true rest).
Proof.
  intros Hl Hlt. induction l as [|c l IH].
  - simpl app. rewrite splitPieces_lineTerminator by exact Hlt.
    apply consPiece_as_prependPiece.
  - simpl in Hl. apply andb_true_iff in Hl as [H1 H2].
    change ((c :: l) ++ lt :: rest) with (c :: (l ++ lt :: rest)).
    cbn [splitPieces].
    destruct (isLineTerminator c); [discriminate|].
    rewrite (IH H2). apply consPiece_prependPiece.
Qed.

Lemma splitPieces_rest_of_last_line (l : jsstring) :
  noLineTerminator l = true -> splitPieces 0 false l = [l].
Proof.
  induction l as [|c l IH]; [reflexivity|]. intros Hl.
  simpl in Hl. apply andb_true_iff in Hl as [H1 H2].
  cbn [splitPieces]. destruct (isLineTerminator c); [discriminate|].
  now rewrite (IH H2).
Qed.

Lemma splitPieces_marker (ds rest : jsstring) :
  matchMarker (PAGE_SP ++ ds ++ rest) = Some ds ->
  splitPieces 0 true (PAGE_SP ++ ds ++ rest)
  = [] :: ds :: splitPieces 0 false rest.
Proof.
  intros H.
  change (PAGE_SP ++ ds ++ rest) with (35 :: (skipn 1 PAGE_SP ++ ds ++ rest)) in *.
  cbn [splitPieces]. rewrite H. do 2 f_equal.
  rewrite app_assoc.
  replace (length PAGE_SP + length ds - 1)%nat
    with (length (skipn 1 PAGE_SP ++ ds))
    by (rewrite length_app; simpl; lia).
  apply splitPieces_skip. discriminate.
Qed.

(** One line and its terminator: a marker line gives a capture, any
    other line joins the piece. *)
Lemma splitPieces_line (l : jsstring) (lt : N) (rest : jsstring) :
  noLineTerminator l = true -> isLineTerminator lt = true ->
  splitPieces 0 true (l ++ lt :: rest)
  = match markerDigits l with
    | Some ds => [] :: ds :: consPiece lt (splitPieces 0 true rest)
    | None => prependPiece (l ++ [lt]) (splitPieces 0 true rest)
    end.
Proof.
  intros Hl Hlt.
  pose proof (matchMarker_line l (lt :: rest) Hl Hlt) as M.
  destruct (markerDigits l) as [ds|] eqn:D.
  - apply markerDigits_Some in D as (-> & _ & _).
    rewrite <- app_assoc in *. rewrite (splitPieces_marker _ _ M).
    now rewrite splitPieces_lineTerminator.
  - destruct l as [|c l].
    + simpl app. rewrite splitPieces_lineTerminator by exact Hlt.
      apply consPiece_as_prependPiece.
    + change ((c :: l) ++ lt :: rest) with (c :: (l ++ lt :: rest)) in *.
      cbn [splitPieces]. rewrite M.
      simpl in Hl. apply andb_true_iff in Hl as [H1 H2].
      destruct (isLineTerminator c); [discriminate|].
      rewrite (splitPieces_rest_of_line _ _ _ H2 Hlt).
      apply consPiece_prependPiece.
Qed.

Lemma splitPieces_last_line (l : jsstring) :
  noLineTerminator l = true ->
  splitPieces 0 true l
  = match markerDigits l with
    | Some ds => [[]; ds; []]
    | None => [l]
    end.
Proof.
  intros Hl.
  pose proof (matchMarker_line l [] Hl eq_refl) as M. rewrite app_nil_r in M.
  destruct (markerDigits l) as [ds|] eqn:D.
  - apply markerDigits_Some in D as (-> & _ & _).
    pose proof (splitPieces_marker ds []) as S.
    rewrite app_nil_r in S. now rewrite (S M).
  - destruct l as [|c l]; [reflexivity|].
    cbn [splitPieces]. rewrite M.
    simpl in Hl. apply andb_true_iff in Hl as [H1 H2].
    destruct (isLineTerminator c); [discriminate|].
    now rewrite (splitPieces_rest_of_last_line _ H2).
Qed.

Lemma captures_prependPiece (x : jsstring) (pieces : list jsstring) :
  captures (prependPiece x pieces) = captures pieces.
Proof. now destruct pieces as [|? [|? ?]]. Qed.

Lemma captures_consPiece (c : N) (pieces : list jsstring) :
  captures (consPiece c pieces) = captures pieces.
Proof. now destruct pieces as [|? [|? ?]]. Qed.

(** The numbers [split] captures are those of the marker lines, in
    order. *)
Lemma captures_split_lines (content : jsstring) :
  captures (split content) = omap markerDigits (linesOf content).
Proof.
  unfold split.
  remember (length content) as n eqn:Hn.
  assert (L : (length content <= n)%nat) by lia. clear Hn.
  revert content L. induction n as [|n IH]; intros content L.
  - destruct content; [reflexivity|simpl in L; lia].
  - destruct (first_line content) as [H|(l & lt & rest & -> & Hl & Hlt)].
    + rewrite (splitPieces_last_line _ H), (linesOf_line _ H). simpl.
      now destruct (markerDigits content).
    + rewrite (splitPieces_line _ _ _ Hl Hlt), (linesOf_first _ _ _ Hl Hlt).
      assert (L' : (length rest <= n)%nat).
      { rewrite length_app in L. simpl in L. lia. }
      simpl. destruct (markerDigits l).
      * simpl. now rewrite captures_consPiece, (IH _ L').
      * now rewrite captures_prependPiece, (IH _ L').
Qed.

(** ** main.ts: the document [saveAllNotesToFile] writes, read back *)

Lemma markerFree_line (l : jsstring) :
  noLineTerminator l = true -> markerFree l = true -> markerDigits l = None.
Proof.
  intros Hl. unfold markerFree. rewrite (linesOf_line _ Hl). simpl.
  now destruct (markerDigits l).
Qed.

Lemma markerFree_first (l : jsstring) (lt : N) (rest : jsstring) :
  noLineTerminator l = true -> isLineTerminator lt = true ->
  markerFree (l ++ lt :: rest) = true ->
  markerDigits l = None /\ markerFree rest = true.
Proof.
  intros Hl Hlt. unfold markerFree. rewrite (linesOf_first _ _ _ Hl Hlt). simpl.
  destruct (markerDigits l); [discriminate|]. now split.
Qed.

(** Text without marker lines, up to the end of its last line, joins the
    piece. *)
Lemma splitPieces_text (t : jsstring) (lt : N) (rest : jsstring) :
  markerFree t = true -> isLineTerminator lt = true ->
  splitPieces 0 true (t ++ lt :: rest)
  = prependPiece (t ++ [lt]) (splitPieces 0 true rest).
Proof.
  intros Ht Hlt.
  remember (length t) as n eqn:Hn.
  assert (L : (length t <= n)%nat) by lia. clear Hn.
  revert t Ht L. induction n as [|n IH]; intros t Ht L.
  - destruct t; [|simpl in L; lia].
    simpl app. rewrite splitPieces_lineTerminator by exact Hlt.
    apply consPiece_as_prependPiece.
  - destruct (first_line t) as [H|(l & lt' & t' & -> & Hl & Hlt')].
    + now rewrite (splitPieces_line _ _ _ H Hlt), (markerFree_line _ H Ht).
    + apply markerFree_first in Ht as [D Ht']; [|exact Hl|exact Hlt'].
      rewrite <- app_assoc. simpl app.
      rewrite (splitPieces_line _ _ _ Hl Hlt'), D.
      rewrite IH; [|exact Ht'|rewrite length_app in L; simpl in L; lia].
      rewrite prependPiece_app. f_equal.
      now rewrite <- !app_assoc.
Qed.

Lemma linesOf_nonempty (t : jsstring) : linesOf t <> [].
Proof.
  destruct t as [|c t]; simpl; [discriminate|].
  destruct (isLineTerminator c); [discriminate|].
  now destruct (linesOf t).
Qed.

Lemma linesOf_snoc (t : jsstring) (lt : N) :
  isLineTerminator lt = true -> linesOf (t ++ [lt]) = linesOf t ++ [[]].
Proof.
  intros Hlt. induction t as [|c t IH]; simpl.
  - now rewrite Hlt.
  - rewrite IH. destruct (isLineTerminator c); [reflexivity|].
    pose proof (linesOf_nonempty t). now destruct (linesOf t).
Qed.

Lemma markerFree_snoc (t : jsstring) (lt : N) :
  isLineTerminator lt = true -> markerFree (t ++ [lt]) = markerFree t.
Proof.
  intros Hlt. unfold markerFree.
  rewrite (linesOf_snoc _ _ Hlt), forallb_app. simpl. apply andb_true_r.
Qed.

Lemma markerFree_lf (t : jsstring) : markerFree (10 :: t) = markerFree t.
Proof. reflexivity. Qed.

Lemma numberToString_digits (k : Z) :
  (0 <= k)%Z -> forallb isDigit (numberToString k) = true.
Proof.
  intros H. unfold numberToString. destruct (Z.ltb_spec k 0); [lia|].
  apply forallb_forall. apply List.Forall_forall. apply digitsOf_digits.
Qed.

Lemma markerDigits_pageHeader (k : Z) :
  (0 <= k)%Z -> markerDigits (PAGE_SP ++ numberToString k) = Some (numberToString k).
Proof.
  intros H. unfold markerDigits. rewrite stripPrefix_app.
  pose proof (numberToString_nonempty k) as Hne.
  pose proof (numberToString_digits k H) as D.
  destruct (numberToString k) as [|d ds]; [congruence|].
  now rewrite D.
Qed.

Lemma noLineTerminator_pageHeader (k : Z) :
  (0 <= k)%Z -> noLineTerminator (PAGE_SP ++ numberToString k) = true.
Proof.
  intros H. unfold noLineTerminator. rewrite forallb_app.
  apply andb_true_iff. split; [reflexivity|].
  pose proof (numberToString_digits k H) as D.
  induction (numberToString k) as [|d ds IH]; [reflexivity|].
  simpl in *. apply andb_true_iff in D as [D1 D2].
  now rewrite (isDigit_not_lineTerminator _ D1), (IH D2).
Qed.

Lemma pageBlock_eq (m : gmap Z jsstring) (k : Z) :
  pageBlock m k
  = (PAGE_SP ++ numberToString k) ++ 10 :: (10 :: writtenText m k ++ [10]) ++ [10].
Proof.
  unfold pageBlock, writtenText.
  change (js "## Page ") with PAGE_SP. change (js "\n\n") with [10; 10].
  change (js "_No notes for this page_\n\n") with (NO_NOTES ++ [10; 10]).
  rewrite <- !app_assoc. f_equal. f_equal. simpl.
  destruct (m !! k) as [[|c b]|]; simpl; now rewrite <- ?app_assoc.
Qed.

(** The pieces of one block: its number, then its text between blank
    lines. *)
Lemma splitPieces_pageBlock (m : gmap Z jsstring) (k : Z) (rest : jsstring) :
  (0 <= k)%Z -> markerFree (writtenText m k) = true ->
  splitPieces 0 true (pageBlock m k ++ rest)
  = [] :: numberToString k
       :: prependPiece (10 :: 10 :: writtenText m k ++ [10; 10])
            (splitPieces 0 true rest).
Proof.
  intros Hk Hm. rewrite pageBlock_eq.
  replace (((PAGE_SP ++ numberToString k)
            ++ 10 :: (10 :: writtenText m k ++ [10]) ++ [10]) ++ rest)
    with ((PAGE_SP ++ numberToString k)
          ++ 10 :: ((10 :: writtenText m k ++ [10]) ++ 10 :: rest))
    by (repeat (rewrite <- ?app_assoc; simpl); reflexivity).
  rewrite (splitPieces_line _ 10 _ (noLineTerminator_pageHeader k Hk) eq_refl).
  rewrite (markerDigits_pageHeader k Hk).
  rewrite splitPieces_text; [|now rewrite markerFree_lf, markerFree_snoc|reflexivity].
  rewrite consPiece_prependPiece. do 3 f_equal.
  simpl. now rewrite <- app_assoc.
Qed.

Lemma splitPieces_pageBlocks (m : gmap Z jsstring) (ks : list Z) :
  Forall (fun k => (0 <= k)%Z /\ markerFree (writtenText m k) = true) ks ->
  splitPieces 0 true (concat (map (pageBlock m) ks))
  = [] :: flat_map (blockPieces m) ks.
Proof.
  induction 1 as [|k ks [Hk Hm] _ IH]; [reflexivity|].
  cbn [map concat flat_map]. rewrite (splitPieces_pageBlock _ _ _ Hk Hm), IH.
  simpl. now rewrite app_nil_r.
Qed.

Lemma tail_split_document (heading : jsstring) (m : gmap Z jsstring) (ks : list Z) :
  markerFree heading = true ->
  (exists t lt, heading = t ++ [lt] /\ isLineTerminator lt = true) ->
  Forall (fun k => (0 <= k)%Z /\ markerFree (writtenText m k) = true) ks ->
  tail (split (heading ++ concat (map (pageBlock m) ks)))
  = flat_map (blockPieces m) ks.
Proof.
  intros Hh (t & lt & -> & Hlt) Hks. unfold split.
  rewrite (markerFree_snoc _ _ Hlt) in Hh.
  rewrite <- app_assoc. simpl app.
  rewrite (splitPieces_text _ _ _ Hh Hlt), (splitPieces_pageBlocks _ _ Hks).
  reflexivity.
Qed.

Lemma parseSections_fold (pageHeaders : list jsstring) (m : gmap Z jsstring) :
  parseSections pageHeaders m = fold_left storeSection (sectionsOf pageHeaders) m.
Proof.
  remember (length pageHeaders) as n eqn:Hn.
  assert (L : (length pageHeaders <= n)%nat) by lia. clear Hn.
  revert pageHeaders m L. induction n as [|n IH]; intros l m L.
  - destruct l; [reflexivity|simpl in L; lia].
  - destruct l as [|number [|text rest]]; [reflexivity|reflexivity|].
    cbn [parseSections sectionsOf fold_left].
    rewrite IH by (simpl in L; lia). reflexivity.
Qed.

Lemma sectionsOf_blocks (m : gmap Z jsstring) (ks : list Z) :
  Forall (fun k => (0 <= k)%Z) ks ->
  sectionsOf (flat_map (blockPieces m) ks)
  = map (fun k => (k, trim (writtenText m k))) ks.
Proof.
  induction 1 as [|k ks Hk _ IH]; [reflexivity|].
  cbn [flat_map blockPieces app sectionsOf map]. rewrite IH. f_equal. f_equal.
  - now apply parseInt_numberToString.
  - change (10 :: 10 :: writtenText m k ++ [10; 10])
      with ([10; 10] ++ writtenText m k ++ [10; 10]).
    now rewrite trim_white_app, trim_app_white.
Qed.

Lemma fold_storeSection_lookup (m : gmap Z jsstring) (ks : list Z)
    (m0 : gmap Z jsstring) (p : Z) :
  NoDup ks ->
  fold_left storeSection (map (fun k => (k, trim (writtenText m k))) ks) m0 !! p
  = if decide (p ∈ ks)
    then match reloaded (writtenText m p) with
         | Some text => Some text
         | None => m0 !! p
         end
    else m0 !! p.
Proof.
  intros Hnd. revert m0. induction Hnd as [|k ks Hk Hnd IH]; intros m0.
  - simpl. destruct (decide (p ∈ [])) as [H|H]; [|reflexivity].
    now apply elem_of_nil in H.
  - cbn [map fold_left]. rewrite IH.
    unfold storeSection. cbn [fst snd]. unfold reloaded.
    destruct (decide (p = k)) as [->|Hpk].
    + destruct (decide (k ∈ ks)) as [?|_]; [contradiction|].
      destruct (decide (k ∈ k :: ks)) as [_|H]; [|exfalso; apply H; left].
      destruct (decide (trim (writtenText m k) = NO_NOTES)); [reflexivity|].
      apply lookup_insert_eq.
    + assert (E : m0 !! p =
                 (if decide (trim (writtenText m k) = NO_NOTES) then m0
                  else <[k := trim (writtenText m k)]> m0) !! p).
      { destruct (decide (trim (writtenText m k) = NO_NOTES)); [reflexivity|].
        now rewrite lookup_insert_ne. }
      rewrite <- !E.
      destruct (decide (p ∈ ks)) as [H|H].
      * destruct (decide (p ∈ k :: ks)) as [_|H']; [reflexivity|].
        exfalso. apply H'. now right.
      * destruct (decide (p ∈ k :: ks)) as [H'|_]; [|reflexivity].
        apply elem_of_cons in H' as [?|?]; contradiction.
Qed.

(** Reading back what [saveAllNotesToFile] wrote: page [p] holds the
    trimmed text written for it, unless that is the placeholder. *)
Lemma parseExistingNotes_fullContent (v : PDFNotesView) (p : Z) :
  markerFreeNotes v = true ->
  (1 <= p <= numPagesOr0 v)%Z ->
  parseExistingNotes (fullContent v) !! p
  = reloaded (writtenText (pageNotes v) p).
Proof.
  unfold markerFreeNotes. intros H Hp.
  apply andb_true_iff in H as [Hh Hm].
  assert (Hks : Forall (fun k => (0 <= k)%Z
                          /\ markerFree (writtenText (pageNotes v) k) = true)
                  (seqZ 1 (numPagesOr0 v))).
  { apply List.Forall_forall. intros k Hk. split.
    - apply (proj2 (list_elem_of_In _ _)), elem_of_seqZ in Hk. lia.
    - exact (proj1 (forallb_forall _ _) Hm k Hk). }
  unfold parseExistingNotes, fullContent, pageBlocks.
  rewrite tail_split_document; [|exact Hh| |exact Hks].
  - rewrite parseSections_fold, sectionsOf_blocks.
    + rewrite fold_storeSection_lookup by apply NoDup_seqZ.
      destruct (decide (p ∈ seqZ 1 (numPagesOr0 v))) as [_|H].
      * rewrite lookup_empty. now destruct (reloaded _).
      * exfalso. apply H. apply elem_of_seqZ. lia.
    + eapply Forall_impl; [exact Hks|]. now intros k [? _].
  - unfold notesHeading.
    exists (js "# " ++ pdfNameOf v ++ js " - Notes\n\n" ++ js "**PDF:** [["
              ++ pdfFileNameOf v ++ js "]]\n" ++ js "**Total Pages:** "
              ++ numberToString (numPagesOr0 v) ++ [10]), 10.
    split; [|reflexivity].
    rewrite <- !app_assoc. reflexivity.
Qed.

(** ** main.ts: which section wins *)

Lemma fold_storeSection_last (sections : list (Z * jsstring))
    (m : gmap Z jsstring) (p : Z) :
  fold_left storeSection sections m !! p
  = match last (List.filter (keptFor p) sections) with
    | Some section => Some (snd section)
    | None => m !! p
    end.
Proof.
  revert m. induction sections as [|s sections IH]; intros m; [reflexivity|].
  cbn [fold_left List.filter]. rewrite IH.
  unfold keptFor at 2, storeSection.
  destruct (decide (snd s = NO_NOTES)) as [E|E].
  - rewrite (bool_decide_eq_true_2 _ E), andb_false_r. reflexivity.
  - rewrite (bool_decide_eq_false_2 _ E), andb_true_r.
    destruct (decide (fst s = p)) as [F|F].
    + rewrite (bool_decide_eq_true_2 _ F).
      destruct (List.filter (keptFor p) sections) as [|s' l] eqn:L.
      * simpl. rewrite <- F. apply lookup_insert_eq.
      * rewrite last_cons_cons.
        destruct (last (s' :: l)) eqn:X; [reflexivity|].
        apply last_None in X. discriminate.
    + rewrite (bool_decide_eq_false_2 _ F).
      destruct (last (List.filter (keptFor p) sections)); [reflexivity|].
      now apply lookup_insert_ne.
Qed.

(** ** The debounced save *)

Lemma last_any (d : jsstring) (x : jsstring) (l : list jsstring) (a b : jsstring) :
  List.last (d :: x :: l) a = List.last (x :: l) b.
Proof.
  change (List.last (d :: x :: l) a) with (List.last (x :: l) a).
  revert x. induction l as [|y l IH]; intros x; [reflexivity|].
  change (List.last (y :: l) a = List.last (y :: l) b). apply IH.
Qed.

Section DebounceFacts.
Context {View : Type}.
Variable listener : jsstring -> View -> option View.
Variable callback : View -> View * option (TFile * jsstring).
Variable closing : View -> View * option (TFile * jsstring).

(** A view that is ready listens to edits; an edit leaves it ready
    and makes the edit before it forgotten; the callback, run on an
    edited view, leaves it as it is and writes its content to
    [file]. *)
Variable ready : View -> Prop.
Variable edit : jsstring -> View -> View.
Variable file : TFile.
Variable content : View -> jsstring.
Hypothesis listener_ready :
  forall doc v, ready v -> listener doc v = Some (edit doc v).
Hypothesis ready_edit : forall doc v, ready v -> ready (edit doc v).
Hypothesis edit_edit : forall d1 d2 v, edit d2 (edit d1 v) = edit d2 v.
Hypothesis callback_edit :
  forall doc v, ready v ->
    callback (edit doc v) = (edit doc v, Some (file, content (edit doc v))).

(** A timer armed less than the debounce interval ago does not run. *)
Lemma elapse_pending (ms : N) (r : Run View) :
  timeout r = Some (clock r + DEBOUNCE_MS) -> ms < DEBOUNCE_MS ->
  elapse callback ms r
  = {| view := view r; clock := clock r + ms; timeout := timeout r;
       modified := modified r |}.
Proof.
  intros T L. unfold elapse. rewrite T.
  destruct (N.leb_spec (clock r + DEBOUNCE_MS) (clock r + ms)); [lia|].
  now rewrite T.
Qed.

Lemma elapse_idle (ms : N) (r : Run View) :
  timeout r = None ->
  elapse callback ms r
  = {| view := view r; clock := clock r + ms; timeout := None;
       modified := modified r |}.
Proof. intros T. unfold elapse. rewrite T. cbv zeta. now rewrite T. Qed.

Lemma docChanged_ready (doc : jsstring) (r : Run View) :
  ready (view r) ->
  docChanged listener doc r
  = {| view := edit doc (view r); clock := clock r;
       timeout := Some (clock r + DEBOUNCE_MS); modified := modified r |}.
Proof. intros H. unfold docChanged. now rewrite (listener_ready _ _ H). Qed.

(** A burst of edits on an armed timer: nothing is written, the timer
    is armed anew at the last edit. *)
Lemma runEvents_burst (edits : list (N * jsstring)) (doc : jsstring) (r : Run View) :
  ready (view r) ->
  timeout r = Some (clock r + DEBOUNCE_MS) ->
  Forall (fun e => fst e < DEBOUNCE_MS) edits ->
  runEvents listener callback closing (editEvents edits) r
  = {| view := match edits with
               | [] => view r
               | _ => edit (lastDoc doc edits) (view r)
               end;
       clock := clock r + totalDelay edits;
       timeout := Some (clock r + totalDelay edits + DEBOUNCE_MS);
       modified := modified r |}.
Proof.
  intros He Ht Hl. revert doc r He Ht.
  induction Hl as [|[ms d] edits Hms _ IH]; intros doc r He Ht.
  - simpl. rewrite N.add_0_r, <- Ht. now destruct r.
  - cbn [editEvents map runEvents fst snd handle]. cbn [fst] in Hms.
    rewrite (elapse_pending _ _ Ht Hms).
    rewrite docChanged_ready by exact He.
    cbn [view clock modified].
    fold (editEvents edits).
    rewrite (IH d); [|now apply ready_edit|reflexivity].
    cbn [view clock modified].
    change (totalDelay ((ms, d) :: edits)) with (ms + totalDelay edits).
    f_equal; [|lia|f_equal; lia].
    unfold lastDoc. cbn [map snd].
    destruct edits as [|e edits]; [reflexivity|].
    rewrite edit_edit. cbn [map].
    apply f_equal2; [|reflexivity]. symmetry. apply last_any.
Qed.

(** From a ready view with no timer pending: a burst writes nothing;
    one interval after its last edit one write has been made, of the
    content after that edit, and no timer is pending. *)
Lemma burst_then_one_write (r : Run View) (ms : N) (doc : jsstring)
    (edits : list (N * jsstring)) (wait : N) :
  timeout r = None ->
  ready (view r) ->
  forallb (fun e => fst e <? DEBOUNCE_MS) edits = true ->
  DEBOUNCE_MS <= wait ->
  modified (runEvents listener callback closing
              (editEvents ((ms, doc) :: edits)) r) = modified r
  /\ modified (elapse callback wait
                 (runEvents listener callback closing
                    (editEvents ((ms, doc) :: edits)) r))
     = modified r
       ++ [(clock r + ms + totalDelay edits + DEBOUNCE_MS, file,
            content (edit (lastDoc doc edits) (view r)))]
  /\ timeout (elapse callback wait
                (runEvents listener callback closing
                   (editEvents ((ms, doc) :: edits)) r)) = None.
Proof.
  intros Ht He Hl Hw.
  assert (Hl' : Forall (fun e => fst e < DEBOUNCE_MS) edits).
  { apply List.Forall_forall. intros e Hin. apply N.ltb_lt.
    exact (proj1 (forallb_forall _ _) Hl e Hin). }
  cbn [editEvents map runEvents fst snd handle].
  rewrite (elapse_idle _ _ Ht).
  rewrite docChanged_ready by exact He.
  cbn [view clock modified].
  fold (editEvents edits).
  rewrite (runEvents_burst edits doc);
    [|now apply ready_edit|reflexivity|exact Hl'].
  cbn [view clock modified].
  split; [reflexivity|].
  unfold elapse. cbn [timeout clock view modified].
  destruct (N.leb_spec (clock r + ms + totalDelay edits + DEBOUNCE_MS)
              (clock r + ms + totalDelay edits + wait)) as [_|C]; [|lia].
  assert (V : match edits with
              | [] => edit doc (view r)
              | _ :: _ => edit (lastDoc doc edits) (edit doc (view r))
              end = edit (lastDoc doc edits) (view r)).
  { destruct edits; [reflexivity|apply edit_edit]. }
  rewrite V. unfold fireTimeout. cbn [view modified].
  rewrite (callback_edit _ _ He).
  split; reflexivity.
Qed.

(** An edit, then the close before the timer runs: what the close
    writes, on the view as the edit left it. *)
Lemma edit_then_close (r : Run View) (ms0 ms : N) (doc : jsstring) :
  timeout r = None ->
  ready (view r) ->
  ms < DEBOUNCE_MS ->
  modified (runEvents listener callback closing
              [(ms0, DocChanged doc); (ms, Close)] r)
  = logModify (clock r + ms0 + ms) (snd (closing (edit doc (view r))))
      (modified r).
Proof.
  intros Ht He Hms.
  cbn [runEvents handle]. rewrite (elapse_idle _ _ Ht).
  rewrite docChanged_ready by exact He.
  rewrite elapse_pending; [|reflexivity|exact Hms].
  unfold onClose. cbn [view clock modified timeout].
  now destruct (closing (edit doc (view r))).
Qed.

(** The close leaves the timer as it was. *)
Lemma onClose_keeps_timeout (r : Run View) :
  timeout (onClose closing r) = timeout r.
Proof. unfold onClose. now destruct (closing (view r)). Qed.
End DebounceFacts.

(** *** main.ts *)

Lemma editView_editView (d1 d2 : jsstring) (v : PDFNotesView) :
  editView d2 (editView d1 v) = editView d2 v.
Proof. unfold editView. simpl. now rewrite insert_insert_eq. Qed.

Lemma saveCurrentPageNotes_editView (doc : jsstring) (v : PDFNotesView) :
  saveCurrentPageNotes (editView doc v) = editView doc v.
Proof.
  unfold saveCurrentPageNotes, setPageNotes, editView. simpl.
  now rewrite insert_insert_eq.
Qed.

Lemma updateListener_ready (file : TFile) (doc : jsstring) (v : PDFNotesView) :
  readyView file v -> updateListener doc v = Some (editView doc v).
Proof. intros [[d E] _]. unfold updateListener. now rewrite E. Qed.

Lemma readyView_editView (file : TFile) (doc : jsstring) (v : PDFNotesView) :
  readyView file v -> readyView file (editView doc v).
Proof. intros [_ F]. split; [now exists doc|exact F]. Qed.

Lemma saveAllNotesToFile_editView (file : TFile) (doc : jsstring) (v : PDFNotesView) :
  readyView file v ->
  saveAllNotesToFile (editView doc v)
  = (editView doc v, Some (file, fullContent (editView doc v))).
Proof.
  intros [_ F]. unfold saveAllNotesToFile.
  change (currentNotesFile (editView doc v)) with (currentNotesFile v).
  now rewrite F, saveCurrentPageNotes_editView.
Qed.

Lemma closeView_editView (file : TFile) (doc : jsstring) (v : PDFNotesView) :
  readyView file v ->
  snd (closeView (editView doc v))
  = if autoSaveOnClose v then Some (file, fullContent (editView doc v)) else None.
Proof.
  intros H. unfold closeView.
  change (autoSaveOnClose (editView doc v)) with (autoSaveOnClose v).
  change (currentNotesFile (editView doc v)) with (currentNotesFile v).
  destruct H as [He F]. rewrite F.
  destruct (autoSaveOnClose v); [|reflexivity].
  rewrite saveCurrentPageNotes_editView.
  now rewrite (saveAllNotesToFile_editView file doc v (conj He F)).
Qed.

(** *** part_002 *)

Lemma saveTextarea_edit (file : TFile) (value : jsstring) (v : TextareaView) :
  readyTextarea file v ->
  saveTextarea (editTextarea value v)
  = (editTextarea value v, Some (file, textareaValue (editTextarea value v))).
Proof. intros F. unfold saveTextarea. cbn [editTextarea areaNotesFile]. now rewrite F. Qed.

Lemma safeNotes_inv (notes : jsstring) :
  safeNotes notes = true ->
  hasSubstitution notes = false /\ includes PAGE notes = false.
Proof.
  unfold safeNotes. intros H. apply andb_true_iff in H as [H1 H2].
  apply negb_true_iff in H1, H2. now split.
Qed.

Lemma plainNotes_inv (notes : jsstring) :
  plainNotes notes = true ->
  allWhiteSpace notes = false
  /\ hasSubstitution notes = false
  /\ includes PAGE notes = false.
Proof.
  unfold plainNotes. intros H. apply andb_true_iff in H as [H1 H2].
  apply negb_true_iff in H1. apply safeNotes_inv in H2. tauto.
Qed.

(** Loading from a document built by [saveNotes] calls: the notes saved
    last for the page, or what the first content held for it. *)
Lemma loadNotesFrom_saveAll (content : jsstring) (calls : list (Z * jsstring)) (p : Z) :
  forallb (fun call => safeNotes (snd call)) calls = true ->
  match lastSaved p calls with
  | Some notes =>
      allWhiteSpace notes = false ->
      loadNotesFrom (saveAll content calls) p = Some (trim notes)
  | None => loadNotesFrom (saveAll content calls) p = loadNotesFrom content p
  end.
Proof.
  induction calls as [|[q notes] calls IH] using rev_ind; intros H; [reflexivity|].
  rewrite forallb_app in H. apply andb_true_iff in H as [H1 H2].
  simpl in H2. rewrite andb_true_r in H2.
  apply safeNotes_inv in H2 as (Hd & Hp).
  unfold saveAll, lastSaved. rewrite !fold_left_app. cbn [fold_left fst snd].
  fold (saveAll content calls). fold (lastSaved p calls).
  destruct (decide (q = p)) as [->|Hq].
  - intros Hw. apply loadNotesFrom_saveNotesInto; [exact Hd|exact Hp|now right].
  - specialize (IH H1).
    destruct (lastSaved p calls) as [n|].
    + intros Hw.
      rewrite loadNotesFrom_saveNotesInto_other; [|congruence|exact Hd|exact Hp].
      now apply IH.
    + rewrite loadNotesFrom_saveNotesInto_other; [|congruence|exact Hd|exact Hp].
      exact IH.
Qed.

Lemma writtenText_nonempty (m : gmap Z jsstring) (p : Z) (c : N) (notes : jsstring) :
  m !! p = Some (c :: notes) -> writtenText m p = c :: notes.
Proof. unfold writtenText. now intros ->. Qed.

Lemma writtenText_placeholder (m : gmap Z jsstring) (p : Z) :
  m !! p = None \/ m !! p = Some [] \/ m !! p = Some NO_NOTES ->
  writtenText m p = NO_NOTES.
Proof. unfold writtenText. now intros [->|[->| ->]]. Qed.

Lemma pageBlock_placeholder (m : gmap Z jsstring) (p : Z) :
  m !! p = None \/ m !! p = Some [] \/ m !! p = Some NO_NOTES ->
  pageBlock m p
  = js "## Page " ++ numberToString p ++ js "\n\n_No notes for this page_\n\n".
Proof.
  intros H. unfold pageBlock. do 2 f_equal.
  destruct H as [->|[->| ->]]; reflexivity.
Qed.

Lemma pageBlocks_delete_placeholder (m : gmap Z jsstring) (p n : Z) :
  m !! p = Some NO_NOTES -> pageBlocks m n = pageBlocks (delete p m) n.
Proof.
  intros H. unfold pageBlocks. f_equal. apply map_ext. intros k.
  destruct (decide (k = p)) as [->|Hk].
  - rewrite !pageBlock_placeholder; [reflexivity| |]; [left|right; now right].
    apply lookup_delete_eq.
  - unfold pageBlock. now rewrite lookup_delete_ne.
Qed.

Lemma markerFreeNotes_same_heading (v v' : PDFNotesView) :
  currentPdf v' = currentPdf v -> currentPdfFile v' = currentPdfFile v ->
  notesHeading (pdfNameOf v') (pdfFileNameOf v') (numPagesOr0 v')
  = notesHeading (pdfNameOf v) (pdfFileNameOf v) (numPagesOr0 v).
Proof.
  intros H1 H2. unfold pdfNameOf, pdfFileNameOf, numPagesOr0. now rewrite H1, H2.
Qed.

(** ** main.ts: the block of one page in the document written *)

Lemma seqZ_page (p n : Z) :
  (1 <= p <= n)%Z -> seqZ 1 n = seqZ 1 (p - 1) ++ p :: seqZ (p + 1) (n - p).
Proof.
  intros H. replace n with ((p - 1) + (n - p + 1))%Z at 1 by lia.
  rewrite seqZ_app by lia. f_equal.
  rewrite seqZ_cons by lia. f_equal; [lia|]. f_equal; lia.
Qed.

(** The document is the heading, the blocks of the pages before [p],
    the block of [p] and the blocks of the pages after it. *)
Lemma fullContent_page (v : PDFNotesView) (p : Z) :
  (1 <= p <= numPagesOr0 v)%Z ->
  fullContent v
  = notesHeading (pdfNameOf v) (pdfFileNameOf v) (numPagesOr0 v)
    ++ pageBlocks (pageNotes v) (p - 1)
    ++ pageBlock (pageNotes v) p
    ++ concat (map (pageBlock (pageNotes v)) (seqZ (p + 1) (numPagesOr0 v - p))).
Proof.
  intros H. unfold fullContent, pageBlocks. f_equal.
  rewrite (seqZ_page p _ H), List.map_app, concat_app. reflexivity.
Qed.

Lemma fullContent_placeholder (v : PDFNotesView) (p : Z) :
  (1 <= p <= numPagesOr0 v)%Z ->
  pageNotes v !! p = None \/ pageNotes v !! p = Some []
  \/ pageNotes v !! p = Some NO_NOTES ->
  fullContent v
  = notesHeading (pdfNameOf v) (pdfFileNameOf v) (numPagesOr0 v)
    ++ pageBlocks (pageNotes v) (p - 1)
    ++ (js "## Page " ++ numberToString p ++ js "\n\n_No notes for this page_\n\n")
    ++ concat (map (pageBlock (pageNotes v)) (seqZ (p + 1) (numPagesOr0 v - p))).
Proof.
  intros Hp H. rewrite (fullContent_page v p Hp).
  now rewrite (pageBlock_placeholder _ _ H).
Qed.

(** Reading back a page in range that holds text. *)
Lemma parseExistingNotes_kept (v : PDFNotesView) (q : Z) (c : N) (text : jsstring) :
  markerFreeNotes v = true ->
  (1 <= q <= numPagesOr0 v)%Z ->
  pageNotes v !! q = Some (c :: text) ->
  trim (c :: text) <> NO_NOTES ->
  parseExistingNotes (fullContent v) !! q = Some (trim (c :: text)).
Proof.
  intros Hm Hq Hl Hn. rewrite (parseExistingNotes_fullContent _ _ Hm Hq).
  rewrite (writtenText_nonempty _ _ _ _ Hl). unfold reloaded.
  now destruct (decide (trim (c :: text) = NO_NOTES)).
Qed.

(** Whatever the content, no page holds the placeholder after
    [parseExistingNotes]. *)
Lemma parseExistingNotes_no_placeholder (content : jsstring) (q : Z) :
  parseExistingNotes content !! q <> Some NO_NOTES.
Proof.
  unfold parseExistingNotes.
  rewrite parseSections_fold, fold_storeSection_last, lookup_empty.
  destruct (last _) as [section|] eqn:L; [|discriminate].
  apply last_Some_elem_of, list_elem_of_In, filter_In in L as [_ K].
  unfold keptFor in K. apply andb_true_iff in K as [_ K].
  apply negb_true_iff, bool_decide_eq_false in K. congruence.
Qed.

(** ** part_003: the section that is read and replaced *)

(** The section under the first header line ends where [## Page]
    next begins, be it the header line of the same page again. *)
Lemma execSection_first (before body later : jsstring) (p : Z) :
  includes (pageHeaderLine p) before = false ->
  includes PAGE body = false ->
  startsWith PAGE later = true ->
  execSection (pageHeaderLine p) (before ++ pageHeaderLine p ++ body ++ later)
  = Some (before, body, later).
Proof.
  intros Hb Hbody Hl.
  apply execSection_app;
    [apply hashShape_pageHeaderLine|exact Hb|exact Hbody|now right].
Qed.

Lemma saveNotesInto_first_section (before body later notes : jsstring) (p : Z) :
  includes (pageHeaderLine p) before = false ->
  includes PAGE body = false ->
  startsWith PAGE later = true ->
  hasSubstitution notes = false ->
  saveNotesInto (before ++ pageHeaderLine p ++ body ++ later) p notes
  = before ++ trim (pageHeader p ++ [10] ++ notes ++ [10; 10]) ++ later.
Proof.
  intros Hb Hbody Hl Hs.
  rewrite (saveNotesInto_found _ p notes before body later);
    [|now apply execSection_first|exact Hs].
  now rewrite trim_newPageContent.
Qed.

Lemma saveNotesInto_appended (content notes : jsstring) (p : Z) :
  includes (pageHeaderLine p) content = false ->
  saveNotesInto content p notes = content ++ pageHeaderLine p ++ notes ++ [10; 10].
Proof.
  intros H. apply saveNotesInto_absent, execSection_None; [discriminate|exact H].
Qed.

Lemma saveNotes_Some (vault : gmap jsstring jsstring) (pdf : jsstring)
    (p : Z) (notes : jsstring) :
  pdf <> [] ->
  saveNotes vault (Some pdf) p notes
  = (<[notesFileOf pdf :=
         saveNotesInto (default (js "# PDF Notes\n\n") (vault !! notesFileOf pdf)) p notes]>
       vault,
     [AdapterRead (notesFileOf pdf);
      AdapterWrite (notesFileOf pdf)
        (saveNotesInto (default (js "# PDF Notes\n\n") (vault !! notesFileOf pdf)) p notes)]).
Proof.
  intros Hpdf. unfold saveNotes, truthyPath. destruct pdf as [|c pdf]; [congruence|].
  now destruct (vault !! notesFileOf (c :: pdf)).
Qed.

(** * The claims *)

(** A page number looked up in a given view is within its pages. *)
Ltac in_range := unfold numPagesOr0; cbn [currentPdf currentPage]; lia.

(** Two texts that evaluate to different values. *)
Ltac differ :=
  let H := fresh in intros H; vm_compute in H; discriminate H.

(** ** C1: saving the same notes twice *)

(** C1, refuted as stated.  Saving the same notes a second time changes
    the document when the page had no section (the first call appends
    the notes with two line feeds, the second replaces them trimmed),
    when the notes are empty (the header is left without its line feed
    and is not found again), when they hold [$&] (expanded to the text
    matched), and when they hold [## Page] (the match ends there, the
    rest is kept after the new text). *)
Lemma saveNotes_twice_differs :
  (saveNotesInto (js "# PDF Notes\n\n") 1 (js "first")
     = js "# PDF Notes\n\n## Page 1\nfirst\n\n"
   /\ saveNotesInto (saveNotesInto (js "# PDF Notes\n\n") 1 (js "first")) 1 (js "first")
     = js "# PDF Notes\n\n## Page 1\nfirst"
   /\ saveNotesInto (saveNotesInto (js "# PDF Notes\n\n") 1 (js "first")) 1 (js "first")
     <> saveNotesInto (js "# PDF Notes\n\n") 1 (js "first"))
  /\ (saveNotesInto (js "## Page 1\nold\n") 1 (js "") = js "## Page 1"
     /\ saveNotesInto (saveNotesInto (js "## Page 1\nold\n") 1 (js "")) 1 (js "")
       = js "## Page 1## Page 1\n\n\n"
     /\ saveNotesInto (saveNotesInto (js "## Page 1\nold\n") 1 (js "")) 1 (js "")
       <> saveNotesInto (js "## Page 1\nold\n") 1 (js ""))
  /\ (saveNotesInto (js "## Page 1\nold\n") 1 (js "$&")
       = js "## Page 1\n## Page 1\nold\n"
     /\ saveNotesInto (saveNotesInto (js "## Page 1\nold\n") 1 (js "$&")) 1 (js "$&")
       = js "## Page 1\n## Page 1\n## Page 1\nold\n"
     /\ saveNotesInto (saveNotesInto (js "## Page 1\nold\n") 1 (js "$&")) 1 (js "$&")
       <> saveNotesInto (js "## Page 1\nold\n") 1 (js "$&"))
  /\ (saveNotesInto (js "## Page 1\nold\n") 1 (js "see ## Page 2")
       = js "## Page 1\nsee ## Page 2"
     /\ saveNotesInto (saveNotesInto (js "## Page 1\nold\n") 1 (js "see ## Page 2")) 1
          (js "see ## Page 2")
       = js "## Page 1\nsee ## Page 2## Page 2"
     /\ saveNotesInto (saveNotesInto (js "## Page 1\nold\n") 1 (js "see ## Page 2")) 1
          (js "see ## Page 2")
       <> saveNotesInto (js "## Page 1\nold\n") 1 (js "see ## Page 2")).
Proof. repeat split; solve [vm_compute; reflexivity | differ]. Qed.

(** C1, as amended.  When the content already holds the header line of
    page [p], and the notes hold some text other than white space, none
    of [$$], [$&], [$`] and [$'], and no [## Page], saving them twice
    writes the same document as saving them once. *)
Theorem saveNotes_twice_same (content : jsstring) (p : Z) (notes : jsstring) :
  includes (pageHeaderLine p) content = true ->
  plainNotes notes = true ->
  saveNotesInto (saveNotesInto content p notes) p notes
  = saveNotesInto content p notes.
Proof.
  intros Hc Hn. apply plainNotes_inv in Hn as (Hw & Hd & Hp).
  now apply saveNotesInto_again.
Qed.

Lemma saveNotes_twice_same_witness :
  saveNotesInto
    (saveNotesInto (js "# PDF Notes\n\n## Page 1\nfirst\n\n## Page 2\nb\n") 1 (js "cost: $5 "))
    1 (js "cost: $5 ")
  = saveNotesInto (js "# PDF Notes\n\n## Page 1\nfirst\n\n## Page 2\nb\n") 1 (js "cost: $5 ").
Proof.
  apply (saveNotes_twice_same
           (js "# PDF Notes\n\n## Page 1\nfirst\n\n## Page 2\nb\n") 1 (js "cost: $5 "));
    reflexivity.
Defined.

(** ** C2: loading what was saved *)

(** C2, refuted as stated.  What is loaded is not exactly what was
    saved: white space around the notes is trimmed; and in a section
    that exists, [$$] is written as [$]; and the text loaded ends where
    the notes hold [## Page]; and empty notes saved over a section are
    loaded as absent. *)
Lemma loadNotes_not_exact :
  (loadNotesFrom (saveNotesInto (js "# PDF Notes\n\n") 1 (js " hi ")) 1
     = Some (js "hi")
   /\ loadNotesFrom (saveNotesInto (js "# PDF Notes\n\n") 1 (js " hi ")) 1
     <> Some (js " hi "))
  /\ (loadNotesFrom (saveNotesInto (js "## Page 1\nold\n") 1 (js "cost: $$5")) 1
       = Some (js "cost: $5")
     /\ loadNotesFrom (saveNotesInto (js "## Page 1\nold\n") 1 (js "cost: $$5")) 1
       <> Some (js "cost: $$5"))
  /\ (loadNotesFrom (saveNotesInto (js "# PDF Notes\n\n") 1 (js "see ## Page 2")) 1
       = Some (js "see")
     /\ loadNotesFrom (saveNotesInto (js "# PDF Notes\n\n") 1 (js "see ## Page 2")) 1
       <> Some (js "see ## Page 2"))
  /\ loadNotesFrom (saveNotesInto (js "## Page 1\nold\n") 1 (js "")) 1 = None.
Proof. repeat split; solve [vm_compute; reflexivity | differ]. Qed.

(** C2, as amended.  For a document built from any content by calls of
    [saveNotes] whose notes hold none of [$$], [$&], [$`] and [$'] and
    no [## Page], [loadNotes] returns for page [p] the notes saved last
    for [p], trimmed, when these hold some text other than white space.
    And for the document [saveAllNotesToFile] writes, whose heading and
    texts hold no marker line, [parseExistingNotes] gives a page in
    range the notes held for it, trimmed, when they are not empty and,
    trimmed, not the placeholder. *)
Theorem loadNotes_last_saved :
  (forall (content : jsstring) (calls : list (Z * jsstring)) (p : Z) (notes : jsstring),
      forallb (fun call => safeNotes (snd call)) calls = true ->
      lastSaved p calls = Some notes ->
      allWhiteSpace notes = false ->
      loadNotesFrom (saveAll content calls) p = Some (trim notes))
  /\ (forall (v : PDFNotesView) (p : Z) (c : N) (notes : jsstring),
      markerFreeNotes v = true ->
      (1 <= p <= numPagesOr0 v)%Z ->
      pageNotes v !! p = Some (c :: notes) ->
      trim (c :: notes) <> NO_NOTES ->
      parseExistingNotes (fullContent v) !! p = Some (trim (c :: notes))).
Proof.
  split.
  - intros content calls p notes H L Hw.
    pose proof (loadNotesFrom_saveAll content calls p H) as R.
    rewrite L in R. now apply R.
  - intros v p c notes Hm Hp Hl Hn.
    rewrite (parseExistingNotes_fullContent _ _ Hm Hp).
    rewrite (writtenText_nonempty _ _ _ _ Hl). unfold reloaded.
    now destruct (decide (trim (c :: notes) = NO_NOTES)).
Qed.

Lemma loadNotes_last_saved_witness :
  loadNotesFrom
    (saveAll (js "# PDF Notes\n\n")
       [(1%Z, js "one"); (2%Z, js ""); (2%Z, js " two"); (1%Z, js "uno\n")]) 1
    = Some (trim (js "uno\n"))
  /\ parseExistingNotes
       (fullContent
          {| currentPdf := Some 2%Z; currentPage := 1%Z;
             currentPdfFile := None; currentNotesFile := None;
             pageNotes := <[2%Z := js " two\n"]> ∅;
             notesEditor := None; autoSaveOnClose := true |}) !! 2%Z
     = Some (trim (js " two\n")).
Proof.
  split.
  - apply (proj1 loadNotes_last_saved (js "# PDF Notes\n\n")
             [(1%Z, js "one"); (2%Z, js ""); (2%Z, js " two"); (1%Z, js "uno\n")]
             1%Z (js "uno\n"));
      reflexivity.
  - apply (proj2 loadNotes_last_saved
             {| currentPdf := Some 2%Z; currentPage := 1%Z;
                currentPdfFile := None; currentNotesFile := None;
                pageNotes := <[2%Z := js " two\n"]> ∅;
                notesEditor := None; autoSaveOnClose := true |}
             2%Z 32 (js "two\n"));
      [reflexivity|in_range|reflexivity|vm_compute; discriminate].
Defined.

(** ** C3: empty notes *)

(** C3, refuted as stated.  In main.ts a page whose notes are empty is
    absent after the document is written and parsed; in part_003 empty
    notes saved over a section are loaded as absent. *)
Lemma empty_notes_absent :
  parseExistingNotes
    (fullContent
       {| currentPdf := Some 1%Z; currentPage := 1%Z;
          currentPdfFile := None; currentNotesFile := None;
          pageNotes := <[1%Z := js ""]> ∅;
          notesEditor := None; autoSaveOnClose := true |}) !! 1%Z = None
  /\ loadNotesFrom (saveNotesInto (js "## Page 1\nold\n") 1 (js "")) 1 = None.
Proof. split; vm_compute; reflexivity. Qed.

(** C3, as amended.  In part_003, saving empty notes for a page whose
    header line the content does not hold yet appends the header line
    and two line feeds, and the empty text is loaded for that page from
    the result.  In main.ts, a page in range whose notes are empty is
    written with the placeholder: the document is the heading, the
    blocks of the pages before, the marker of the page with the
    placeholder under it, and the blocks of the pages after.  When the
    heading and the texts written hold no marker line, the page is
    absent from [pageNotes] after parsing, and the editor, on that page,
    is then given the empty text, while a page in range whose notes hold
    text is read back with that text, trimmed, unless that is the
    placeholder. *)
Theorem empty_notes_round_trip :
  (forall (content : jsstring) (p : Z),
      includes (pageHeaderLine p) content = false ->
      saveNotesInto content p [] = content ++ pageHeaderLine p ++ [10; 10]
      /\ loadNotesFrom (saveNotesInto content p []) p = Some [])
  /\ (forall (v : PDFNotesView) (p : Z),
      (1 <= p <= numPagesOr0 v)%Z ->
      pageNotes v !! p = Some [] ->
      fullContent v
      = notesHeading (pdfNameOf v) (pdfFileNameOf v) (numPagesOr0 v)
        ++ pageBlocks (pageNotes v) (p - 1)
        ++ (js "## Page " ++ numberToString p ++ js "\n\n_No notes for this page_\n\n")
        ++ concat (map (pageBlock (pageNotes v)) (seqZ (p + 1) (numPagesOr0 v - p)))
      /\ (markerFreeNotes v = true ->
          parseExistingNotes (fullContent v) !! p = None
          /\ (currentPage v = p ->
              pageContentOf (reloadNotes v (fullContent v)) = [])
          /\ forall (q : Z) (c : N) (text : jsstring),
               (1 <= q <= numPagesOr0 v)%Z ->
               pageNotes v !! q = Some (c :: text) ->
               trim (c :: text) <> NO_NOTES ->
               parseExistingNotes (fullContent v) !! q = Some (trim (c :: text)))).
Proof.
  split.
  - intros content p H. split.
    + now apply (saveNotesInto_appended content []).
    + apply (loadNotesFrom_saveNotesInto content p []);
        [reflexivity|reflexivity|now left].
  - intros v p Hp Hl. split.
    + apply fullContent_placeholder; [exact Hp|right; now left].
    + intros Hm.
      assert (E : parseExistingNotes (fullContent v) !! p = None).
      { rewrite (parseExistingNotes_fullContent _ _ Hm Hp).
        rewrite writtenText_placeholder by (right; now left). reflexivity. }
      split; [exact E|]. split.
      * intros <-.
        unfold pageContentOf, reloadNotes, setPageNotes. cbn [pageNotes currentPage].
        now rewrite E.
      * intros q c text. now apply parseExistingNotes_kept.
Qed.

Lemma empty_notes_round_trip_witness :
  (saveNotesInto (js "# PDF Notes\n\n## Page 2\nb\n\n") 1 []
   = js "# PDF Notes\n\n## Page 2\nb\n\n" ++ pageHeaderLine 1 ++ [10; 10]
   /\ loadNotesFrom (saveNotesInto (js "# PDF Notes\n\n## Page 2\nb\n\n") 1 []) 1
      = Some [])
  /\ pageContentOf
       (reloadNotes
          {| currentPdf := Some 2%Z; currentPage := 1%Z;
             currentPdfFile := None; currentNotesFile := None;
             pageNotes := <[1%Z := []]> (<[2%Z := js "two "]> ∅);
             notesEditor := None; autoSaveOnClose := true |}
          (fullContent
             {| currentPdf := Some 2%Z; currentPage := 1%Z;
                currentPdfFile := None; currentNotesFile := None;
                pageNotes := <[1%Z := []]> (<[2%Z := js "two "]> ∅);
                notesEditor := None; autoSaveOnClose := true |})) = []
  /\ parseExistingNotes
       (fullContent
          {| currentPdf := Some 2%Z; currentPage := 1%Z;
             currentPdfFile := None; currentNotesFile := None;
             pageNotes := <[1%Z := []]> (<[2%Z := js "two "]> ∅);
             notesEditor := None; autoSaveOnClose := true |}) !! 2%Z
     = Some (trim (js "two ")).
Proof.
  split.
  - apply (proj1 empty_notes_round_trip (js "# PDF Notes\n\n## Page 2\nb\n\n") 1%Z).
    reflexivity.
  - assert (H := proj2 (proj2 empty_notes_round_trip
              {| currentPdf := Some 2%Z; currentPage := 1%Z;
                 currentPdfFile := None; currentNotesFile := None;
                 pageNotes := <[1%Z := []]> (<[2%Z := js "two "]> ∅);
                 notesEditor := None; autoSaveOnClose := true |} 1%Z
              ltac:(in_range) eq_refl) eq_refl).
    destruct H as (_ & H1 & H2). split; [now apply H1|].
    apply (H2 2%Z 116 (js "wo ")); [in_range|reflexivity|differ].
Defined.

(** ** C4: the other pages *)

(** C4, refuted as stated.  Notes of page 1 that hold the header line of
    page 2 are found first when page 2 is loaded. *)
Lemma saveNotes_alters_other_page :
  loadNotesFrom (js "## Page 1\na\n\n## Page 2\nb\n\n") 2 = Some (js "b")
  /\ loadNotesFrom
       (saveNotesInto (js "## Page 1\na\n\n## Page 2\nb\n\n") 1 (js "## Page 2\nfake")) 2
     = Some (js "fake")
  /\ loadNotesFrom
       (saveNotesInto (js "## Page 1\na\n\n## Page 2\nb\n\n") 1 (js "## Page 2\nfake")) 2
     <> loadNotesFrom (js "## Page 1\na\n\n## Page 2\nb\n\n") 2.
Proof. repeat split; solve [vm_compute; reflexivity | differ]. Qed.

(** C4, as amended.  When the notes saved for page [p] hold none of
    [$$], [$&], [$`] and [$'], and no [## Page], what [loadNotes]
    returns for any other page [q] is the same before and after the
    save.  In main.ts, an edit of the current
    page leaves what is parsed for any other page in range as it was,
    when neither document holds a marker line in its heading or
    texts. *)
Theorem saveNotes_keeps_other_pages :
  (forall (content : jsstring) (p q : Z) (notes : jsstring),
      q <> p ->
      safeNotes notes = true ->
      loadNotesFrom (saveNotesInto content p notes) q = loadNotesFrom content q)
  /\ (forall (v : PDFNotesView) (doc : jsstring) (q : Z),
      q <> currentPage v ->
      markerFreeNotes v = true ->
      markerFreeNotes (editView doc v) = true ->
      (1 <= q <= numPagesOr0 v)%Z ->
      parseExistingNotes (fullContent (editView doc v)) !! q
      = parseExistingNotes (fullContent v) !! q).
Proof.
  split.
  - intros content p q notes Hq Hn. apply safeNotes_inv in Hn as [Hd Hp].
    now apply loadNotesFrom_saveNotesInto_other.
  - intros v doc q Hq Hv Hv' Hr.
    rewrite (parseExistingNotes_fullContent _ _ Hv Hr).
    rewrite (parseExistingNotes_fullContent _ _ Hv' Hr).
    unfold writtenText, editView. cbn [pageNotes].
    now rewrite lookup_insert_ne by congruence.
Qed.

Lemma saveNotes_keeps_other_pages_witness :
  loadNotesFrom
    (saveNotesInto (js "## Page 1\na\n\n## Page 2\nb\n\n") 1 (js "mid ## page")) 2
    = loadNotesFrom (js "## Page 1\na\n\n## Page 2\nb\n\n") 2
  /\ parseExistingNotes
       (fullContent
          (editView (js "new")
             {| currentPdf := Some 2%Z; currentPage := 1%Z;
                currentPdfFile := None; currentNotesFile := None;
                pageNotes := <[2%Z := js "two"]> ∅;
                notesEditor := Some []; autoSaveOnClose := true |})) !! 2%Z
     = parseExistingNotes
         (fullContent
            {| currentPdf := Some 2%Z; currentPage := 1%Z;
               currentPdfFile := None; currentNotesFile := None;
               pageNotes := <[2%Z := js "two"]> ∅;
               notesEditor := Some []; autoSaveOnClose := true |}) !! 2%Z.
Proof.
  split.
  - apply (proj1 saveNotes_keeps_other_pages
             (js "## Page 1\na\n\n## Page 2\nb\n\n") 1%Z 2%Z (js "mid ## page"));
      [discriminate|reflexivity].
  - apply (proj2 saveNotes_keeps_other_pages
             {| currentPdf := Some 2%Z; currentPage := 1%Z;
                currentPdfFile := None; currentNotesFile := None;
                pageNotes := <[2%Z := js "two"]> ∅;
                notesEditor := Some []; autoSaveOnClose := true |}
             (js "new") 2%Z);
      [discriminate|reflexivity|reflexivity|in_range].
Defined.

(** ** C5: the debounced save *)

(** C5.  From a view with an editor (a textarea in part_002), a notes
    file and no timer pending, a burst of one or more edits, each after
    the first less than the debounce interval after the one before,
    writes nothing while it lasts; once the interval has passed after
    the last edit exactly one call of [vault.modify] has been made, one
    interval after the last edit, with the document of the view as the
    last edit left it (in part_002 the value of the textarea), and no
    timer is pending. *)
Theorem debounce_coalesces :
  (forall (r : Run PDFNotesView) (file : TFile) (doc0 : jsstring)
          (ms : N) (doc : jsstring) (edits : list (N * jsstring)) (wait : N),
      timeout r = None ->
      notesEditor (view r) = Some doc0 ->
      currentNotesFile (view r) = Some file ->
      forallb (fun edit => fst edit <? DEBOUNCE_MS) edits = true ->
      DEBOUNCE_MS <= wait ->
      modified (runView (editEvents ((ms, doc) :: edits)) r) = modified r
      /\ modified (elapse saveAllNotesToFile wait
                    (runView (editEvents ((ms, doc) :: edits)) r))
         = modified r
           ++ [(clock r + ms + totalDelay edits + DEBOUNCE_MS, file,
                fullContent (editView (lastDoc doc edits) (view r)))]
      /\ timeout (elapse saveAllNotesToFile wait
                   (runView (editEvents ((ms, doc) :: edits)) r)) = None)
  /\ (forall (r : Run TextareaView) (file : TFile)
             (ms : N) (value : jsstring) (edits : list (N * jsstring)) (wait : N),
      timeout r = None ->
      areaNotesFile (view r) = Some file ->
      forallb (fun edit => fst edit <? DEBOUNCE_MS) edits = true ->
      DEBOUNCE_MS <= wait ->
      modified (runTextarea (editEvents ((ms, value) :: edits)) r) = modified r
      /\ modified (elapse saveTextarea wait
                    (runTextarea (editEvents ((ms, value) :: edits)) r))
         = modified r
           ++ [(clock r + ms + totalDelay edits + DEBOUNCE_MS, file,
                lastDoc value edits)]
      /\ timeout (elapse saveTextarea wait
                   (runTextarea (editEvents ((ms, value) :: edits)) r)) = None).
Proof.
  split.
  - intros r file doc0 ms doc edits wait Ht He Hf Hl Hw.
    apply (burst_then_one_write updateListener saveAllNotesToFile closeView
             (readyView file) editView file fullContent
             (updateListener_ready file) (readyView_editView file)
             editView_editView (saveAllNotesToFile_editView file));
      [exact Ht|split; [now exists doc0|exact Hf]|exact Hl|exact Hw].
  - intros r file ms value edits wait Ht Hf Hl Hw.
    apply (burst_then_one_write inputListener saveTextarea closeTextarea
             (readyTextarea file) editTextarea file textareaValue);
      [reflexivity|now intros|reflexivity|apply saveTextarea_edit
      |exact Ht|exact Hf|exact Hl|exact Hw].
Qed.

Lemma debounce_coalesces_witness :
  modified
    (elapse saveAllNotesToFile 1000
       (runView (editEvents [(0, js "a"); (400, js "ab"); (999, js "abc")])
          {| view := {| currentPdf := Some 1%Z; currentPage := 1%Z;
                        currentPdfFile := None;
                        currentNotesFile :=
                          Some {| basename := js "doc_notes";
                                  name := js "doc_notes.md";
                                  path := js "doc_notes.md" |};
                        pageNotes := ∅; notesEditor := Some [];
                        autoSaveOnClose := true |};
             clock := 0; timeout := None; modified := [] |}))
  = [(2399,
      {| basename := js "doc_notes"; name := js "doc_notes.md";
         path := js "doc_notes.md" |},
      js "# PDF - Notes\n\n**PDF:** [[undefined]]\n**Total Pages:** 1\n\n## Page 1\n\nabc\n\n")]
  /\ modified
       (elapse saveTextarea 1000
          (runTextarea (editEvents [(0, js "a"); (400, js "ab"); (999, js "abc")])
             {| view := {| textareaValue := [];
                           areaNotesFile :=
                             Some {| basename := js "doc_notes";
                                     name := js "doc_notes.md";
                                     path := js "doc_notes.md" |};
                           areaAutoSaveOnClose := true |};
                clock := 0; timeout := None; modified := [] |}))
     = [(2399,
         {| basename := js "doc_notes"; name := js "doc_notes.md";
            path := js "doc_notes.md" |},
         js "abc")].
Proof.
  split.
  - refine (proj1 (proj2 (proj1 debounce_coalesces
             {| view := {| currentPdf := Some 1%Z; currentPage := 1%Z;
                           currentPdfFile := None;
                           currentNotesFile :=
                             Some {| basename := js "doc_notes";
                                     name := js "doc_notes.md";
                                     path := js "doc_notes.md" |};
                           pageNotes := ∅; notesEditor := Some [];
                           autoSaveOnClose := true |};
                clock := 0; timeout := None; modified := [] |}
             {| basename := js "doc_notes"; name := js "doc_notes.md";
                path := js "doc_notes.md" |}
             [] 0 (js "a") [(400, js "ab"); (999, js "abc")] 1000
             _ _ _ _ _))); reflexivity.
  - refine (proj1 (proj2 (proj2 debounce_coalesces
             {| view := {| textareaValue := [];
                           areaNotesFile :=
                             Some {| basename := js "doc_notes";
                                     name := js "doc_notes.md";
                                     path := js "doc_notes.md" |};
                           areaAutoSaveOnClose := true |};
                clock := 0; timeout := None; modified := [] |}
             {| basename := js "doc_notes"; name := js "doc_notes.md";
                path := js "doc_notes.md" |}
             0 (js "a") [(400, js "ab"); (999, js "abc")] 1000
             _ _ _ _))); reflexivity.
Defined.

(** ** C6: the close *)

(** C6, refuted as stated.  With the setting [autoSaveOnClose] off, an
    edit followed by the close within the debounce interval ends with no
    call of [vault.modify] at all. *)
Lemma close_without_write :
  modified
    (runView [(0, DocChanged (js "a")); (500, Close)]
       {| view := {| currentPdf := Some 1%Z; currentPage := 1%Z;
                     currentPdfFile := None;
                     currentNotesFile :=
                       Some {| basename := js "doc_notes";
                               name := js "doc_notes.md";
                               path := js "doc_notes.md" |};
                     pageNotes := ∅; notesEditor := Some [];
                     autoSaveOnClose := false |};
          clock := 0; timeout := None; modified := [] |})
  = [].
Proof. vm_compute. reflexivity. Qed.

(** C6, as amended.  From a view with an editor (a textarea in
    part_002), a notes file and no timer pending, an edit followed by
    the close less than the debounce interval later: when
    [autoSaveOnClose] is on, the close makes exactly one call of
    [vault.modify], at the time of the close, with the document of the
    view as the edit left it; when it is off, the close makes none. *)
Theorem close_flushes :
  (forall (r : Run PDFNotesView) (file : TFile) (doc0 doc : jsstring) (ms0 ms : N),
      timeout r = None ->
      notesEditor (view r) = Some doc0 ->
      currentNotesFile (view r) = Some file ->
      ms < DEBOUNCE_MS ->
      modified (runView [(ms0, DocChanged doc); (ms, Close)] r)
      = modified r
        ++ (if autoSaveOnClose (view r)
            then [(clock r + ms0 + ms, file, fullContent (editView doc (view r)))]
            else []))
  /\ (forall (r : Run TextareaView) (file : TFile) (value : jsstring) (ms0 ms : N),
      timeout r = None ->
      areaNotesFile (view r) = Some file ->
      ms < DEBOUNCE_MS ->
      modified (runTextarea [(ms0, DocChanged value); (ms, Close)] r)
      = modified r
        ++ (if areaAutoSaveOnClose (view r)
            then [(clock r + ms0 + ms, file, value)]
            else [])).
Proof.
  split.
  - intros r file doc0 doc ms0 ms Ht He Hf Hms.
    assert (R : readyView file (view r)) by (split; [now exists doc0|exact Hf]).
    unfold runView.
    rewrite (edit_then_close updateListener saveAllNotesToFile closeView
               (readyView file) editView (updateListener_ready file)
               r ms0 ms doc Ht R Hms).
    rewrite (closeView_editView file doc _ R).
    destruct (autoSaveOnClose (view r)); [reflexivity|].
    simpl. now rewrite app_nil_r.
  - intros r file value ms0 ms Ht Hf Hms.
    unfold runTextarea.
    rewrite (edit_then_close inputListener saveTextarea closeTextarea
               (readyTextarea file) editTextarea (fun _ _ _ => eq_refl)
               r ms0 ms value Ht Hf Hms).
    unfold closeTextarea. cbn [snd editTextarea areaAutoSaveOnClose areaNotesFile].
    unfold readyTextarea in Hf. rewrite Hf.
    destruct (areaAutoSaveOnClose (view r)); [reflexivity|].
    simpl. now rewrite app_nil_r.
Qed.

Lemma close_flushes_witness :
  modified
    (runView [(0, DocChanged (js "a")); (500, Close)]
       {| view := {| currentPdf := Some 1%Z; currentPage := 1%Z;
                     currentPdfFile := None;
                     currentNotesFile :=
                       Some {| basename := js "doc_notes";
                               name := js "doc_notes.md";
                               path := js "doc_notes.md" |};
                     pageNotes := ∅; notesEditor := Some [];
                     autoSaveOnClose := true |};
          clock := 0; timeout := None; modified := [] |})
  = [(500,
      {| basename := js "doc_notes"; name := js "doc_notes.md";
         path := js "doc_notes.md" |},
      js "# PDF - Notes\n\n**PDF:** [[undefined]]\n**Total Pages:** 1\n\n## Page 1\n\na\n\n")]
  /\ modified
       (runTextarea [(0, DocChanged (js "a")); (500, Close)]
          {| view := {| textareaValue := [];
                        areaNotesFile :=
                          Some {| basename := js "doc_notes";
                                  name := js "doc_notes.md";
                                  path := js "doc_notes.md" |};
                        areaAutoSaveOnClose := true |};
             clock := 0; timeout := None; modified := [] |})
     = [(500,
         {| basename := js "doc_notes"; name := js "doc_notes.md";
            path := js "doc_notes.md" |},
         js "a")].
Proof.
  split.
  - refine (proj1 close_flushes
             {| view := {| currentPdf := Some 1%Z; currentPage := 1%Z;
                           currentPdfFile := None;
                           currentNotesFile :=
                             Some {| basename := js "doc_notes";
                                     name := js "doc_notes.md";
                                     path := js "doc_notes.md" |};
                           pageNotes := ∅; notesEditor := Some [];
                           autoSaveOnClose := true |};
                clock := 0; timeout := None; modified := [] |}
             {| basename := js "doc_notes"; name := js "doc_notes.md";
                path := js "doc_notes.md" |}
             [] (js "a") 0 500 _ _ _ _); reflexivity.
  - refine (proj2 close_flushes
             {| view := {| textareaValue := [];
                           areaNotesFile :=
                             Some {| basename := js "doc_notes";
                                     name := js "doc_notes.md";
                                     path := js "doc_notes.md" |};
                           areaAutoSaveOnClose := true |};
                clock := 0; timeout := None; modified := [] |}
             {| basename := js "doc_notes"; name := js "doc_notes.md";
                path := js "doc_notes.md" |}
             (js "a") 0 500 _ _ _); reflexivity.
Defined.

(** [onClose] does not clear the timer.  In main.ts, with the defaults,
    the callback still runs one interval after the edit and writes the
    heading alone, since [currentPdf] is null by then. *)
Lemma write_after_close :
  map (fun w => (fst (fst w), snd w))
    (modified
       (elapse saveAllNotesToFile 1000
          (runView [(0, DocChanged (js "a")); (500, Close)]
             {| view := {| currentPdf := Some 1%Z; currentPage := 1%Z;
                           currentPdfFile := None;
                           currentNotesFile :=
                             Some {| basename := js "doc_notes";
                                     name := js "doc_notes.md";
                                     path := js "doc_notes.md" |};
                           pageNotes := ∅; notesEditor := Some [];
                           autoSaveOnClose := true |};
                clock := 0; timeout := None; modified := [] |})))
  = [(500, js "# PDF - Notes\n\n**PDF:** [[undefined]]\n**Total Pages:** 1\n\n## Page 1\n\na\n\n");
     (1000, js "# PDF - Notes\n\n**PDF:** [[undefined]]\n**Total Pages:** 0\n\n")].
Proof. vm_compute. reflexivity. Qed.

(** ** C7: a page number marked twice *)

(** C7, refuted as stated.  [parseExistingNotes] keeps for page 1 the
    text under its second marker, and nothing of the text under the
    first. *)
Lemma parseExistingNotes_keeps_last :
  parseExistingNotes (js "## Page 1\nfirst\n## Page 1\nsecond\n") !! 1%Z
    = Some (js "second")
  /\ parseExistingNotes (js "## Page 1\nfirst\n## Page 1\nsecond\n") !! 1%Z
    <> Some (js "first").
Proof. split; [vm_compute; reflexivity|differ]. Qed.

(** C7, as amended.  [loadNotes] reads the section under the first
    header line of the page, which ends where [## Page] next begins: a
    later header line of that page, right there or further on, changes
    nothing.  [parseExistingNotes] keeps for a page (a number up to
    [MAX_SAFE_INTEGER], which [parseInt] reads exactly) the text of the
    last of its sections that is not the placeholder, and none when
    there is no such section.  Both are total functions. *)
Theorem duplicate_markers :
  (forall (before body between rest : jsstring) (p : Z),
      includes (pageHeaderLine p) before = false ->
      includes PAGE body = false ->
      startsWith PAGE (between ++ pageHeaderLine p) = true ->
      loadNotesFrom
        (before ++ pageHeaderLine p ++ body
           ++ between ++ pageHeaderLine p ++ rest) p
      = Some (trim body))
  /\ (forall (content : jsstring) (p : Z),
      (p <= MAX_SAFE_INTEGER)%Z ->
      parseExistingNotes content !! p
      = option_map snd
          (last (List.filter (keptFor p) (sectionsOf (tail (split content)))))).
Proof.
  split.
  - intros before body between rest p Hb Hbody Hl. unfold loadNotesFrom.
    rewrite (execSection_first before body (between ++ pageHeaderLine p ++ rest) p);
      [reflexivity|exact Hb|exact Hbody|].
    rewrite app_assoc. now apply startsWith_app_true.
  - intros content p _. unfold parseExistingNotes.
    rewrite parseSections_fold, fold_storeSection_last, lookup_empty.
    now destruct (last _).
Qed.

Lemma duplicate_markers_witness :
  loadNotesFrom
    (js "# PDF Notes\n\n" ++ pageHeaderLine 1 ++ js "first\n"
       ++ [] ++ pageHeaderLine 1 ++ js "second\n") 1
  = Some (trim (js "first\n"))
  /\ parseExistingNotes (js "## Page 1\nfirst\n## Page 1\nsecond\n") !! 1%Z
     = option_map snd
         (last (List.filter (keptFor 1)
                  (sectionsOf (tail (split (js "## Page 1\nfirst\n## Page 1\nsecond\n")))))).
Proof.
  split.
  - apply (proj1 duplicate_markers (js "# PDF Notes\n\n") (js "first\n")
             [] (js "second\n") 1%Z);
      reflexivity.
  - apply (proj2 duplicate_markers (js "## Page 1\nfirst\n## Page 1\nsecond\n") 1%Z).
    unfold MAX_SAFE_INTEGER. lia.
Defined.

(** ** C8: what counts as a marker *)

(** C8, refuted as stated.  In part_003 the text [## Page] in the middle
    of a line of the notes ends the section that is loaded, and a header
    in the middle of a line starts one. *)
Lemma marker_inside_line :
  loadNotesFrom (js "## Page 1\nsee ## Page 2 above\n") 1 = Some (js "see")
  /\ loadNotesFrom (js "intro ## Page 1\nsee\n") 1 = Some (js "see").
Proof. split; vm_compute; reflexivity. Qed.

(** C8, as amended.  In main.ts the numbers [split] captures for
    [parseExistingNotes] are those of the lines that consist of
    [## Page ] and one or more digits, in order, a line ending at every
    line terminator: text elsewhere in a line makes no marker.  In
    part_003 the header line is found wherever it first occurs, and the
    section ends wherever [## Page] next occurs, inside a line as well:
    that is the section [loadNotes] reads, and the text from that header
    to that [## Page] is what [saveNotes] replaces by the new section,
    trimmed (for notes without [$$], [$&], [$`] and [$']). *)
Theorem marker_grammar :
  (forall content : jsstring,
      captures (split content) = omap markerDigits (linesOf content))
  /\ (forall (before body rest : jsstring) (p : Z),
      includes (pageHeaderLine p) before = false ->
      includes PAGE body = false ->
      loadNotesFrom (before ++ pageHeaderLine p ++ body ++ PAGE ++ rest) p
      = Some (trim body))
  /\ (forall (before body rest notes : jsstring) (p : Z),
      includes (pageHeaderLine p) before = false ->
      includes PAGE body = false ->
      hasSubstitution notes = false ->
      saveNotesInto (before ++ pageHeaderLine p ++ body ++ PAGE ++ rest) p notes
      = before ++ trim (pageHeader p ++ [10] ++ notes ++ [10; 10]) ++ PAGE ++ rest).
Proof.
  split; [|split].
  - exact captures_split_lines.
  - intros before body rest p. apply loadNotesFrom_first_section.
  - intros before body rest notes p Hb Hbody Hs.
    apply saveNotesInto_first_section; [exact Hb|exact Hbody| |exact Hs].
    apply startsWith_app.
Qed.

Lemma marker_grammar_witness :
  loadNotesFrom
    (js "intro " ++ pageHeaderLine 1 ++ js "see " ++ PAGE ++ js " 2 above\n") 1
  = Some (trim (js "see "))
  /\ saveNotesInto
       (js "intro " ++ pageHeaderLine 1 ++ js "see " ++ PAGE ++ js " 2 above\n")
       1 (js "new")
     = js "intro " ++ trim (pageHeader 1 ++ [10] ++ js "new" ++ [10; 10])
         ++ PAGE ++ js " 2 above\n".
Proof.
  split.
  - apply (proj1 (proj2 marker_grammar) (js "intro ") (js "see ")
             (js " 2 above\n") 1%Z);
      reflexivity.
  - apply (proj2 (proj2 marker_grammar) (js "intro ") (js "see ")
             (js " 2 above\n") (js "new") 1%Z);
      reflexivity.
Defined.

(** ** C9: page numbers below 1 *)

(** C9, refuted as stated.  [saveNotes] for page 0 reads the notes file
    and writes it with a section for page 0. *)
Lemma saveNotes_page_zero :
  snd (saveNotes ∅ (Some (js "a.pdf")) 0 (js "x"))
    = [AdapterRead (js "a.pdf-notes.md");
       AdapterWrite (js "a.pdf-notes.md") (js "# PDF Notes\n\n## Page 0\nx\n\n")]
  /\ fst (saveNotes ∅ (Some (js "a.pdf")) 0 (js "x")) !! js "a.pdf-notes.md"
     = Some (js "# PDF Notes\n\n## Page 0\nx\n\n").
Proof. split; vm_compute; reflexivity. Qed.

(** C9, as amended.  [saveNotes] and [loadNotes] do not look at the sign
    of the page number and have no error for it.  For a page number
    below 1 and not below the negative of [MAX_SAFE_INTEGER], whatever
    the notes, [saveNotes] reads the notes file and writes it with the
    section of that page: when what it read holds no header line of the
    page, the header line, the notes and two line feeds are appended.
    For notes with some text other than white space, none of [$$],
    [$&], [$`] and [$'] and no [## Page], [loadNotes] then reads the
    notes back, trimmed.  The check of the range is made by the handler
    of the page input, which renders no page below 1. *)
Theorem page_below_one (vault : gmap jsstring jsstring) (pdf : jsstring)
    (p : Z) (notes : jsstring) (numPages : Z) :
  pdf <> [] ->
  (- MAX_SAFE_INTEGER <= p < 1)%Z ->
  saveNotes vault (Some pdf) p notes
  = (<[notesFileOf pdf :=
         saveNotesInto (default (js "# PDF Notes\n\n") (vault !! notesFileOf pdf)) p notes]>
       vault,
     [AdapterRead (notesFileOf pdf);
      AdapterWrite (notesFileOf pdf)
        (saveNotesInto (default (js "# PDF Notes\n\n") (vault !! notesFileOf pdf)) p notes)])
  /\ (includes (pageHeaderLine p)
        (default (js "# PDF Notes\n\n") (vault !! notesFileOf pdf)) = false ->
      saveNotesInto (default (js "# PDF Notes\n\n") (vault !! notesFileOf pdf)) p notes
      = default (js "# PDF Notes\n\n") (vault !! notesFileOf pdf)
        ++ pageHeaderLine p ++ notes ++ [10; 10])
  /\ (plainNotes notes = true ->
      loadNotes (fst (saveNotes vault (Some pdf) p notes)) (Some pdf) p
      = (Some (trim notes), [AdapterRead (notesFileOf pdf)]))
  /\ pageInputChange numPages p = None.
Proof.
  intros Hpdf Hp.
  pose proof (saveNotes_Some vault pdf p notes Hpdf) as S.
  split; [exact S|]. split; [apply saveNotesInto_appended|]. split.
  - intros Hn. apply plainNotes_inv in Hn as (Hw & Hd & Hpage).
    rewrite S. cbn [fst].
    unfold loadNotes, truthyPath. destruct pdf as [|c pdf]; [congruence|].
    rewrite lookup_insert_eq. f_equal.
    apply loadNotesFrom_saveNotesInto; [exact Hd|exact Hpage|now right].
  - unfold pageInputChange. destruct (Z.leb_spec 1 p); [lia|reflexivity].
Qed.

Lemma page_below_one_witness :
  saveNotesInto
    (default (js "# PDF Notes\n\n")
       ((∅ : gmap jsstring jsstring) !! notesFileOf (js "a.pdf"))) (-3) (js "x")
  = default (js "# PDF Notes\n\n")
      ((∅ : gmap jsstring jsstring) !! notesFileOf (js "a.pdf"))
    ++ pageHeaderLine (-3) ++ js "x" ++ [10; 10]
  /\ loadNotes (fst (saveNotes ∅ (Some (js "a.pdf")) (-3) (js "x"))) (Some (js "a.pdf")) (-3)
     = (Some (trim (js "x")), [AdapterRead (notesFileOf (js "a.pdf"))]).
Proof.
  assert (R : (- MAX_SAFE_INTEGER <= -3 < 1)%Z) by (unfold MAX_SAFE_INTEGER; lia).
  split.
  - refine (proj1 (proj2 (page_below_one ∅ (js "a.pdf") (-3) (js "x") 10 _ R)) _);
      [discriminate|reflexivity].
  - refine (proj1 (proj2 (proj2 (page_below_one ∅ (js "a.pdf") (-3) (js "x") 10 _ R))) _);
      [discriminate|reflexivity].
Defined.

(** ** C10: the placeholder *)

(** C10, refuted as stated.  Page 2 holds exactly the placeholder, and
    after the document is written and parsed it holds a text: the one
    that follows a marker line of page 2 within the notes of page 1. *)
Lemma placeholder_page_reloaded :
  pageNotes
    {| currentPdf := Some 2%Z; currentPage := 1%Z;
       currentPdfFile := None; currentNotesFile := None;
       pageNotes := <[1%Z := js "## Page 2\nfake"]> (<[2%Z := NO_NOTES]> ∅);
       notesEditor := None; autoSaveOnClose := true |} !! 2%Z = Some NO_NOTES
  /\ parseExistingNotes
       (fullContent
          {| currentPdf := Some 2%Z; currentPage := 1%Z;
             currentPdfFile := None; currentNotesFile := None;
             pageNotes := <[1%Z := js "## Page 2\nfake"]> (<[2%Z := NO_NOTES]> ∅);
             notesEditor := None; autoSaveOnClose := true |}) !! 2%Z
     = Some (js "fake").
Proof. split; vm_compute; reflexivity. Qed.

(** C10, as amended.  A page whose notes are exactly the placeholder is
    written as a page without notes is: the document is the one written
    without those notes.  A page in range without notes, with empty
    notes or with the placeholder as notes is written with exactly the
    placeholder: the document is the heading, the blocks of the pages
    before, the marker of the page with the placeholder under it, and
    the blocks of the pages after.  No page holds the placeholder after
    the document is parsed.  When the heading and the texts written
    hold no marker line, a page in range whose notes are the
    placeholder is absent after parsing, while any page in range whose
    notes hold text is read back with that text, trimmed, unless that is
    the placeholder. *)
Theorem placeholder_collision (v : PDFNotesView) (p : Z) :
  (pageNotes v !! p = Some NO_NOTES ->
     fullContent v = fullContent (setPageNotes v (delete p (pageNotes v))))
  /\ ((1 <= p <= numPagesOr0 v)%Z ->
      pageNotes v !! p = None \/ pageNotes v !! p = Some []
      \/ pageNotes v !! p = Some NO_NOTES ->
      fullContent v
      = notesHeading (pdfNameOf v) (pdfFileNameOf v) (numPagesOr0 v)
        ++ pageBlocks (pageNotes v) (p - 1)
        ++ (js "## Page " ++ numberToString p ++ js "\n\n_No notes for this page_\n\n")
        ++ concat (map (pageBlock (pageNotes v)) (seqZ (p + 1) (numPagesOr0 v - p))))
  /\ (forall q : Z, parseExistingNotes (fullContent v) !! q <> Some NO_NOTES)
  /\ ((1 <= p <= numPagesOr0 v)%Z ->
      pageNotes v !! p = Some NO_NOTES ->
      markerFreeNotes v = true ->
      parseExistingNotes (fullContent v) !! p = None
      /\ forall (q : Z) (c : N) (text : jsstring),
           (1 <= q <= numPagesOr0 v)%Z ->
           pageNotes v !! q = Some (c :: text) ->
           trim (c :: text) <> NO_NOTES ->
           parseExistingNotes (fullContent v) !! q = Some (trim (c :: text))).
Proof.
  split; [|split; [|split]].
  - intros H. unfold fullContent, setPageNotes. cbn [pageNotes].
    rewrite (pageBlocks_delete_placeholder _ _ _ H). reflexivity.
  - apply fullContent_placeholder.
  - intros q. apply parseExistingNotes_no_placeholder.
  - intros Hp H Hm. split.
    + rewrite (parseExistingNotes_fullContent _ _ Hm Hp).
      rewrite writtenText_placeholder by (right; now right). reflexivity.
    + intros q c text. now apply parseExistingNotes_kept.
Qed.

Lemma placeholder_collision_witness :
  parseExistingNotes
    (fullContent
       {| currentPdf := Some 2%Z; currentPage := 1%Z;
          currentPdfFile := None; currentNotesFile := None;
          pageNotes := <[1%Z := NO_NOTES]> (<[2%Z := js " two "]> ∅);
          notesEditor := None; autoSaveOnClose := true |}) !! 1%Z = None
  /\ parseExistingNotes
       (fullContent
          {| currentPdf := Some 2%Z; currentPage := 1%Z;
             currentPdfFile := None; currentNotesFile := None;
             pageNotes := <[1%Z := NO_NOTES]> (<[2%Z := js " two "]> ∅);
             notesEditor := None; autoSaveOnClose := true |}) !! 2%Z
     = Some (trim (js " two ")).
Proof.
  assert (H := proj2 (proj2 (proj2 (placeholder_collision
           {| currentPdf := Some 2%Z; currentPage := 1%Z;
              currentPdfFile := None; currentNotesFile := None;
              pageNotes := <[1%Z := NO_NOTES]> (<[2%Z := js " two "]> ∅);
              notesEditor := None; autoSaveOnClose := true |} 1%Z)))).
  destruct H as [H1 H2]; [in_range|reflexivity|reflexivity|].
  split; [exact H1|].
  apply (H2 2%Z 32 (js "two ")); [in_range|reflexivity|differ].
Defined.

(** * Lemmas for the further properties *)

(** ** Lines of a text in two parts *)

Lemma linesOf_app_lt (x : jsstring) (lt : N) (y : jsstring) :
  isLineTerminator lt = true ->
  linesOf (x ++ lt :: y) = linesOf x ++ linesOf y.
Proof.
  intros L. induction x as [|c x IH]; simpl.
  - now rewrite L.
  - rewrite IH. destruct (isLineTerminator c); [reflexivity|].
    pose proof (linesOf_nonempty x) as N.
    destruct (linesOf x); [congruence|reflexivity].
Qed.

Lemma markerFree_app_lt (x : jsstring) (lt : N) (y : jsstring) :
  isLineTerminator lt = true ->
  markerFree (x ++ lt :: y) = markerFree x && markerFree y.
Proof.
  intros L. unfold markerFree. rewrite linesOf_app_lt by exact L.
  apply forallb_app.
Qed.

Lemma trimStart_idem (s : jsstring) : trimStart (trimStart s) = trimStart s.
Proof.
  induction s as [|c s IH]; simpl; [reflexivity|].
  destruct (isWhiteSpace c) eqn:E; [exact IH|]. simpl. now rewrite E.
Qed.

Lemma trim_idem (s : jsstring) : trim (trim s) = trim s.
Proof.
  unfold trim at 2. rewrite trim_trimEnd. unfold trim.
  now rewrite trimStart_idem.
Qed.

Lemma markerFree_after_line (t : jsstring) (lt : N) (y : jsstring) :
  isLineTerminator lt = true ->
  markerFree (t ++ [lt]) = true -> markerFree y = true ->
  markerFree ((t ++ [lt]) ++ y) = true.
Proof.
  intros L Ht Hy. rewrite markerFree_snoc in Ht by exact L.
  rewrite <- app_assoc. simpl. rewrite markerFree_app_lt by exact L.
  now rewrite Ht, Hy.
Qed.

Lemma notesHeading_line (pdfName fileName : jsstring) (n : Z) :
  exists t, notesHeading pdfName fileName n = t ++ [10].
Proof.
  exists (js "# " ++ pdfName ++ js " - Notes\n\n" ++ js "**PDF:** [["
            ++ fileName ++ js "]]\n" ++ js "**Total Pages:** "
            ++ numberToString n ++ [10]).
  unfold notesHeading. rewrite <- !app_assoc. reflexivity.
Qed.

(** ** The template read back *)

Lemma templateSection_pageBlock (m : gmap Z jsstring) (k : Z) :
  m !! k = Some TEMPLATE_NOTES -> templateSection k = pageBlock m k.
Proof.
  intros E. unfold templateSection, pageBlock. rewrite E. reflexivity.
Qed.

Lemma parseExistingNotes_document (heading : jsstring) (m : gmap Z jsstring)
    (n p : Z) :
  markerFree heading = true ->
  (exists t lt, heading = t ++ [lt] /\ isLineTerminator lt = true) ->
  (forall k, (1 <= k <= n)%Z -> markerFree (writtenText m k) = true) ->
  parseExistingNotes (heading ++ concat (map (pageBlock m) (seqZ 1 n))) !! p
  = if decide (1 <= p <= n)%Z then reloaded (writtenText m p) else None.
Proof.
  intros Hh He Hm.
  assert (Hks : Forall (fun k => (0 <= k)%Z /\ markerFree (writtenText m k) = true)
                  (seqZ 1 n)).
  { apply List.Forall_forall. intros k Hk.
    apply (proj2 (list_elem_of_In _ _)), elem_of_seqZ in Hk.
    split; [lia|apply Hm; lia]. }
  unfold parseExistingNotes.
  rewrite tail_split_document; [|exact Hh|exact He|exact Hks].
  rewrite parseSections_fold, sectionsOf_blocks.
  - rewrite fold_storeSection_lookup by apply NoDup_seqZ.
    rewrite lookup_empty.
    destruct (decide (p ∈ seqZ 1 n)) as [H|H]; rewrite elem_of_seqZ in H.
    + destruct (decide (1 <= p <= n)%Z); [|lia]. now destruct (reloaded _).
    + destruct (decide (1 <= p <= n)%Z); [lia|reflexivity].
  - eapply Forall_impl; [exact Hks|]. now intros k [? _].
Qed.

Lemma createNotesTemplate_document (v : PDFNotesView) (m : gmap Z jsstring) :
  (forall k, (1 <= k <= numPagesOr0 v)%Z -> m !! k = Some TEMPLATE_NOTES) ->
  createNotesTemplate v
  = (notesHeading (pdfNameOf v) (pdfFileNameOf v) (numPagesOr0 v) ++ js "---\n\n")
    ++ concat (map (pageBlock m) (seqZ 1 (numPagesOr0 v))).
Proof.
  intros Hm.
  assert (E : map templateSection (seqZ 1 (numPagesOr0 v))
              = map (pageBlock m) (seqZ 1 (numPagesOr0 v))).
  { apply map_ext_in. intros k Hk.
    apply (proj2 (list_elem_of_In _ _)), elem_of_seqZ in Hk.
    apply templateSection_pageBlock, Hm. lia. }
  unfold createNotesTemplate, notesHeading. cbv zeta.
  rewrite E, <- !app_assoc. reflexivity.
Qed.

Lemma templateNotes_lookup (n k : Z) :
  templateNotes n !! k
  = if decide (1 <= k <= n)%Z then Some TEMPLATE_NOTES else None.
Proof.
  unfold templateNotes. rewrite lookup_gset_to_gmap.
  destruct (decide (1 <= k <= n)%Z) as [H|H].
  - rewrite option_guard_True; [reflexivity|].
    apply elem_of_list_to_set, elem_of_seqZ. lia.
  - rewrite option_guard_False; [reflexivity|].
    rewrite elem_of_list_to_set, elem_of_seqZ. lia.
Qed.

Lemma parseExistingNotes_createNotesTemplate (v : PDFNotesView) (p : Z) :
  markerFree (notesHeading (pdfNameOf v) (pdfFileNameOf v) (numPagesOr0 v)) = true ->
  parseExistingNotes (createNotesTemplate v) !! p
  = if decide (1 <= p <= numPagesOr0 v)%Z then Some TEMPLATE_NOTES else None.
Proof.
  intros Hh.
  assert (Hm : forall k, (1 <= k <= numPagesOr0 v)%Z ->
                 templateNotes (numPagesOr0 v) !! k = Some TEMPLATE_NOTES).
  { intros k Hk. rewrite templateNotes_lookup. now destruct (decide _). }
  rewrite (createNotesTemplate_document v _ Hm).
  rewrite parseExistingNotes_document.
  - destruct (decide _) as [H|H]; [|reflexivity].
    unfold writtenText. rewrite (Hm p H). reflexivity.
  - destruct (notesHeading_line (pdfNameOf v) (pdfFileNameOf v) (numPagesOr0 v))
      as [t E].
    rewrite E in Hh |- *. now apply markerFree_after_line.
  - destruct (notesHeading_line (pdfNameOf v) (pdfFileNameOf v) (numPagesOr0 v))
      as [t E].
    exists (notesHeading (pdfNameOf v) (pdfFileNameOf v) (numPagesOr0 v)
              ++ js "---\n"), 10.
    split; [|reflexivity]. rewrite <- app_assoc. reflexivity.
  - intros k Hk. unfold writtenText. rewrite (Hm k Hk). reflexivity.
Qed.

(** ** What [parseExistingNotes] stores *)

Lemma list_ind2 {A : Type} (P : list A -> Prop) :
  P [] -> (forall a, P [a]) -> (forall a b l, P l -> P (a :: b :: l)) ->
  forall l, P l.
Proof.
  intros H0 H1 H2.
  assert (H : forall l, P l /\ forall a, P (a :: l)).
  { induction l as [|b l [IH1 IH2]]; split; auto. }
  intros l. apply H.
Qed.

Lemma sectionsOf_trimmed (pieces : list jsstring) :
  Forall (fun section => trim (snd section) = snd section) (sectionsOf pieces).
Proof.
  induction pieces as [|number|number text rest IH] using list_ind2; simpl.
  - constructor.
  - constructor; [reflexivity|constructor].
  - constructor; [apply trim_idem|exact IH].
Qed.

Lemma sectionsOf_numbers (pieces : list jsstring) (x : jsstring) :
  map fst (sectionsOf pieces) = map parseInt (captures (x :: pieces)).
Proof.
  revert x.
  induction pieces as [|number|number text rest IH] using list_ind2; intros x.
  - reflexivity.
  - reflexivity.
  - simpl. f_equal. exact (IH text).
Qed.

Lemma parseStep_nonneg (ds : jsstring) (a : Z) :
  forallb isDigit ds = true -> (0 <= a)%Z -> (0 <= fold_left parseStep ds a)%Z.
Proof.
  revert a. induction ds as [|d ds IH]; intros a H Ha; simpl; [exact Ha|].
  simpl in H. apply andb_true_iff in H as [Hd H].
  apply IH; [exact H|]. unfold parseStep, isDigit in *.
  apply andb_true_iff in Hd as [Hd _]. apply N.leb_le in Hd. lia.
Qed.

Lemma parseInt_nonneg (ds : jsstring) :
  forallb isDigit ds = true -> (0 <= parseInt ds)%Z.
Proof. intros H. now apply (parseStep_nonneg ds 0%Z). Qed.

Lemma splitPieces_nonempty (skip : nat) (bol : bool) (s : jsstring) :
  splitPieces skip bol s <> [].
Proof.
  revert skip bol. induction s as [|c s IH]; intros skip bol; simpl; [discriminate|].
  destruct skip; [|apply IH].
  destruct (if bol then matchMarker (c :: s) else None); [discriminate|].
  specialize (IH O (isLineTerminator c)).
  destruct (splitPieces 0 (isLineTerminator c) s); [congruence|discriminate].
Qed.

Lemma captures_digits (content : jsstring) :
  Forall (fun ds => forallb isDigit ds = true) (captures (split content)).
Proof.
  rewrite captures_split_lines. apply List.Forall_forall. intros ds H.
  apply (proj2 (list_elem_of_In _ _)), list_elem_of_omap in H as (l & _ & H).
  now apply markerDigits_Some in H as (_ & _ & H).
Qed.

Lemma sections_of_content (content : jsstring) (section : Z * jsstring) :
  In section (sectionsOf (tail (split content))) ->
  (0 <= fst section)%Z /\ trim (snd section) = snd section.
Proof.
  intros H. split.
  - pose proof (splitPieces_nonempty 0 true content) as N.
    pose proof (captures_digits content) as D.
    unfold split in *. destruct (splitPieces 0 true content) as [|x pieces]; [congruence|].
    simpl in H. apply (in_map fst) in H.
    rewrite (sectionsOf_numbers pieces x) in H.
    apply in_map_iff in H as (ds & <- & H).
    apply parseInt_nonneg. exact (proj1 (List.Forall_forall _ _) D ds H).
  - exact (proj1 (List.Forall_forall _ _) (sectionsOf_trimmed _) section H).
Qed.

Lemma tail_prependPiece (x : jsstring) (pieces : list jsstring) :
  pieces <> [] -> tail (prependPiece x pieces) = tail pieces.
Proof. destruct pieces; [congruence|reflexivity]. Qed.

(** ** main.ts: turning pages *)

Lemma normalizeLineBreaks_plain (s : jsstring) :
  ~ In 13 s -> normalizeLineBreaks s = s.
Proof.
  induction s as [|c s IH]; intros H; simpl; [reflexivity|].
  destruct (N.eqb_spec c 13) as [->|_]; [exfalso; apply H; now left|].
  f_equal. apply IH. intros I. apply H. now right.
Qed.

Lemma normalizeLineBreaks_no_cr (s : jsstring) : ~ In 13 (normalizeLineBreaks s).
Proof.
  assert (H : forall s, ~ In 13 (normalizeLineBreaks s)
                        /\ forall c, ~ In 13 (normalizeLineBreaks (c :: s))).
  { clear s. induction s as [|d s [IH1 IH2]].
    - split; [tauto|]. intros c. simpl.
      destruct (N.eqb_spec c 13); simpl; intros [E|[]]; [discriminate|congruence].
    - split; [apply IH2|]. intros c.
      change (normalizeLineBreaks (c :: d :: s))
        with (if c =? 13
              then 10 :: (if d =? 10 then normalizeLineBreaks s
                          else normalizeLineBreaks (d :: s))
              else c :: normalizeLineBreaks (d :: s)).
      destruct (N.eqb_spec c 13) as [->|Hc].
      + destruct (d =? 10); intros [E|I]; try discriminate;
          [now apply IH1 in I|now apply IH2 in I].
      + intros [E|I]; [congruence|now apply IH2 in I]. }
  apply H.
Qed.

Lemma normalizeLineBreaks_idem (s : jsstring) :
  normalizeLineBreaks (normalizeLineBreaks s) = normalizeLineBreaks s.
Proof. apply normalizeLineBreaks_plain, normalizeLineBreaks_no_cr. Qed.

(** Turning to [page] with [doc] in the editor. *)
Lemma updateNotesForPage_ready (r : Run PDFNotesView) (file : TFile) (doc : jsstring) :
  currentNotesFile (view r) = Some file ->
  notesEditor (view r) = Some doc ->
  normalizeLineBreaks doc = doc ->
  updateNotesForPage r
  = {| view := editView doc (view r); clock := clock r;
       timeout := match doc with
                  | [] => timeout r
                  | _ => Some (clock r + DEBOUNCE_MS)
                  end;
       modified := modified r |}.
Proof.
  destruct r as [v k t m]. cbn [view clock timeout modified].
  intros F E N. unfold updateNotesForPage. cbn [view]. rewrite F.
  unfold loadNotesForCurrentPage, onView, saveCurrentPageNotes.
  cbn [view clock timeout modified]. rewrite E.
  cbn [setPageNotes notesEditor].
  unfold dispatchReplaceAll, pageContentOf.
  cbn [view notesEditor pageNotes currentPage setPageNotes].
  rewrite ?E, lookup_insert_eq.
  destruct doc as [|c doc].
  - unfold editView. now rewrite <- E.
  - unfold docChanged, updateListener. cbn [view notesEditor clock modified].
    rewrite ?E, N. unfold editView. cbn. now rewrite E, insert_insert_eq.
Qed.

Lemma turn_page (r : Run PDFNotesView) (file : TFile) (doc : jsstring) (page : Z) :
  currentNotesFile (view r) = Some file ->
  notesEditor (view r) = Some doc ->
  ~ In 13 doc ->
  updateNotesForPage (onView (setCurrentPage page) r)
  = {| view := editView doc (setCurrentPage page (view r)); clock := clock r;
       timeout := match doc with
                  | [] => timeout r
                  | _ => Some (clock r + DEBOUNCE_MS)
                  end;
       modified := modified r |}.
Proof.
  intros F E N.
  rewrite (updateNotesForPage_ready _ file doc); try assumption.
  - reflexivity.
  - now apply normalizeLineBreaks_plain.
Qed.

Lemma openView_turn (file : TFile) (doc : jsstring) (n page : Z) (v : PDFNotesView) :
  openView file doc n v -> (1 <= page <= n)%Z ->
  openView file doc n (editView doc (setCurrentPage page v)).
Proof. intros (F & E & P & B) H. repeat split; try assumption; cbn; lia. Qed.

Lemma navClick_open (file : TFile) (doc : jsstring) (n : Z)
    (r : Run PDFNotesView) (click : NavClick) :
  openView file doc n (view r) -> ~ In 13 doc ->
  openView file doc n (view (navClick r click))
  /\ forall q, pageNotes (view (navClick r click)) !! q = Some doc
               \/ pageNotes (view (navClick r click)) !! q = pageNotes (view r) !! q.
Proof.
  intros O N. pose proof O as (F & E & P & B).
  destruct click; simpl.
  - unfold prevClick. destruct (Z.ltb_spec 1 (currentPage (view r))) as [H|H].
    + rewrite (turn_page r file doc) by assumption. cbn [view]. split.
      * apply openView_turn; [exact O|lia].
      * intros q. cbn.
        destruct (decide (q = currentPage (view r) - 1)%Z) as [->|D].
        -- left. apply lookup_insert_eq.
        -- right. now apply lookup_insert_ne.
    + split; [exact O|now right].
  - unfold nextClick. rewrite P.
    destruct (Z.ltb_spec (currentPage (view r)) n) as [H|H].
    + rewrite (turn_page r file doc) by assumption. cbn [view]. split.
      * apply openView_turn; [exact O|lia].
      * intros q. cbn.
        destruct (decide (q = currentPage (view r) + 1)%Z) as [->|D].
        -- left. apply lookup_insert_eq.
        -- right. now apply lookup_insert_ne.
    + split; [exact O|now right].
Qed.

Lemma navClicks_open (file : TFile) (doc : jsstring) (n : Z)
    (clicks : list NavClick) (r : Run PDFNotesView) :
  openView file doc n (view r) -> ~ In 13 doc ->
  openView file doc n (view (navClicks clicks r))
  /\ forall q, pageNotes (view (navClicks clicks r)) !! q = Some doc
               \/ pageNotes (view (navClicks clicks r)) !! q = pageNotes (view r) !! q.
Proof.
  intros O N. revert r O. unfold navClicks.
  induction clicks as [|click clicks IH]; intros r O; simpl.
  - split; [exact O|now right].
  - destruct (navClick_open file doc n r click O N) as [O1 Q1].
    destruct (IH _ O1) as [O2 Q2]. split; [exact O2|].
    intros q. destruct (Q2 q) as [H|H]; [now left|]. rewrite H. apply Q1.
Qed.

Lemma fire_after_turn (v : PDFNotesView) (file : TFile) (doc : jsstring)
    (now wait : N) (log : list (N * TFile * jsstring)) :
  currentNotesFile v = Some file ->
  DEBOUNCE_MS <= wait ->
  elapse saveAllNotesToFile wait
    {| view := editView doc v; clock := now;
       timeout := Some (now + DEBOUNCE_MS); modified := log |}
  = {| view := editView doc v; clock := now + wait; timeout := None;
       modified := log ++ [(now + DEBOUNCE_MS, file, fullContent (editView doc v))] |}.
Proof.
  intros F W. unfold elapse. cbn [timeout clock].
  destruct (N.leb_spec (now + DEBOUNCE_MS) (now + wait)) as [_|H]; [|lia].
  unfold fireTimeout. cbn [view modified].
  unfold saveAllNotesToFile. cbn [editView currentNotesFile]. rewrite F.
  fold (editView doc v). rewrite saveCurrentPageNotes_editView. reflexivity.
Qed.

(** ** main.ts: opening the notes *)

Lemma loadNotesEditor_ready (content : jsstring) (r : Run PDFNotesView) (file : TFile) :
  currentNotesFile (view r) = Some file ->
  loadNotesEditor content r
  = {| view := editView
                 (normalizeLineBreaks (pageContentOf (reloadNotes (view r) content)))
                 (reloadNotes (view r) content);
       clock := clock r;
       timeout := match normalizeLineBreaks
                          (pageContentOf (reloadNotes (view r) content)) with
                  | [] => timeout r
                  | _ => Some (clock r + DEBOUNCE_MS)
                  end;
       modified := modified r |}.
Proof.
  intros F. unfold loadNotesEditor. rewrite F. cbv zeta.
  rewrite (updateNotesForPage_ready _ file
             (normalizeLineBreaks (pageContentOf (reloadNotes (view r) content)))).
  - reflexivity.
  - exact F.
  - reflexivity.
  - apply normalizeLineBreaks_idem.
Qed.

Lemma pageBlocks_ext (m1 m2 : gmap Z jsstring) (n : Z) :
  (forall k, (1 <= k <= n)%Z -> m1 !! k = m2 !! k) ->
  pageBlocks m1 n = pageBlocks m2 n.
Proof.
  intros H. unfold pageBlocks. f_equal. apply map_ext_in. intros k Hk.
  apply (proj2 (list_elem_of_In _ _)), elem_of_seqZ in Hk.
  unfold pageBlock. rewrite H by lia. reflexivity.
Qed.

Lemma pageBlocks_template (n : Z) :
  pageBlocks (templateNotes n) n
  = concat (map (fun k => js "## Page " ++ numberToString k ++ js "\n\n"
                          ++ TEMPLATE_NOTES ++ js "\n\n") (seqZ 1 n)).
Proof.
  unfold pageBlocks. f_equal. apply map_ext_in. intros k Hk.
  apply (proj2 (list_elem_of_In _ _)), elem_of_seqZ in Hk.
  unfold pageBlock. rewrite templateNotes_lookup.
  destruct (decide (1 <= k <= n)%Z); [reflexivity|lia].
Qed.

(** ** part_002: where the cursor goes *)

Lemma indexOf_nonneg (pat s : jsstring) :
  indexOf pat s = (-1)%Z \/ (0 <= indexOf pat s)%Z.
Proof.
  induction s as [|c s IH]; simpl.
  - destruct (startsWith pat []); [right; lia|now left].
  - destruct (startsWith pat (c :: s)); [right; lia|].
    destruct (Z.eqb_spec (indexOf pat s) (-1)); [now left|right; lia].
Qed.

Lemma includes_suffix (pat x y : jsstring) :
  includes pat (x ++ y) = false -> includes pat y = false.
Proof. intros H. now apply includes_app_false in H. Qed.

Lemma includes_false_startsWith (pat s : jsstring) :
  includes pat s = false -> startsWith pat s = false.
Proof.
  intros H. destruct (startsWith pat s) eqn:E; [|reflexivity].
  apply includes_startsWith in E. congruence.
Qed.

(** The first occurrence of a marker is where a text without it ends. *)
Lemma indexOf_after (pat x y : jsstring) :
  hashShape pat -> startsHash y ->
  includes pat x = false -> startsWith pat y = true ->
  indexOf pat (x ++ y) = Z.of_nat (length x).
Proof.
  intros Hp Hy Hx Hs. induction x as [|c x IH].
  - simpl. destruct y as [|d y]; simpl; now rewrite Hs.
  - change ((c :: x) ++ y) with (c :: (x ++ y)).
    cbn [indexOf]. change (c :: (x ++ y)) with ((c :: x) ++ y).
    rewrite startsWith_app_hash by (assumption || discriminate).
    rewrite (includes_false_startsWith _ _ Hx).
    rewrite includes_cons in Hx. apply orb_false_iff in Hx as [_ Hx].
    rewrite (IH Hx).
    destruct (Z.eqb_spec (Z.of_nat (length x)) (-1)); [lia|]. simpl length. lia.
Qed.

Lemma includes_longer (pat rest s : jsstring) :
  includes pat s = false -> includes (pat ++ rest) s = false.
Proof.
  intros H. induction s as [|c s IH].
  - simpl in *. apply orb_false_iff in H as [H _].
    rewrite orb_false_r in *. destruct (startsWith (pat ++ rest) []) eqn:E; [|reflexivity].
    apply startsWith_true in E as [r E]. destruct pat; [discriminate|discriminate].
  - rewrite includes_cons in *. apply orb_false_iff in H as [H1 H2].
    rewrite (IH H2), orb_false_r.
    destruct (startsWith (pat ++ rest) (c :: s)) eqn:E; [|reflexivity].
    apply startsWith_true in E as [r E]. rewrite <- app_assoc in E.
    rewrite E, startsWith_app in H1. discriminate.
Qed.

Lemma parseStep_grows (r : jsstring) (a : Z) :
  forallb isDigit r = true -> (0 <= a)%Z -> (a <= fold_left parseStep r a)%Z.
Proof.
  revert a. induction r as [|d r IH]; intros a H Ha; simpl; [lia|].
  simpl in H. apply andb_true_iff in H as [Hd H].
  unfold isDigit in Hd. apply andb_true_iff in Hd as [Hd _]. apply N.leb_le in Hd.
  assert (Hs : (a <= parseStep a d)%Z) by (unfold parseStep; lia).
  specialize (IH (parseStep a d) H ltac:(lia)). lia.
Qed.

(** The digits of a number begin those of no smaller number. *)
Lemma numberToString_prefix (k j : Z) (w : jsstring) :
  (0 <= k)%Z -> (0 <= j)%Z ->
  startsWith (numberToString k) (numberToString j ++ 10 :: w) = true ->
  (k <= j)%Z.
Proof.
  intros Hk Hj H.
  assert (L : (length (numberToString k) <= length (numberToString j))%nat).
  { apply (startsWith_stop _ _ 10 w); [|exact H].
    apply numberToString_not; [discriminate|reflexivity]. }
  rewrite startsWith_app_long in H by exact L.
  apply startsWith_true in H as [r E].
  pose proof (numberToString_digits j Hj) as Dj.
  rewrite E, forallb_app in Dj. apply andb_true_iff in Dj as [Dk Dr].
  pose proof (parseInt_numberToString j Hj) as Pj.
  rewrite E in Pj. unfold parseInt in Pj. rewrite fold_left_app in Pj.
  fold (parseInt (numberToString k)) in Pj.
  rewrite parseInt_numberToString in Pj by exact Hk.
  pose proof (parseStep_grows r k Dr Hk). unfold parseStep in *. lia.
Qed.

Lemma hashShape_pageHeader (p : Z) : hashShape (pageHeader p).
Proof.
  exists 32, (js "Page " ++ numberToString p). split; [reflexivity|].
  change (~ In 35 (js " Page " ++ numberToString p)).
  intros H. apply in_app_or in H as [H|H].
  - simpl in H. intuition discriminate.
  - revert H. apply numberToString_not; [discriminate|reflexivity].
Qed.

Lemma startsHash_templateSection (j : Z) (rest : jsstring) :
  startsHash (templateSection j ++ rest).
Proof. right. eexists. reflexivity. Qed.

Lemma templateSection_eq (j : Z) :
  templateSection j = PAGE_SP ++ numberToString j ++ 10 :: 10 :: TEMPLATE_REST.
Proof. reflexivity. Qed.

Lemma startsWith_same_prefix (p a b : jsstring) :
  startsWith (p ++ a) (p ++ b) = startsWith a b.
Proof.
  unfold startsWith. induction p as [|c p IH]; simpl; [reflexivity|].
  now rewrite N.eqb_refl.
Qed.

Lemma includes_after_hashes (pat x y : jsstring) (c : N) :
  c <> 35 -> ~ In 35 x ->
  includes (35 :: 35 :: pat) (35 :: 35 :: (c :: x) ++ y)
  = startsWith (35 :: 35 :: pat) (35 :: 35 :: (c :: x) ++ y)
    || includes (35 :: 35 :: pat) y.
Proof.
  intros Hc Hx. rewrite includes_cons. f_equal.
  rewrite includes_cons.
  replace (startsWith (35 :: 35 :: pat) (35 :: (c :: x) ++ y)) with false.
  - rewrite orb_false_l. apply (includes_skip_foreign 35 (35 :: pat) (c :: x) y).
    intros [E|I]; [congruence|tauto].
  - unfold startsWith. simpl. destruct (N.eqb_spec 35 c); [congruence|reflexivity].
Qed.

Lemma includes_templateSection (k j : Z) :
  (0 <= j < k)%Z -> includes (pageHeader k) (templateSection j) = false.
Proof.
  intros H.
  assert (E : templateSection j
              = 35 :: 35 :: (32 :: (js "Page " ++ numberToString j) ++ [10; 10])
                  ++ TEMPLATE_REST).
  { rewrite templateSection_eq. simpl. rewrite <- app_assoc. reflexivity. }
  assert (P : pageHeader k = 35 :: 35 :: 32 :: js "Page " ++ numberToString k)
    by reflexivity.
  rewrite P, E, includes_after_hashes.
  - apply orb_false_iff. split.
    + rewrite <- E, <- P.
      destruct (startsWith _ _) eqn:S; [|reflexivity]. exfalso.
      rewrite templateSection_eq in S. unfold pageHeader in S.
      rewrite startsWith_same_prefix in S.
      apply numberToString_prefix in S; lia.
    + reflexivity.
  - discriminate.
  - intros I. apply in_app_or in I as [I|I]; [|simpl in I; intuition discriminate].
    apply in_app_or in I as [I|I]; [simpl in I; intuition discriminate|].
    revert I. apply numberToString_not; [discriminate|reflexivity].
Qed.

Lemma startsHash_sections (ks : list Z) (rest : jsstring) :
  startsHash rest ->
  startsHash (concat (map templateSection ks) ++ rest).
Proof.
  intros H. destruct ks as [|k ks]; [exact H|]. cbn [map concat].
  rewrite <- app_assoc.
  apply startsHash_templateSection.
Qed.

Lemma includes_sections (k : Z) (ks : list Z) :
  Forall (fun j => (0 <= j < k)%Z) ks ->
  includes (pageHeader k) (concat (map templateSection ks)) = false.
Proof.
  induction 1 as [|j ks Hj _ IH]; cbn [map concat]; [reflexivity|].
  rewrite includes_app_hash.
  - exact IH.
  - apply hashShape_pageHeader.
  - rewrite <- (app_nil_r (concat _)). apply startsHash_sections. now left.
  - now apply includes_templateSection.
Qed.

Lemma pageHeader_chars (k : Z) (c : N) :
  (0 <= k)%Z -> In c (pageHeader k) -> In c (js "## Page ") \/ isDigit c = true.
Proof.
  intros Hk H. apply in_app_or in H as [H|H]; [now left|right].
  exact (proj1 (forallb_forall _ _) (numberToString_digits k Hk) c H).
Qed.

(** The template up to the section of page [k]. *)
Lemma createNotesTemplate_split (v : PDFNotesView) (k : Z) :
  (1 <= k <= numPagesOr0 v)%Z ->
  createNotesTemplate v
  = ((notesHeading (pdfNameOf v) (pdfFileNameOf v) (numPagesOr0 v) ++ js "---\n\n")
     ++ concat (map templateSection (seqZ 1 (k - 1))))
    ++ templateSection k
    ++ concat (map templateSection (seqZ (k + 1) (numPagesOr0 v - k))).
Proof.
  intros Hk. unfold createNotesTemplate, notesHeading. cbv zeta.
  replace (numPagesOr0 v) with ((k - 1) + (1 + (numPagesOr0 v - k)))%Z at 2 by lia.
  rewrite seqZ_app by lia.
  rewrite (seqZ_cons (1 + (k - 1))) by lia.
  replace (1 + (k - 1))%Z with k by lia.
  replace (Z.succ k) with (k + 1)%Z by lia.
  replace (Z.pred (1 + (numPagesOr0 v - k))) with (numPagesOr0 v - k)%Z by lia.
  rewrite map_app, concat_app. cbn [map concat].
  rewrite <- !app_assoc. reflexivity.
Qed.

Lemma indexOf_createNotesTemplate (v : PDFNotesView) (k : Z) :
  includes PAGE (notesHeading (pdfNameOf v) (pdfFileNameOf v) (numPagesOr0 v)) = false ->
  (1 <= k <= numPagesOr0 v)%Z ->
  indexOf (pageHeader k) (createNotesTemplate v)
  = Z.of_nat (length ((notesHeading (pdfNameOf v) (pdfFileNameOf v) (numPagesOr0 v)
                         ++ js "---\n\n")
                      ++ concat (map templateSection (seqZ 1 (k - 1))))).
Proof.
  intros Hh Hk. rewrite (createNotesTemplate_split v k Hk).
  apply indexOf_after.
  - apply hashShape_pageHeader.
  - apply startsHash_templateSection.
  - rewrite includes_app_hash.
    + apply includes_sections. apply List.Forall_forall. intros j Hj.
      apply (proj2 (list_elem_of_In _ _)), elem_of_seqZ in Hj. lia.
    + apply hashShape_pageHeader.
    + rewrite <- (app_nil_r (concat _)). apply startsHash_sections. now left.
    + apply includes_app_foreign.
      * discriminate.
      * intros c Hc Hp.
        destruct (pageHeader_chars k c ltac:(lia) Hp) as [Hq|Hq].
        -- change (In c [45; 45; 45; 10; 10]) in Hc.
           change (In c [35; 35; 32; 80; 97; 103; 101; 32]) in Hq.
           cbn [In] in Hc, Hq.
           destruct Hc as [<-|[<-|[<-|[<-|[<-|[]]]]]]; intuition discriminate.
        -- change (In c [45; 45; 45; 10; 10]) in Hc. cbn [In] in Hc.
           destruct Hc as [<-|[<-|[<-|[<-|[<-|[]]]]]]; discriminate.
      * unfold pageHeader.
        change PAGE_SP with (PAGE ++ [32]). rewrite <- app_assoc.
        now apply includes_longer.
  - rewrite templateSection_eq. unfold pageHeader.
    apply startsWith_app_true. rewrite app_assoc. apply startsWith_app.
Qed.

(** ** part_003: the copy of the PDF and of its notes *)

Lemma lastIndexOf_absent (c : N) (s : jsstring) :
  ~ In c s -> lastIndexOf c s = (-1)%Z.
Proof.
  induction s as [|d s IH]; intros H; simpl; [reflexivity|].
  rewrite IH by (intros I; apply H; now right). simpl.
  destruct (N.eqb_spec d c) as [->|_]; [exfalso; apply H; now left|reflexivity].
Qed.

Lemma lastIndexOf_last (c : N) (x y : jsstring) :
  ~ In c y -> lastIndexOf c (x ++ c :: y) = Z.of_nat (length x).
Proof.
  intros H. induction x as [|d x IH]; simpl.
  - rewrite lastIndexOf_absent by exact H. simpl. now rewrite N.eqb_refl.
  - rewrite IH. destruct (Z.eqb_spec (Z.of_nat (length x)) (-1)); lia.
Qed.

Lemma substring_prefix (x y : jsstring) :
  substring (x ++ y) 0 (Z.of_nat (length x)) = x.
Proof.
  unfold substring. rewrite length_app.
  replace (Z.min (Z.max 0 0) _) with 0%Z by lia.
  replace (Z.min (Z.max (Z.of_nat (length x)) 0) _) with (Z.of_nat (length x)) by lia.
  replace (Z.max 0 _ - Z.min 0 _)%Z with (Z.of_nat (length x)) by lia.
  replace (Z.min 0 (Z.of_nat (length x))) with 0%Z by lia.
  change (Z.to_nat 0) with 0%nat. rewrite drop_0, Nat2Z.id.
  apply take_app_length.
Qed.

Lemma substring_none (s : jsstring) : substring s 0 (-1) = [].
Proof.
  unfold substring.
  replace (Z.min (Z.max 0 0) _) with 0%Z by lia.
  replace (Z.min (Z.max (-1) 0) _) with 0%Z by lia.
  reflexivity.
Qed.

Lemma sanitizeSaveName_clean (saveName : jsstring) (c : N) :
  In c (sanitizeSaveName saveName) -> isReservedChar c = false.
Proof.
  unfold sanitizeSaveName. intros H. apply in_map_iff in H as (d & <- & _).
  destruct (isReservedChar d) eqn:E; [reflexivity|exact E].
Qed.

Lemma sanitizeSaveName_no_slash (saveName : jsstring) :
  ~ In 47 (sanitizeSaveName saveName).
Proof. intros H. now apply sanitizeSaveName_clean in H. Qed.

(** The folder of [folder/name.ext] when [name.ext] holds no slash. *)
Lemma folder_of_path (folder name : jsstring) :
  ~ In 47 name ->
  substring (folder ++ js "/" ++ name) 0 (lastIndexOf 47 (folder ++ js "/" ++ name))
  = folder.
Proof.
  intros H. change (js "/" ++ name) with (47 :: name).
  rewrite lastIndexOf_last by exact H. apply substring_prefix.
Qed.

Lemma truthyPath_Some (pdf : jsstring) : pdf <> [] -> truthyPath (Some pdf) = Some pdf.
Proof. destruct pdf; [congruence|reflexivity]. Qed.

Lemma savePdfWithNotes_eq (created : jsstring) (vault : gmap jsstring jsstring)
    (pdf saveName data : jsstring) :
  pdf <> [] -> vault !! pdf = Some data ->
  savePdfWithNotes created vault (Some pdf) saveName
  = (match <[newPdfPathOf pdf saveName := data]> vault !! notesFileOf pdf with
     | Some notesContent =>
         <[newNotesPathOf pdf saveName :=
             notesMetadata (sanitizeSaveName saveName) created ++ notesContent]>
           (<[newPdfPathOf pdf saveName := data]> vault)
     | None => <[newPdfPathOf pdf saveName := data]> vault
     end, Some (newPdfPathOf pdf saveName)).
Proof.
  intros T V. unfold savePdfWithNotes. rewrite truthyPath_Some by exact T.
  cbv zeta. rewrite V. reflexivity.
Qed.

Lemma newPaths_differ (pdf saveName : jsstring) :
  newNotesPathOf pdf saveName <> newPdfPathOf pdf saveName
  /\ notesFileOf (newPdfPathOf pdf saveName) <> newPdfPathOf pdf saveName
  /\ notesFileOf (newPdfPathOf pdf saveName) <> newNotesPathOf pdf saveName.
Proof.
  unfold newNotesPathOf, newPdfPathOf, notesFileOf.
  repeat split; intros E; apply (f_equal (@length N)) in E;
    repeat (rewrite ?length_app in E; simpl in E); lia.
Qed.

Lemma newPdfPathOf_folder (pdf saveName : jsstring) :
  substring (newPdfPathOf pdf saveName) 0 (lastIndexOf 47 (newPdfPathOf pdf saveName))
  = substring pdf 0 (lastIndexOf 47 pdf).
Proof.
  unfold newPdfPathOf. apply folder_of_path.
  intros H. apply in_app_or in H as [H|H].
  - now apply sanitizeSaveName_no_slash in H.
  - simpl in H. intuition discriminate.
Qed.

Lemma savePdfWithNotes_lookup (created : jsstring) (vault : gmap jsstring jsstring)
    (pdf saveName data path : jsstring) :
  pdf <> [] -> vault !! pdf = Some data ->
  path <> newPdfPathOf pdf saveName -> path <> newNotesPathOf pdf saveName ->
  fst (savePdfWithNotes created vault (Some pdf) saveName) !! path = vault !! path.
Proof.
  intros T V H1 H2. rewrite (savePdfWithNotes_eq _ _ _ _ data T V). cbn [fst].
  destruct (_ !! notesFileOf pdf).
  - rewrite !lookup_insert_ne by congruence. reflexivity.
  - rewrite lookup_insert_ne by congruence. reflexivity.
Qed.

Lemma savePdfWithNotes_copied (created : jsstring) (vault : gmap jsstring jsstring)
    (pdf saveName data : jsstring) :
  pdf <> [] -> vault !! pdf = Some data ->
  fst (savePdfWithNotes created vault (Some pdf) saveName) !! newPdfPathOf pdf saveName
  = Some data.
Proof.
  intros T V. rewrite (savePdfWithNotes_eq _ _ _ _ data T V). cbn [fst].
  pose proof (newPaths_differ pdf saveName) as (D & _ & _).
  destruct (_ !! notesFileOf pdf).
  - rewrite lookup_insert_ne by congruence. apply lookup_insert_eq.
  - apply lookup_insert_eq.
Qed.

Lemma loadNotes_same_file (vault vault' : gmap jsstring jsstring)
    (pdf : jsstring) (q : Z) :
  vault' !! notesFileOf pdf = vault !! notesFileOf pdf ->
  loadNotes vault' (Some pdf) q = loadNotes vault (Some pdf) q.
Proof.
  intros E. unfold loadNotes. destruct pdf as [|c pdf]; [reflexivity|].
  cbn [truthyPath]. cbv zeta. now rewrite E.
Qed.

Lemma defaultSaveName_pdf (stem : jsstring) :
  defaultSaveName (stem ++ js ".pdf") = stem ++ js "-copy".
Proof.
  unfold defaultSaveName. cbv zeta. rewrite length_app.
  change (length (js ".pdf")) with 4%nat.
  replace (length stem + 4 - 4)%nat with (length stem) by lia.
  rewrite drop_app_length, take_app_length.
  destruct (decide _); [reflexivity|congruence].
Qed.

Lemma defaultSaveName_path (folder base : jsstring) :
  defaultSaveName (folder ++ js "/" ++ base ++ js ".pdf")
  = folder ++ js "/" ++ base ++ js "-copy".
Proof.
  replace (folder ++ js "/" ++ base ++ js ".pdf")
    with ((folder ++ js "/" ++ base) ++ js ".pdf") by now rewrite <- !app_assoc.
  rewrite defaultSaveName_pdf. now rewrite <- !app_assoc.
Qed.

Lemma sanitizeSaveName_app (x y : jsstring) :
  sanitizeSaveName (x ++ y) = sanitizeSaveName x ++ sanitizeSaveName y.
Proof. apply map_app. Qed.

Lemma saveBtnClick_eq (created : jsstring) (vault : gmap jsstring jsstring)
    (pdf data : jsstring) :
  pdf <> [] -> vault !! pdf = Some data ->
  snd (saveBtnClick created vault true (Some pdf))
  = Some (newPdfPathOf pdf (defaultSaveName pdf)).
Proof.
  intros T V. unfold saveBtnClick. rewrite truthyPath_Some by exact T.
  now rewrite (savePdfWithNotes_eq _ _ _ _ data T V).
Qed.

Lemma newPdfPathOf_default (folder base : jsstring) :
  ~ In 47 base ->
  newPdfPathOf (folder ++ js "/" ++ base ++ js ".pdf")
    (defaultSaveName (folder ++ js "/" ++ base ++ js ".pdf"))
  = folder ++ js "/" ++ sanitizeSaveName folder ++ js "-" ++ sanitizeSaveName base
    ++ js "-copy.pdf".
Proof.
  intros H. unfold newPdfPathOf.
  rewrite folder_of_path.
  - rewrite defaultSaveName_path, !sanitizeSaveName_app, <- !app_assoc.
    reflexivity.
  - intros I. apply in_app_or in I as [I|I]; [tauto|].
    simpl in I. intuition discriminate.
Qed.

Lemma newPdfPathOf_default_root (base : jsstring) :
  ~ In 47 base ->
  newPdfPathOf (base ++ js ".pdf") (defaultSaveName (base ++ js ".pdf"))
  = js "/" ++ sanitizeSaveName base ++ js "-copy.pdf".
Proof.
  intros H. unfold newPdfPathOf.
  rewrite lastIndexOf_absent, substring_none.
  - rewrite defaultSaveName_pdf, sanitizeSaveName_app, <- !app_assoc. reflexivity.
  - intros I. apply in_app_or in I as [I|I]; [tauto|].
    simpl in I. intuition discriminate.
Qed.

(** ** part_003: the panes *)

Lemma updateVisibility_shown (s : Panes) : panesShown (updateVisibility s).
Proof. destruct s as [[] [] ? ? ? ?]; repeat split. Qed.

Lemma paneEvent_shown (s : Panes) (e : PaneEvent) :
  panesShown s -> panesShown (paneEvent s e).
Proof.
  intros H. destruct e; simpl;
    try apply updateVisibility_shown.
  - unfold togglePdfClick. destruct (_ && _); [exact H|apply updateVisibility_shown].
  - unfold toggleNotesClick. destruct (_ && _); [exact H|apply updateVisibility_shown].
Qed.

(** ** The zoom and the pages of the viewer *)

Section ZoomFacts.
Import PrimFloat.

Lemma zoomClick_steps (scale : float) (click : ZoomClick) :
  In scale zoomSteps -> In (zoomClick scale click) zoomSteps.
Proof.
  intros H. unfold zoomSteps in H. cbn [In] in H.
  repeat (destruct H as [<-|H]; [destruct click; vm_compute; tauto|]).
  destruct H.
Qed.

Lemma renderPage_first (fitScale : float) (s : PdfViewer) (n : Z) :
  viewerPages s = Some n -> (1 <= n)%Z ->
  renderPage fitScale 1 s
  = {| viewerPages := Some n; viewerPage := 1%Z; viewerScale := fitScale |}.
Proof.
  intros P H. unfold renderPage. rewrite P.
  destruct (Z.leb_spec 1 n); [|lia]. reflexivity.
Qed.

Lemma renderPage_range (fitScale : float) (page : Z) (s : PdfViewer) (n : Z) :
  viewerPages s = Some n -> (1 <= viewerPage s <= n)%Z ->
  viewerPages (renderPage fitScale page s) = Some n
  /\ (1 <= viewerPage (renderPage fitScale page s) <= n)%Z.
Proof.
  intros P H. unfold renderPage. rewrite P.
  destruct (Z.leb_spec 1 page); destruct (Z.leb_spec page n); simpl; auto with lia.
Qed.

Lemma viewerEvent_range (fitScale : float) (s : PdfViewer) (e : ViewerEvent) (n : Z) :
  viewerPages s = Some n -> (1 <= viewerPage s <= n)%Z ->
  viewerPages (viewerEvent fitScale s e) = Some n
  /\ (1 <= viewerPage (viewerEvent fitScale s e) <= n)%Z.
Proof.
  intros P H. destruct e; simpl.
  - unfold prevButtonClick. destruct (_ <? _)%Z; [now apply renderPage_range|auto].
  - unfold nextButtonClick. rewrite P.
    destruct (_ <? _)%Z; [now apply renderPage_range|auto].
  - unfold pageInputOnChange. rewrite P.
    destruct (pageInputChange n newPage); [now apply renderPage_range|auto].
  - unfold zoomOutButtonClick. now apply renderPage_range.
  - unfold zoomInButtonClick. now apply renderPage_range.
Qed.

End ZoomFacts.

(** ** part_003: leaving the notes area *)

Lemma trimStart_length (s : jsstring) : (length (trimStart s) <= length s)%nat.
Proof.
  induction s as [|c s IH]; simpl; [lia|].
  destruct (isWhiteSpace c); simpl; lia.
Qed.

Lemma trimEnd_length (s : jsstring) : (length (trimEnd s) <= length s)%nat.
Proof.
  unfold trimEnd. rewrite length_rev.
  etransitivity; [apply trimStart_length|]. now rewrite length_rev.
Qed.

Lemma trim_length (s : jsstring) : (length (trim s) <= length s)%nat.
Proof.
  unfold trim. etransitivity; [apply trimEnd_length|apply trimStart_length].
Qed.

Lemma trimmed_head (c : N) (text : jsstring) :
  trim (c :: text) = c :: text -> isWhiteSpace c = false.
Proof.
  intros H. destruct (isWhiteSpace c) eqn:E; [|reflexivity]. exfalso.
  unfold trim in H. simpl in H. rewrite E in H. fold (trim text) in H.
  pose proof (trim_length text) as L. rewrite H in L. simpl in L. lia.
Qed.

Lemma includes_trim (pat s : jsstring) :
  includes pat s = false -> includes pat (trim s) = false.
Proof.
  intros H. unfold trim. apply includes_trimEnd.
  destruct (trimStart_suffix s) as (w & E & _). rewrite E in H.
  now apply includes_suffix in H.
Qed.

(** What [loadNotes] returns holds no marker, and is trimmed. *)
Lemma loadNotesFrom_Some (content : jsstring) (p : Z) (notes : jsstring) :
  loadNotesFrom content p = Some notes ->
  includes (pageHeaderLine p) content = true
  /\ includes PAGE notes = false /\ trim notes = notes.
Proof.
  unfold loadNotesFrom.
  destruct (execSection _ _) as [[[before body] after]|] eqn:E; [|discriminate].
  intros [= <-].
  apply execSection_inv in E as (C & _ & B & _); [|apply pageHeaderLine_nonempty].
  split; [|split].
  - rewrite C. apply includes_app_r, includes_startsWith, startsWith_app.
  - now apply includes_trim.
  - apply trim_idem.
Qed.

Lemma loadNotesFrom_None (content : jsstring) (p : Z) :
  loadNotesFrom content p = None -> includes (pageHeaderLine p) content = false.
Proof.
  unfold loadNotesFrom.
  destruct (execSection _ _) as [[[before body] after]|] eqn:E; [discriminate|].
  intros _. now apply execSection_None_inv.
Qed.

Lemma loadNotesFrom_absent (content : jsstring) (p : Z) :
  includes (pageHeaderLine p) content = false -> loadNotesFrom content p = None.
Proof.
  intros H. unfold loadNotesFrom.
  rewrite execSection_None; [reflexivity|apply pageHeaderLine_nonempty|exact H].
Qed.

Lemma list_ind_two {A : Type} (P : list A -> Prop) :
  P [] -> (forall a, P [a]) ->
  (forall a b l, P l -> P (b :: l) -> P (a :: b :: l)) ->
  forall l, P l.
Proof.
  intros H0 H1 H2.
  assert (H : forall l, P l /\ forall a, P (a :: l)).
  { induction l as [|b l [IH1 IH2]]; split; auto. }
  intros l. apply H.
Qed.

Lemma normalizeLineBreaks_cons (c : N) (s : jsstring) :
  c <> 13 -> normalizeLineBreaks (c :: s) = c :: normalizeLineBreaks s.
Proof. intros H. simpl. now destruct (N.eqb_spec c 13). Qed.

Lemma normalizeLineBreaks_cr (d : N) (s : jsstring) :
  normalizeLineBreaks (13 :: d :: s)
  = 10 :: (if d =? 10 then normalizeLineBreaks s else normalizeLineBreaks (d :: s)).
Proof. reflexivity. Qed.

Lemma normalizeLineBreaks_snoc (s : jsstring) (d : N) :
  d <> 10 -> d <> 13 ->
  normalizeLineBreaks (s ++ [d]) = normalizeLineBreaks s ++ [d].
Proof.
  intros H10 H13.
  induction s as [|a|a b s IH1 IH2] using list_ind_two.
  - simpl. now destruct (N.eqb_spec d 13).
  - change ([a] ++ [d]) with [a; d].
    destruct (N.eqb_spec a 13) as [->|Ha].
    + rewrite normalizeLineBreaks_cr. destruct (N.eqb_spec d 10); [congruence|].
      simpl. now destruct (N.eqb_spec d 13).
    + rewrite !normalizeLineBreaks_cons by assumption. reflexivity.
  - change ((a :: b :: s) ++ [d]) with (a :: b :: (s ++ [d])).
    destruct (N.eqb_spec a 13) as [->|Ha].
    + rewrite !normalizeLineBreaks_cr. destruct (b =? 10).
      * now rewrite IH1.
      * change (b :: s ++ [d]) with ((b :: s) ++ [d]). now rewrite IH2.
    + rewrite !(normalizeLineBreaks_cons a) by assumption.
      change (b :: s ++ [d]) with ((b :: s) ++ [d]). now rewrite IH2.
Qed.

Lemma startsWith_normalizeLineBreaks (pat s : jsstring) :
  ~ In 10 pat ->
  startsWith pat (normalizeLineBreaks s) = true -> startsWith pat s = true.
Proof.
  revert s. induction pat as [|p pat IH]; intros s H S; [reflexivity|].
  destruct s as [|c s]; [discriminate|].
  destruct (N.eqb_spec c 13) as [->|Hc].
  - exfalso. unfold startsWith in S.
    assert (E : exists r, normalizeLineBreaks (13 :: s) = 10 :: r).
    { destruct s; eexists; reflexivity. }
    destruct E as [r E]. rewrite E in S. simpl in S.
    destruct (N.eqb_spec p 10) as [->|_]; [apply H; now left|discriminate].
  - rewrite normalizeLineBreaks_cons in S by exact Hc.
    unfold startsWith in *. simpl in *.
    destruct (p =? c); [|discriminate].
    apply IH; [intros I; apply H; now right|exact S].
Qed.

Lemma includes_normalizeLineBreaks (pat s : jsstring) :
  pat <> [] -> ~ In 10 pat ->
  includes pat s = false -> includes pat (normalizeLineBreaks s) = false.
Proof.
  intros Hn H.
  assert (F : forall s, includes pat s = false ->
                startsWith pat (normalizeLineBreaks s) = false).
  { intros s0 I. destruct (startsWith pat (normalizeLineBreaks s0)) eqn:S;
      [|reflexivity].
    apply startsWith_normalizeLineBreaks in S; [|exact H].
    apply includes_startsWith in S. congruence. }
  assert (T : forall r, startsWith pat (10 :: r) = false).
  { intros r. destruct pat as [|p pat]; [congruence|].
    unfold startsWith. simpl.
    destruct (N.eqb_spec p 10) as [->|_]; [exfalso; apply H; now left|reflexivity]. }
  induction s as [|a|a b s IH1 IH2] using list_ind_two; intros I.
  - exact I.
  - destruct (N.eqb_spec a 13) as [->|Ha].
    + change (normalizeLineBreaks [13]) with [10].
      rewrite includes_cons, T. simpl. now rewrite startsWith_nil_r.
    + rewrite normalizeLineBreaks_cons by exact Ha.
      rewrite <- (normalizeLineBreaks_cons a []) by exact Ha. 
      rewrite normalizeLineBreaks_cons by exact Ha.
      rewrite includes_cons.
      rewrite <- (normalizeLineBreaks_cons a []) at 1 by exact Ha.
      rewrite (F [a] I). simpl. now rewrite startsWith_nil_r.
  - assert (Ib : includes pat (b :: s) = false).
    { rewrite includes_cons in I. now apply orb_false_iff in I. }
    assert (Is : includes pat s = false).
    { rewrite includes_cons in Ib. now apply orb_false_iff in Ib. }
    destruct (N.eqb_spec a 13) as [->|Ha].
    + rewrite normalizeLineBreaks_cr, includes_cons, T. simpl.
      destruct (b =? 10); auto.
    + pose proof (F _ I) as Fa.
      rewrite normalizeLineBreaks_cons in Fa |- * by exact Ha.
      rewrite includes_cons, Fa. simpl. auto.
Qed.

Lemma trimmed_start (s : jsstring) : trim s = s -> trimStart s = s.
Proof.
  intros H. destruct s as [|c s]; [reflexivity|].
  simpl. now rewrite (trimmed_head c s H).
Qed.

Lemma trimStart_fixed_head (c : N) (s : jsstring) :
  trimStart (c :: s) = c :: s -> isWhiteSpace c = false.
Proof.
  intros H. destruct (isWhiteSpace c) eqn:E; [|reflexivity]. exfalso.
  simpl in H. rewrite E in H.
  pose proof (trimStart_length s) as L. rewrite H in L. simpl in L. lia.
Qed.

Lemma trimmed_last (x : jsstring) (d : N) :
  trim (x ++ [d]) = x ++ [d] -> isWhiteSpace d = false.
Proof.
  intros H. pose proof (trimmed_start _ H) as S.
  unfold trim in H. rewrite S in H. unfold trimEnd in H.
  apply (f_equal (@rev N)) in H. rewrite rev_involutive, rev_app_distr in H.
  simpl in H. now apply trimStart_fixed_head in H.
Qed.

Lemma isWhiteSpace_breaks (d : N) : isWhiteSpace d = false -> d <> 10 /\ d <> 13.
Proof. intros H. split; intros ->; discriminate. Qed.

Lemma trimEnd_snoc (x : jsstring) (d : N) :
  isWhiteSpace d = false -> trimEnd (x ++ [d]) = x ++ [d].
Proof.
  intros H. rewrite trimEnd_app.
  assert (E : trimEnd [d] = [d]).
  { apply trimEnd_keep. intros c [<-|[]]. exact H. }
  now rewrite E.
Qed.

Lemma trim_normalizeLineBreaks (s : jsstring) :
  trim s = s -> trim (normalizeLineBreaks s) = normalizeLineBreaks s.
Proof.
  intros H. destruct s as [|c t]; [reflexivity|].
  pose proof (trimmed_head c t H) as Hc.
  destruct (isWhiteSpace_breaks c Hc) as [_ H13].
  destruct (exists_last (l := c :: t) ltac:(discriminate)) as (x & d & E).
  rewrite E in H |- *.
  pose proof (trimmed_last x d H) as Hd.
  destruct (isWhiteSpace_breaks d Hd) as [D10 D13].
  rewrite normalizeLineBreaks_snoc by assumption.
  unfold trim.
  assert (S : trimStart (normalizeLineBreaks x ++ [d]) = normalizeLineBreaks x ++ [d]).
  { destruct x as [|c' x'].
    - simpl. now rewrite Hd.
    - injection E as <- _. rewrite normalizeLineBreaks_cons by exact H13.
      simpl. now rewrite Hc. }
  rewrite S. now apply trimEnd_snoc.
Qed.

Lemma noteAreaValue_Some (c : N) (text : jsstring) :
  trim (c :: text) = c :: text ->
  exists text',
    noteAreaValue (Some (c :: text)) = c :: text'
    /\ trim (c :: text') = c :: text'
    /\ normalizeLineBreaks (c :: text') = c :: text'.
Proof.
  intros T. pose proof (trimmed_head c text T) as Hc.
  destruct (isWhiteSpace_breaks c Hc) as [_ H13].
  exists (normalizeLineBreaks text). cbn [noteAreaValue].
  rewrite normalizeLineBreaks_cons by exact H13. split; [reflexivity|].
  rewrite <- normalizeLineBreaks_cons by exact H13. split.
  - now apply trim_normalizeLineBreaks.
  - apply normalizeLineBreaks_idem.
Qed.

(** Saving what the page shows, over the content read. *)
Lemma saveNotesInto_shown (content : jsstring) (p q : Z) :
  loadNotesFrom content p <> Some [] ->
  hasSubstitution (noteAreaValue (loadNotesFrom content p)) = false ->
  noteAreaValue
    (loadNotesFrom (saveNotesInto content p (noteAreaValue (loadNotesFrom content p))) q)
  = noteAreaValue (loadNotesFrom content q).
Proof.
  intros B S.
  assert (P : includes PAGE (noteAreaValue (loadNotesFrom content p)) = false).
  { destruct (loadNotesFrom content p) as [[|c text]|] eqn:E; try reflexivity.
    apply loadNotesFrom_Some in E as (_ & P & _). cbn [noteAreaValue].
    apply includes_normalizeLineBreaks; [discriminate| |exact P].
    vm_compute. intuition discriminate. }
  destruct (decide (q = p)) as [->|D].
  - destruct (loadNotesFrom content p) as [[|c text]|] eqn:E; [congruence| |].
    + apply loadNotesFrom_Some in E as (_ & _ & T).
      destruct (noteAreaValue_Some c text T) as (text' & V & T' & N').
      rewrite V in *.
      rewrite loadNotesFrom_saveNotesInto; try assumption.
      * rewrite T'. cbn [noteAreaValue]. exact N'.
      * right. simpl. now rewrite (trimmed_head c text' T').
    + apply loadNotesFrom_None in E. cbn [noteAreaValue].
      rewrite loadNotesFrom_saveNotesInto; try reflexivity. now left.
  - rewrite loadNotesFrom_saveNotesInto_other; try assumption. reflexivity.
Qed.

Lemma includes_header_fresh (q : Z) :
  includes (pageHeaderLine q) (js "# PDF Notes\n\n") = false.
Proof. reflexivity. Qed.

(** ** part_003: the folders offered *)

Lemma setAdd_NoDup (x : jsstring) (set : list jsstring) :
  NoDup set -> NoDup (setAdd x set).
Proof.
  intros H. unfold setAdd. destruct (decide (x ∈ set)) as [|N]; [exact H|].
  apply NoDup_app. split; [exact H|]. split.
  - intros y Hy Hx. apply list_elem_of_singleton in Hx. now subst.
  - apply NoDup_singleton.
Qed.

Lemma setAdd_elem (x y : jsstring) (set : list jsstring) :
  y ∈ setAdd x set -> y ∈ set \/ y = x.
Proof.
  unfold setAdd. destruct (decide (x ∈ set)); [now left|].
  intros H. apply elem_of_app in H as [H|H]; [now left|right].
  now apply list_elem_of_singleton in H.
Qed.

Lemma pdfFolders_spec (files : list VaultFile) :
  NoDup (pdfFolders files)
  /\ forall folder, folder ∈ pdfFolders files ->
       exists file, In file files /\ extension file = js "pdf"
                    /\ parentPath file <> Some (js "/")
                    /\ default [] (parentPath file) = folder.
Proof.
  unfold pdfFolders.
  assert (H : forall (seen : list VaultFile) (set : list jsstring),
             NoDup set ->
             (forall folder, folder ∈ set ->
                exists file, In file seen /\ extension file = js "pdf"
                             /\ parentPath file <> Some (js "/")
                             /\ default [] (parentPath file) = folder) ->
             let result :=
               fold_left
                 (fun set file =>
                    if decide (extension file = js "pdf"
                               /\ parentPath file <> Some (js "/"))
                    then setAdd (default [] (parentPath file)) set
                    else set) files set in
             NoDup result
             /\ forall folder, folder ∈ result ->
                  exists file, In file (seen ++ files) /\ extension file = js "pdf"
                               /\ parentPath file <> Some (js "/")
                               /\ default [] (parentPath file) = folder).
  { induction files as [|file files IH]; intros seen set N S; simpl.
    - split; [exact N|]. intros folder Hf. rewrite app_nil_r. now apply S.
    - replace (seen ++ file :: files) with ((seen ++ [file]) ++ files)
        by now rewrite <- app_assoc.
      apply IH.
      + destruct (decide _); [now apply setAdd_NoDup|exact N].
      + intros folder Hf.
        destruct (decide _) as [[E P]|_].
        * apply setAdd_elem in Hf as [Hf| ->].
          -- destruct (S folder Hf) as (f & I & ?). exists f.
             split; [apply in_or_app; now left|assumption].
          -- exists file. split; [apply in_or_app; right; now left|auto].
        * destruct (S folder Hf) as (f & I & ?). exists f.
          split; [apply in_or_app; now left|assumption]. }
  apply (H [] []); [constructor|]. intros folder Hf. inversion Hf.
Qed.

Lemma findPdfIn_found (folder : jsstring) (files : list VaultFile) (file : VaultFile) :
  In file files -> extension file = js "pdf" -> parentPath file = Some folder ->
  exists found, findPdfIn folder files = Some found
                /\ extension found = js "pdf" /\ parentPath found = Some folder.
Proof.
  intros I E P. unfold findPdfIn.
  destruct (List.find _ files) as [found|] eqn:F.
  - exists found. split; [reflexivity|].
    apply find_some in F as [_ F]. apply andb_true_iff in F as [F1 F2].
    apply bool_decide_eq_true in F1, F2. auto.
  - exfalso. apply (find_none _ _ F) in I.
    rewrite !bool_decide_eq_true_2 in I by assumption. discriminate.
Qed.

Lemma loadSavedPdf_Some (files : list VaultFile) (folders : list jsstring) :
  loadSavedPdf files = Some folders ->
  folders = List.filter (fun path => negb (bool_decide (path = [])))
              (pdfFolders files).
Proof.
  unfold loadSavedPdf. destruct (pdfFolders files); [discriminate|].
  intros H. injection H as <-. reflexivity.
Qed.

(** ** part_003: what a save leaves in the vault *)

Lemma getSubstitution_skip (matched before after x y : jsstring) :
  ~ In 36 x ->
  getSubstitution matched before after (x ++ y)
  = x ++ getSubstitution matched before after y.
Proof.
  induction x as [|c x IH]; intros H; [reflexivity|].
  assert (Hc : c <> 36) by (intros ->; apply H; now left).
  simpl. destruct (N.eqb_spec c 36) as [->|_]; [congruence|].
  f_equal. apply IH. intros I. apply H. now right.
Qed.

Lemma includes_pageHeader_saved (content : jsstring) (p : Z) (notes : jsstring) :
  includes (pageHeader p) (saveNotesInto content p notes) = true.
Proof.
  unfold saveNotesInto.
  destruct (execSection _ _) as [[[before body] after]|].
  - apply includes_app_r, includes_app_l.
    rewrite trim_newPageContent, getSubstitution_skip by apply pageHeader_plain.
    apply includes_startsWith, startsWith_app.
  - apply includes_app_r, includes_startsWith, startsWith_app.
Qed.

Lemma saveNotes_vault (vault : gmap jsstring jsstring) (pdf : jsstring)
    (p : Z) (notes : jsstring) :
  pdf <> [] ->
  fst (saveNotes vault (Some pdf) p notes)
  = <[notesFileOf pdf :=
        saveNotesInto (default (js "# PDF Notes\n\n") (vault !! notesFileOf pdf))
          p notes]> vault.
Proof.
  intros T. unfold saveNotes. rewrite truthyPath_Some by exact T. cbv zeta.
  cbn [fst]. now destruct (vault !! notesFileOf pdf).
Qed.

(** ** main.ts: the markers of the document written *)

Lemma captures_blocks (m : gmap Z jsstring) (ks : list Z) (x : jsstring) :
  captures (x :: flat_map (blockPieces m) ks) = map numberToString ks.
Proof.
  revert x. induction ks as [|k ks IH]; intros x; [reflexivity|].
  cbn [flat_map blockPieces app captures map]. f_equal. exact (IH []).
Qed.


(** ** main.ts: the document read and written again *)

Lemma pageBlocks_same_text (m1 m2 : gmap Z jsstring) (n : Z) :
  (forall k, (1 <= k <= n)%Z -> writtenText m1 k = writtenText m2 k) ->
  pageBlocks m1 n = pageBlocks m2 n.
Proof.
  intros H. unfold pageBlocks. f_equal. apply map_ext_in. intros k Hk.
  apply (proj2 (list_elem_of_In _ _)), elem_of_seqZ in Hk.
  rewrite !pageBlock_eq, H by lia. reflexivity.
Qed.

Lemma writtenText_cases (m : gmap Z jsstring) (k : Z) :
  writtenText m k = NO_NOTES
  \/ exists c text, m !! k = Some (c :: text) /\ writtenText m k = c :: text.
Proof.
  unfold writtenText. destruct (m !! k) as [[|c text]|]; eauto.
Qed.

Lemma writtenText_reloaded (m m' : gmap Z jsstring) (k : Z) :
  (forall text, m !! k = Some text -> trim text = text) ->
  m' !! k = reloaded (writtenText m k) ->
  writtenText m' k = writtenText m k.
Proof.
  intros T R.
  assert (W : trim (writtenText m k) = writtenText m k).
  { destruct (writtenText_cases m k) as [->|(c & text & E & ->)];
      [reflexivity|now apply T]. }
  unfold reloaded in R. rewrite W in R.
  destruct (decide (writtenText m k = NO_NOTES)) as [E|D].
  - unfold writtenText at 1. now rewrite R, E.
  - unfold writtenText at 1. rewrite R.
    destruct (writtenText_cases m k) as [E|(c & text & _ & E)]; [congruence|].
    now rewrite E.
Qed.

(** * Further properties of the code *)

(** ** main.ts: the template and what is read from a notes file *)

(** X1.  [createNotesTemplate], read by [parseExistingNotes]: every page
    from 1 to [numPages] holds the text of the template section (its
    three headings and the rule), and no other page holds anything,
    when the heading holds no marker line. *)
Theorem template_read_back (v : PDFNotesView) (p : Z) :
  markerFree (notesHeading (pdfNameOf v) (pdfFileNameOf v) (numPagesOr0 v)) = true ->
  parseExistingNotes (createNotesTemplate v) !! p
  = if decide (1 <= p <= numPagesOr0 v)%Z
    then Some (js "### Key Points\n- \n\n### Questions\n- \n\n### Summary\n\n\n---")
    else None.
Proof. apply parseExistingNotes_createNotesTemplate. Qed.

Lemma template_read_back_witness :
  parseExistingNotes
    (createNotesTemplate
       {| currentPdf := Some 2%Z; currentPage := 1%Z;
          currentPdfFile :=
            Some {| basename := js "paper"; name := js "paper.pdf";
                    path := js "docs/paper.pdf" |};
          currentNotesFile := None; pageNotes := ∅; notesEditor := None;
          autoSaveOnClose := true |}) !! 2%Z
  = Some (js "### Key Points\n- \n\n### Questions\n- \n\n### Summary\n\n\n---").
Proof.
  exact (template_read_back
           {| currentPdf := Some 2%Z; currentPage := 1%Z;
              currentPdfFile :=
                Some {| basename := js "paper"; name := js "paper.pdf";
                        path := js "docs/paper.pdf" |};
              currentNotesFile := None; pageNotes := ∅; notesEditor := None;
              autoSaveOnClose := true |} 2%Z eq_refl).
Defined.

(** X2.  Whatever the content of the file, [parseExistingNotes] stores
    only trimmed texts, never the placeholder, and only under page
    numbers that are not negative. *)
Theorem parse_stores_trimmed (content : jsstring) (p : Z) (text : jsstring) :
  parseExistingNotes content !! p = Some text ->
  (0 <= p)%Z /\ trim text = text /\ text <> NO_NOTES.
Proof.
  unfold parseExistingNotes.
  rewrite parseSections_fold, fold_storeSection_last, lookup_empty.
  destruct (last _) as [section|] eqn:L; [|discriminate].
  intros [= <-].
  apply last_Some in L as [l' L].
  assert (H : In section (List.filter (keptFor p) (sectionsOf (tail (split content))))).
  { rewrite L. apply in_or_app. right. now left. }
  apply filter_In in H as [H K].
  apply sections_of_content in H as [H1 H2].
  unfold keptFor in K. apply andb_true_iff in K as [K1 K2].
  apply bool_decide_eq_true in K1. apply negb_true_iff, bool_decide_eq_false in K2.
  subst p. auto.
Qed.

Lemma parse_stores_trimmed_witness :
  parseExistingNotes (js "intro\n## Page 3\n\n  hi \n\n## Page 4\n") !! 3%Z
    = Some (js "hi")
  /\ (0 <= 3)%Z /\ trim (js "hi") = js "hi" /\ js "hi" <> NO_NOTES.
Proof.
  assert (H : parseExistingNotes (js "intro\n## Page 3\n\n  hi \n\n## Page 4\n") !! 3%Z
              = Some (js "hi")) by (vm_compute; reflexivity).
  split; [exact H|].
  exact (parse_stores_trimmed _ _ _ H).
Defined.

(** X3.  A content without a marker line gives no notes at all: the
    empty file, and any text in which [## Page N] never fills a line. *)
Theorem parse_without_markers (content : jsstring) :
  markerFree content = true -> parseExistingNotes content = ∅.
Proof.
  intros H.
  assert (C : captures (split content) = []).
  { rewrite captures_split_lines. unfold markerFree in H.
    induction (linesOf content) as [|l ls IH]; [reflexivity|].
    simpl in H. apply andb_true_iff in H as [H1 H2]. simpl.
    destruct (markerDigits l); [discriminate|]. now apply IH. }
  unfold parseExistingNotes.
  destruct (split content) as [|x [|number rest]]; try reflexivity.
  discriminate.
Qed.

Lemma parse_without_markers_witness :
  parseExistingNotes (js "# Title\n\nsee ## Page 2\n## Page two\n") = ∅.
Proof.
  exact (parse_without_markers (js "# Title\n\nsee ## Page 2\n## Page two\n") eq_refl).
Defined.

(** X4.  What stands before the first marker line of the file is not
    read: a text without marker line, ended by a line terminator, can be
    put in front of any content without changing the notes read. *)
Theorem text_before_first_marker_ignored (t : jsstring) (lt : N) (rest : jsstring) :
  markerFree t = true -> isLineTerminator lt = true ->
  parseExistingNotes (t ++ lt :: rest) = parseExistingNotes rest.
Proof.
  intros Ht L. unfold parseExistingNotes, split.
  rewrite splitPieces_text by assumption.
  now rewrite tail_prependPiece by apply splitPieces_nonempty.
Qed.

Lemma text_before_first_marker_ignored_witness :
  parseExistingNotes (js "My own summary" ++ 10 :: js "## Page 1\nfirst\n")
  = parseExistingNotes (js "## Page 1\nfirst\n").
Proof.
  exact (text_before_first_marker_ignored (js "My own summary") 10
           (js "## Page 1\nfirst\n") eq_refl eq_refl).
Defined.

(** X5.  [saveAllNotesToFile] writes the pages 1 to [numPages] only:
    what [pageNotes] holds for any other page is gone when the file is
    read again. *)
Theorem pages_outside_document_dropped (v : PDFNotesView) (p : Z) :
  markerFreeNotes v = true ->
  ~ (1 <= p <= numPagesOr0 v)%Z ->
  parseExistingNotes (fullContent v) !! p = None.
Proof.
  unfold markerFreeNotes. intros H Hp.
  apply andb_true_iff in H as [Hh Hm].
  unfold fullContent, pageBlocks. rewrite parseExistingNotes_document.
  - destruct (decide _); [tauto|reflexivity].
  - exact Hh.
  - destruct (notesHeading_line (pdfNameOf v) (pdfFileNameOf v) (numPagesOr0 v))
      as [t E].
    exists t, 10. split; [exact E|reflexivity].
  - intros k Hk. apply (proj1 (forallb_forall _ _) Hm).
    apply (proj1 (list_elem_of_In _ _)), elem_of_seqZ. lia.
Qed.

Lemma pages_outside_document_dropped_witness :
  pageNotes
    {| currentPdf := Some 2%Z; currentPage := 1%Z;
       currentPdfFile := None; currentNotesFile := None;
       pageNotes := <[3%Z := js "kept in memory"]> ∅;
       notesEditor := None; autoSaveOnClose := true |} !! 3%Z
    = Some (js "kept in memory")
  /\ parseExistingNotes
       (fullContent
          {| currentPdf := Some 2%Z; currentPage := 1%Z;
             currentPdfFile := None; currentNotesFile := None;
             pageNotes := <[3%Z := js "kept in memory"]> ∅;
             notesEditor := None; autoSaveOnClose := true |}) !! 3%Z = None.
Proof.
  split; [vm_compute; reflexivity|].
  apply pages_outside_document_dropped; [vm_compute; reflexivity|].
  unfold numPagesOr0; cbn [currentPdf]; lia.
Defined.

(** ** main.ts: the editor, the page buttons and the timer *)

(** X6.  A click on the next or the previous page button, when there is
    a page to go to, stores the text of the editor under the page gone
    to and leaves the editor as it is: the notes that page had are
    replaced by those on the screen, and are not shown. *)
Theorem page_turn_overwrites (r : Run PDFNotesView) (file : TFile)
    (doc : jsstring) (numPages : Z) :
  openView file doc numPages (view r) ->
  ~ In 13 doc ->
  ((currentPage (view r) < numPages)%Z ->
   currentPage (view (nextClick r)) = (currentPage (view r) + 1)%Z
   /\ notesEditor (view (nextClick r)) = Some doc
   /\ pageNotes (view (nextClick r))
      = <[(currentPage (view r) + 1)%Z := doc]> (pageNotes (view r)))
  /\ ((1 < currentPage (view r))%Z ->
      currentPage (view (prevClick r)) = (currentPage (view r) - 1)%Z
      /\ notesEditor (view (prevClick r)) = Some doc
      /\ pageNotes (view (prevClick r))
         = <[(currentPage (view r) - 1)%Z := doc]> (pageNotes (view r))).
Proof.
  intros (F & E & P & B) N. split; intros H.
  - unfold nextClick. rewrite P.
    destruct (Z.ltb_spec (currentPage (view r)) numPages); [|lia].
    rewrite (turn_page r file doc) by assumption. repeat split.
  - unfold prevClick.
    destruct (Z.ltb_spec 1 (currentPage (view r))); [|lia].
    rewrite (turn_page r file doc) by assumption. repeat split.
Qed.

Lemma page_turn_overwrites_witness :
  pageNotes
    (view (nextClick
             {| view := {| currentPdf := Some 3%Z; currentPage := 1%Z;
                           currentPdfFile := None;
                           currentNotesFile :=
                             Some {| basename := js "doc_notes";
                                     name := js "doc_notes.md";
                                     path := js "doc_notes.md" |};
                           pageNotes := <[2%Z := js "notes of page two"]>
                                          (<[1%Z := js "notes of page one"]> ∅);
                           notesEditor := Some (js "notes of page one");
                           autoSaveOnClose := true |};
                clock := 0; timeout := None; modified := [] |})) !! 2%Z
  = Some (js "notes of page one").
Proof.
  pose proof
    (page_turn_overwrites
       {| view := {| currentPdf := Some 3%Z; currentPage := 1%Z;
                     currentPdfFile := None;
                     currentNotesFile :=
                       Some {| basename := js "doc_notes";
                               name := js "doc_notes.md";
                               path := js "doc_notes.md" |};
                     pageNotes := <[2%Z := js "notes of page two"]>
                                    (<[1%Z := js "notes of page one"]> ∅);
                     notesEditor := Some (js "notes of page one");
                     autoSaveOnClose := true |};
          clock := 0; timeout := None; modified := [] |}
       {| basename := js "doc_notes"; name := js "doc_notes.md";
          path := js "doc_notes.md" |}
       (js "notes of page one") 3%Z) as H.
  destruct H as [H _].
  - repeat split; cbn; lia.
  - vm_compute. intuition discriminate.
  - destruct H as (_ & _ & H); [cbn; lia|].
    rewrite H. apply lookup_insert_eq.
Defined.

(** X7.  Whatever the clicks on the two page buttons, the page stays
    between 1 and [numPages], the editor keeps the text it had, and each
    page of [pageNotes] holds either that text or what it held before. *)
Theorem page_buttons_keep_editor (r : Run PDFNotesView) (file : TFile)
    (doc : jsstring) (numPages : Z) (clicks : list NavClick) :
  openView file doc numPages (view r) ->
  ~ In 13 doc ->
  notesEditor (view (navClicks clicks r)) = Some doc
  /\ (1 <= currentPage (view (navClicks clicks r)) <= numPages)%Z
  /\ forall q, pageNotes (view (navClicks clicks r)) !! q = Some doc
               \/ pageNotes (view (navClicks clicks r)) !! q
                  = pageNotes (view r) !! q.
Proof.
  intros O N.
  destruct (navClicks_open file doc numPages clicks r O N) as [(_ & E & _ & B) Q].
  auto.
Qed.

Lemma page_buttons_keep_editor_witness :
  notesEditor
    (view (navClicks [NextBtn; NextBtn; NextBtn; PrevBtn]
             {| view := {| currentPdf := Some 3%Z; currentPage := 1%Z;
                           currentPdfFile := None;
                           currentNotesFile :=
                             Some {| basename := js "doc_notes";
                                     name := js "doc_notes.md";
                                     path := js "doc_notes.md" |};
                           pageNotes := <[2%Z := js "two"]> ∅;
                           notesEditor := Some (js "one");
                           autoSaveOnClose := true |};
                clock := 0; timeout := None; modified := [] |}))
  = Some (js "one").
Proof.
  refine (proj1 (page_buttons_keep_editor _
                   {| basename := js "doc_notes"; name := js "doc_notes.md";
                      path := js "doc_notes.md" |}
                   (js "one") 3%Z _ _ _)).
  - repeat split; cbn; lia.
  - vm_compute. intuition discriminate.
Defined.

(** X8.  One second after such a click, with nothing typed, the timer
    writes the notes file, and the file then holds the text of the
    editor under the page gone to. *)
Theorem page_turn_writes (r : Run PDFNotesView) (file : TFile)
    (c : N) (doc : jsstring) (numPages : Z) (wait : N) :
  openView file (c :: doc) numPages (view r) ->
  ~ In 13 (c :: doc) ->
  (currentPage (view r) < numPages)%Z ->
  DEBOUNCE_MS <= wait ->
  modified (elapse saveAllNotesToFile wait (nextClick r))
  = modified r
    ++ [(clock r + DEBOUNCE_MS, file,
         fullContent
           (editView (c :: doc)
              (setCurrentPage (currentPage (view r) + 1) (view r))))].
Proof.
  intros (F & E & P & B) N H W. unfold nextClick. rewrite P.
  destruct (Z.ltb_spec (currentPage (view r)) numPages); [|lia].
  rewrite (turn_page r file (c :: doc)) by assumption.
  rewrite (fire_after_turn _ file); [reflexivity|exact F|exact W].
Qed.

Lemma page_turn_writes_witness :
  modified
    (elapse saveAllNotesToFile 1000
       (nextClick
          {| view := {| currentPdf := Some 2%Z; currentPage := 1%Z;
                        currentPdfFile := None;
                        currentNotesFile :=
                          Some {| basename := js "doc_notes";
                                  name := js "doc_notes.md";
                                  path := js "doc_notes.md" |};
                        pageNotes := <[2%Z := js "two"]> (<[1%Z := js "one"]> ∅);
                        notesEditor := Some (js "one");
                        autoSaveOnClose := true |};
             clock := 5000; timeout := None; modified := [] |}))
  = [(6000,
      {| basename := js "doc_notes"; name := js "doc_notes.md";
         path := js "doc_notes.md" |},
      js "# PDF - Notes\n\n**PDF:** [[undefined]]\n**Total Pages:** 2\n\n"
      ++ js "## Page 1\n\none\n\n## Page 2\n\none\n\n")].
Proof.
  rewrite (page_turn_writes _
             {| basename := js "doc_notes"; name := js "doc_notes.md";
                path := js "doc_notes.md" |} 111 (js "ne") 2%Z 1000).
  - vm_compute. reflexivity.
  - repeat split; cbn; lia.
  - vm_compute. intuition discriminate.
  - cbn; lia.
  - vm_compute. discriminate.
Defined.

(** X9.  [loadNotesEditor] on the content read from the notes file:
    [pageNotes] is replaced by what [parseExistingNotes] reads, the new
    editor shows the text read for the current page (nothing when the
    page has none), that text is stored again under the current page,
    and, unless it is empty, the save timer is armed although nothing
    was typed. *)
Theorem notes_editor_opened (content : jsstring) (r : Run PDFNotesView) (file : TFile) :
  currentNotesFile (view r) = Some file ->
  let shown :=
    normalizeLineBreaks
      (default [] (parseExistingNotes content !! currentPage (view r))) in
  notesEditor (view (loadNotesEditor content r)) = Some shown
  /\ pageNotes (view (loadNotesEditor content r))
     = <[currentPage (view r) := shown]> (parseExistingNotes content)
  /\ currentPage (view (loadNotesEditor content r)) = currentPage (view r)
  /\ timeout (loadNotesEditor content r)
     = match shown with
       | [] => timeout r
       | _ => Some (clock r + DEBOUNCE_MS)
       end
  /\ modified (loadNotesEditor content r) = modified r.
Proof.
  intros F shown. rewrite (loadNotesEditor_ready content r file F).
  assert (E : pageContentOf (reloadNotes (view r) content)
              = default [] (parseExistingNotes content !! currentPage (view r))).
  { unfold pageContentOf, reloadNotes. cbn [setPageNotes pageNotes currentPage].
    now destruct (_ !! _). }
  rewrite E. fold shown. repeat split.
Qed.

Lemma notes_editor_opened_witness :
  notesEditor
    (view (loadNotesEditor (js "## Page 1\n\n one \n\n## Page 2\n\ntwo\n\n")
             {| view := {| currentPdf := Some 2%Z; currentPage := 1%Z;
                           currentPdfFile := None;
                           currentNotesFile :=
                             Some {| basename := js "doc_notes";
                                     name := js "doc_notes.md";
                                     path := js "doc_notes.md" |};
                           pageNotes := <[2%Z := js "old"]> ∅;
                           notesEditor := None;
                           autoSaveOnClose := true |};
                clock := 0; timeout := None; modified := [] |}))
  = Some (js "one").
Proof.
  refine (eq_trans
            (proj1 (notes_editor_opened _ _
                      {| basename := js "doc_notes"; name := js "doc_notes.md";
                         path := js "doc_notes.md" |} _)) _).
  - reflexivity.
  - vm_compute. reflexivity.
Defined.

(** X10.  A notes file just made from the template is rewritten one
    second after it is opened, with nothing typed: the rule under the
    heading goes, and every section ends with the rule that stood
    before the next marker. *)
Theorem new_notes_file_rewritten (r : Run PDFNotesView) (file : TFile)
    (numPages : Z) (wait : N) :
  currentNotesFile (view r) = Some file ->
  currentPdf (view r) = Some numPages ->
  (1 <= currentPage (view r) <= numPages)%Z ->
  markerFree (notesHeading (pdfNameOf (view r)) (pdfFileNameOf (view r)) numPages)
  = true ->
  DEBOUNCE_MS <= wait ->
  modified (elapse saveAllNotesToFile wait
              (loadNotesEditor (createNotesTemplate (view r)) r))
  = modified r
    ++ [(clock r + DEBOUNCE_MS, file,
         notesHeading (pdfNameOf (view r)) (pdfFileNameOf (view r)) numPages
         ++ concat
              (map (fun k =>
                      js "## Page " ++ numberToString k ++ js "\n\n"
                      ++ js "### Key Points\n- \n\n### Questions\n- \n\n### Summary\n\n\n---"
                      ++ js "\n\n")
                 (seqZ 1 numPages)))].
Proof.
  intros F P B Hh W.
  assert (Hn : numPagesOr0 (view r) = numPages) by (unfold numPagesOr0; now rewrite P).
  rewrite <- Hn in Hh, B.
  rewrite (loadNotesEditor_ready _ r file F).
  assert (E : pageContentOf (reloadNotes (view r) (createNotesTemplate (view r)))
              = TEMPLATE_NOTES).
  { unfold pageContentOf, reloadNotes. cbn [setPageNotes pageNotes currentPage].
    rewrite parseExistingNotes_createNotesTemplate by exact Hh.
    now destruct (decide _). }
  rewrite E.
  change (normalizeLineBreaks TEMPLATE_NOTES) with TEMPLATE_NOTES.
  rewrite (fire_after_turn _ file); [|exact F|exact W].
  cbn [modified]. do 3 f_equal.
  unfold fullContent.
  rewrite (markerFreeNotes_same_heading (view r)) by reflexivity.
  rewrite Hn. f_equal.
  replace (numPagesOr0 (editView TEMPLATE_NOTES
                          (reloadNotes (view r) (createNotesTemplate (view r)))))
    with numPages by (symmetry; exact Hn).
  rewrite <- pageBlocks_template. apply pageBlocks_ext.
  intros k Hk. cbn [editView reloadNotes setPageNotes pageNotes currentPage].
  rewrite templateNotes_lookup.
  destruct (decide (k = currentPage (view r))) as [->|D].
  - rewrite lookup_insert_eq. now destruct (decide _).
  - rewrite lookup_insert_ne by congruence.
    rewrite parseExistingNotes_createNotesTemplate by exact Hh.
    rewrite Hn. reflexivity.
Qed.

Lemma new_notes_file_rewritten_witness :
  modified
    (elapse saveAllNotesToFile 1000
       (loadNotesEditor
          (createNotesTemplate
             {| currentPdf := Some 1%Z; currentPage := 1%Z;
                currentPdfFile := None;
                currentNotesFile :=
                  Some {| basename := js "doc_notes"; name := js "doc_notes.md";
                          path := js "doc_notes.md" |};
                pageNotes := ∅; notesEditor := None; autoSaveOnClose := true |})
          {| view := {| currentPdf := Some 1%Z; currentPage := 1%Z;
                        currentPdfFile := None;
                        currentNotesFile :=
                          Some {| basename := js "doc_notes";
                                  name := js "doc_notes.md";
                                  path := js "doc_notes.md" |};
                        pageNotes := ∅; notesEditor := None;
                        autoSaveOnClose := true |};
             clock := 0; timeout := None; modified := [] |}))
  = [(1000,
      {| basename := js "doc_notes"; name := js "doc_notes.md";
         path := js "doc_notes.md" |},
      js "# PDF - Notes\n\n**PDF:** [[undefined]]\n**Total Pages:** 1\n\n"
      ++ js "## Page 1\n\n### Key Points\n- \n\n### Questions\n- \n\n### Summary\n\n\n---\n\n")].
Proof.
  refine (eq_trans
            (new_notes_file_rewritten
               {| view := {| currentPdf := Some 1%Z; currentPage := 1%Z;
                             currentPdfFile := None;
                             currentNotesFile :=
                               Some {| basename := js "doc_notes";
                                       name := js "doc_notes.md";
                                       path := js "doc_notes.md" |};
                             pageNotes := ∅; notesEditor := None;
                             autoSaveOnClose := true |};
                  clock := 0; timeout := None; modified := [] |}
               {| basename := js "doc_notes"; name := js "doc_notes.md";
                  path := js "doc_notes.md" |} 1%Z 1000 _ _ _ _ _) _).
  - reflexivity.
  - reflexivity.
  - cbn; lia.
  - vm_compute. reflexivity.
  - vm_compute. discriminate.
  - vm_compute. reflexivity.
Defined.

(** ** part_002: the cursor *)

(** X11.  On the template of a new notes file, [updateNotesForPage] of
    part_002 puts the cursor at the start of the marker line of the
    current page: the first occurrence of [## Page k] is the marker of
    page [k], and not one of a page whose number starts with the digits
    of [k]. *)
Theorem cursor_on_template_section (v : PDFNotesView) (area : TextareaView) (k : Z) :
  includes PAGE (notesHeading (pdfNameOf v) (pdfFileNameOf v) (numPagesOr0 v)) = false ->
  (1 <= k <= numPagesOr0 v)%Z ->
  textareaValue area = createNotesTemplate v ->
  exists before after,
    createNotesTemplate v = before ++ templateSection k ++ after
    /\ before
       = (notesHeading (pdfNameOf v) (pdfFileNameOf v) (numPagesOr0 v) ++ js "---\n\n")
         ++ concat (map templateSection (seqZ 1 (k - 1)))
    /\ Textarea.updateNotesForPage k area = Some (Z.of_nat (length before)).
Proof.
  intros Hh Hk Ha. eexists. eexists. split; [|split].
  - apply (createNotesTemplate_split v k Hk).
  - reflexivity.
  - unfold Textarea.updateNotesForPage. cbv zeta. rewrite Ha.
    fold (pageHeader k). rewrite (indexOf_createNotesTemplate v k Hh Hk).
    destruct (Z.eqb_spec (Z.of_nat (length
      ((notesHeading (pdfNameOf v) (pdfFileNameOf v) (numPagesOr0 v) ++ js "---\n\n")
       ++ concat (map templateSection (seqZ 1 (k - 1)))))) (-1)); [lia|reflexivity].
Qed.

Lemma cursor_on_template_section_witness :
  Textarea.updateNotesForPage 1
    {| textareaValue :=
         createNotesTemplate
           {| currentPdf := Some 12%Z; currentPage := 1%Z;
              currentPdfFile := None; currentNotesFile := None;
              pageNotes := ∅; notesEditor := None; autoSaveOnClose := true |};
       areaNotesFile := None; areaAutoSaveOnClose := true |}
  = Some 64%Z.
Proof.
  destruct (cursor_on_template_section
              {| currentPdf := Some 12%Z; currentPage := 1%Z;
                 currentPdfFile := None; currentNotesFile := None;
                 pageNotes := ∅; notesEditor := None; autoSaveOnClose := true |}
              {| textareaValue :=
                   createNotesTemplate
                     {| currentPdf := Some 12%Z; currentPage := 1%Z;
                        currentPdfFile := None; currentNotesFile := None;
                        pageNotes := ∅; notesEditor := None;
                        autoSaveOnClose := true |};
                 areaNotesFile := None; areaAutoSaveOnClose := true |} 1%Z)
    as (before & after & _ & E & H).
  - vm_compute. reflexivity.
  - unfold numPagesOr0; cbn [currentPdf]; lia.
  - reflexivity.
  - rewrite H, E. vm_compute. reflexivity.
Defined.

(** ** part_003: the copy made by the save button *)

(** X12.  [savePdfWithNotes] on a PDF that can be read: whatever the
    name asked for, the copy is put in the folder of the PDF (the name
    cannot lead elsewhere, its slashes being replaced), it holds the
    content of the PDF, and the view goes over to the copy. *)
Theorem copy_in_same_folder (created : jsstring) (vault : gmap jsstring jsstring)
    (pdf saveName data : jsstring) :
  pdf <> [] ->
  vault !! pdf = Some data ->
  exists newPdfPath,
    snd (savePdfWithNotes created vault (Some pdf) saveName) = Some newPdfPath
    /\ newPdfPath
       = substring pdf 0 (lastIndexOf 47 pdf) ++ js "/" ++ sanitizeSaveName saveName
         ++ js ".pdf"
    /\ substring newPdfPath 0 (lastIndexOf 47 newPdfPath)
       = substring pdf 0 (lastIndexOf 47 pdf)
    /\ fst (savePdfWithNotes created vault (Some pdf) saveName) !! newPdfPath
       = Some data.
Proof.
  intros T V. exists (newPdfPathOf pdf saveName). split; [|split; [|split]].
  - now rewrite (savePdfWithNotes_eq _ _ _ _ data T V).
  - reflexivity.
  - apply newPdfPathOf_folder.
  - now apply savePdfWithNotes_copied.
Qed.

Lemma copy_in_same_folder_witness :
  exists newPdfPath,
    snd (savePdfWithNotes (js "2024-01-01T00:00:00.000Z")
           {[ js "books/a.pdf" := js "%PDF" ]} (Some (js "books/a.pdf"))
           (js "../x:y"))
    = Some newPdfPath
    /\ newPdfPath
       = substring (js "books/a.pdf") 0 (lastIndexOf 47 (js "books/a.pdf"))
         ++ js "/" ++ sanitizeSaveName (js "../x:y") ++ js ".pdf"
    /\ substring newPdfPath 0 (lastIndexOf 47 newPdfPath)
       = substring (js "books/a.pdf") 0 (lastIndexOf 47 (js "books/a.pdf"))
    /\ fst (savePdfWithNotes (js "2024-01-01T00:00:00.000Z")
              {[ js "books/a.pdf" := js "%PDF" ]} (Some (js "books/a.pdf"))
              (js "../x:y")) !! newPdfPath
       = Some (js "%PDF").
Proof.
  apply copy_in_same_folder; [discriminate|apply lookup_singleton_eq].
Defined.

(** X13.  After [savePdfWithNotes] the notes are read from the file
    named after the copy, [<copy>.pdf-notes.md], which the call does not
    write (the notes went to [<copy>.md]): [loadNotes] returns what it
    would have returned for that path before the call, and nothing when
    that file does not exist. *)
Theorem notes_not_copied_for_reading (created : jsstring)
    (vault : gmap jsstring jsstring) (pdf saveName data : jsstring) (q : Z) :
  pdf <> [] ->
  vault !! pdf = Some data ->
  fst (loadNotes (fst (savePdfWithNotes created vault (Some pdf) saveName))
         (snd (savePdfWithNotes created vault (Some pdf) saveName)) q)
  = fst (loadNotes vault
           (snd (savePdfWithNotes created vault (Some pdf) saveName)) q)
  /\ (vault !! notesFileOf
                 (substring pdf 0 (lastIndexOf 47 pdf) ++ js "/"
                  ++ sanitizeSaveName saveName ++ js ".pdf") = None ->
      fst (loadNotes (fst (savePdfWithNotes created vault (Some pdf) saveName))
             (snd (savePdfWithNotes created vault (Some pdf) saveName)) q)
      = None).
Proof.
  intros T V.
  pose proof (newPaths_differ pdf saveName) as (_ & D1 & D2).
  assert (S : snd (savePdfWithNotes created vault (Some pdf) saveName)
              = Some (newPdfPathOf pdf saveName))
    by now rewrite (savePdfWithNotes_eq _ _ _ _ data T V).
  assert (E : fst (loadNotes (fst (savePdfWithNotes created vault (Some pdf) saveName))
                     (Some (newPdfPathOf pdf saveName)) q)
              = fst (loadNotes vault (Some (newPdfPathOf pdf saveName)) q)).
  { f_equal. apply loadNotes_same_file.
    now apply (savePdfWithNotes_lookup _ _ _ _ data). }
  rewrite S. split; [exact E|].
  intros N. rewrite E. unfold loadNotes.
  destruct (truthyPath _) as [path|] eqn:P; [|reflexivity].
  unfold newPdfPathOf in P.
  destruct (substring pdf 0 (lastIndexOf 47 pdf) ++ js "/"
            ++ sanitizeSaveName saveName ++ js ".pdf") as [|c path'] eqn:Q;
    [discriminate|].
  injection P as <-. cbv zeta. now rewrite N.
Qed.

Lemma notes_not_copied_for_reading_witness :
  fst (loadNotes
         (<[js "a.pdf-notes.md" := js "## Page 1\nkept\n\n"]>
            {[ js "a.pdf" := js "%PDF" ]})
         (Some (js "a.pdf")) 1) = Some (js "kept")
  /\ fst (loadNotes
            (fst (savePdfWithNotes (js "2024-01-01T00:00:00.000Z")
                    (<[js "a.pdf-notes.md" := js "## Page 1\nkept\n\n"]>
                       {[ js "a.pdf" := js "%PDF" ]})
                    (Some (js "a.pdf")) (js "b")))
            (snd (savePdfWithNotes (js "2024-01-01T00:00:00.000Z")
                    (<[js "a.pdf-notes.md" := js "## Page 1\nkept\n\n"]>
                       {[ js "a.pdf" := js "%PDF" ]})
                    (Some (js "a.pdf")) (js "b"))) 1) = None.
Proof.
  split.
  - vm_compute. reflexivity.
  - apply (notes_not_copied_for_reading _ _ _ _ (js "%PDF")).
    + discriminate.
    + rewrite lookup_insert_ne by discriminate. apply lookup_singleton_eq.
    + rewrite lookup_insert_ne by discriminate.
      apply lookup_singleton_ne. discriminate.
Defined.

(** X14.  The save button names the copy after the whole path of the
    PDF: for [folder/base.pdf] the copy is
    [folder/<folder>-<base>-copy.pdf], the slash of the path having
    become a hyphen like every reserved character of [folder] and
    [base]; for a PDF at the root of the vault it is [/<base>-copy.pdf]. *)
Theorem default_copy_name (created : jsstring) (vault : gmap jsstring jsstring)
    (folder base data : jsstring) :
  ~ In 47 base ->
  (vault !! (folder ++ js "/" ++ base ++ js ".pdf") = Some data ->
   snd (saveBtnClick created vault true (Some (folder ++ js "/" ++ base ++ js ".pdf")))
   = Some (folder ++ js "/" ++ sanitizeSaveName folder ++ js "-"
           ++ sanitizeSaveName base ++ js "-copy.pdf"))
  /\ (vault !! (base ++ js ".pdf") = Some data ->
      snd (saveBtnClick created vault true (Some (base ++ js ".pdf")))
      = Some (js "/" ++ sanitizeSaveName base ++ js "-copy.pdf")).
Proof.
  intros H. split; intros V.
  - rewrite (saveBtnClick_eq _ _ _ data); [|now destruct folder|exact V].
    now rewrite newPdfPathOf_default.
  - rewrite (saveBtnClick_eq _ _ _ data); [|now destruct base|exact V].
    now rewrite newPdfPathOf_default_root.
Qed.

Lemma default_copy_name_witness :
  snd (saveBtnClick (js "2024-01-01T00:00:00.000Z")
         {[ js "my books" ++ js "/" ++ js "a:b" ++ js ".pdf" := js "%PDF" ]} true
         (Some (js "my books" ++ js "/" ++ js "a:b" ++ js ".pdf")))
  = Some (js "my books/my books-a-b-copy.pdf").
Proof.
  refine (eq_trans
            (proj1 (default_copy_name (js "2024-01-01T00:00:00.000Z")
                      {[ js "my books" ++ js "/" ++ js "a:b" ++ js ".pdf" := js "%PDF" ]}
                      (js "my books") (js "a:b") (js "%PDF") _) _) _).
  - vm_compute. intuition discriminate.
  - apply lookup_singleton_eq.
  - vm_compute. reflexivity.
Defined.

(** ** part_003: the panes *)

(** X15.  Once one of the two panes is shown, no sequence of clicks on
    the toggle buttons, of changes in the settings tab and of resets
    hides both: one pane at least stays set to be shown, and the two
    containers are displayed as the settings say. *)
Theorem one_pane_stays_shown (s : Panes) (events : list PaneEvent) :
  panesShown s -> panesShown (fold_left paneEvent events s).
Proof.
  revert s. induction events as [|e events IH]; intros s H; simpl; [exact H|].
  apply IH, paneEvent_shown, H.
Qed.

Lemma one_pane_stays_shown_witness :
  panesShown
    (fold_left paneEvent [ToggleNotes; TogglePdf; SetShowPdf false; TogglePdf]
       {| showPdf := true; showNotes := true;
          pdfDisplay := js "block"; noteDisplay := js "block";
          togglePdfText := js "Hide PDF"; toggleNotesText := js "Hide Notes" |}).
Proof.
  apply one_pane_stays_shown. repeat split.
Defined.

(** X16.  A click that would hide the one pane shown shows both panes
    instead, and leaves the button clicked with the text of a hidden
    pane. *)
Theorem hiding_last_pane_shows_both (s : Panes) :
  (showPdf s = true -> showNotes s = false ->
   showPdf (togglePdfClick s) = true /\ showNotes (togglePdfClick s) = true
   /\ pdfDisplay (togglePdfClick s) = js "block"
   /\ noteDisplay (togglePdfClick s) = js "block"
   /\ togglePdfText (togglePdfClick s) = js "Show PDF")
  /\ (showNotes s = true -> showPdf s = false ->
      showPdf (toggleNotesClick s) = true /\ showNotes (toggleNotesClick s) = true
      /\ pdfDisplay (toggleNotesClick s) = js "block"
      /\ noteDisplay (toggleNotesClick s) = js "block"
      /\ toggleNotesText (toggleNotesClick s) = js "Show Notes").
Proof.
  split; intros H1 H2; unfold togglePdfClick, toggleNotesClick;
    rewrite H1, H2; repeat split.
Qed.

Lemma hiding_last_pane_shows_both_witness :
  showPdf
    (togglePdfClick
       {| showPdf := true; showNotes := false;
          pdfDisplay := js "block"; noteDisplay := js "none";
          togglePdfText := js "Hide PDF"; toggleNotesText := js "Show Notes" |}) = true
  /\ showNotes
       (togglePdfClick
          {| showPdf := true; showNotes := false;
             pdfDisplay := js "block"; noteDisplay := js "none";
             togglePdfText := js "Hide PDF"; toggleNotesText := js "Show Notes" |}) = true
  /\ pdfDisplay
       (togglePdfClick
          {| showPdf := true; showNotes := false;
             pdfDisplay := js "block"; noteDisplay := js "none";
             togglePdfText := js "Hide PDF"; toggleNotesText := js "Show Notes" |})
     = js "block"
  /\ noteDisplay
       (togglePdfClick
          {| showPdf := true; showNotes := false;
             pdfDisplay := js "block"; noteDisplay := js "none";
             togglePdfText := js "Hide PDF"; toggleNotesText := js "Show Notes" |})
     = js "block"
  /\ togglePdfText
       (togglePdfClick
          {| showPdf := true; showNotes := false;
             pdfDisplay := js "block"; noteDisplay := js "none";
             togglePdfText := js "Hide PDF"; toggleNotesText := js "Show Notes" |})
     = js "Show PDF".
Proof.
  exact (proj1 (hiding_last_pane_shows_both
                  {| showPdf := true; showNotes := false;
                     pdfDisplay := js "block"; noteDisplay := js "none";
                     togglePdfText := js "Hide PDF";
                     toggleNotesText := js "Show Notes" |})
           eq_refl eq_refl).
Defined.

(** ** The zoom and the pages of the viewer *)

Section ZoomProperties.
Import PrimFloat.

(** X17.  main.ts and part_002: from a scale among 50%, 75%, ..., 300%,
    the scale a view starts with (100%) among them, the zoom buttons
    lead to such scales only, in binary64 arithmetic: the scale never
    leaves the range from 0.5 to 3. *)
Theorem zoom_stays_on_steps (clicks : list ZoomClick) (scale : float) :
  In scale zoomSteps -> In (fold_left zoomClick clicks scale) zoomSteps.
Proof.
  revert scale. induction clicks as [|click clicks IH]; intros scale H; simpl.
  - exact H.
  - apply IH, zoomClick_steps, H.
Qed.

Lemma zoom_stays_on_steps_witness :
  In (fold_left zoomClick [ZoomOut; ZoomOut; ZoomOut; ZoomIn] 1%float) zoomSteps.
Proof.
  apply zoom_stays_on_steps. vm_compute. tauto.
Defined.

(** X18.  part_003: on the first page the zoom buttons have no lasting
    effect, since [renderPage] sets the scale of page 1 to the fit
    scale each time it draws it. *)
Theorem zoom_reset_on_first_page (fitScale : float) (s : PdfViewer) (numPages : Z) :
  viewerPages s = Some numPages ->
  (1 <= numPages)%Z ->
  viewerPage s = 1%Z ->
  viewerScale (zoomInButtonClick fitScale s) = fitScale
  /\ viewerScale (zoomOutButtonClick fitScale s) = fitScale.
Proof.
  intros P H E. unfold zoomInButtonClick, zoomOutButtonClick. rewrite E.
  rewrite !(renderPage_first _ _ numPages) by assumption. split; reflexivity.
Qed.

Lemma zoom_reset_on_first_page_witness :
  viewerScale
    (zoomInButtonClick 1.25
       {| viewerPages := Some 3%Z; viewerPage := 1%Z; viewerScale := 1.25 |})
  = 1.25%float
  /\ viewerScale
       (zoomOutButtonClick 1.25
          {| viewerPages := Some 3%Z; viewerPage := 1%Z; viewerScale := 1.25 |})
     = 1.25%float.
Proof.
  apply (zoom_reset_on_first_page 1.25 _ 3%Z); [reflexivity|lia|reflexivity].
Defined.

(** X19.  part_003: with a document loaded and a page between 1 and
    [numPages] shown, the buttons, the page input and the zoom leave the
    page between 1 and [numPages], whatever number is typed. *)
Theorem viewer_page_in_range (fitScale : float) (events : list ViewerEvent)
    (s : PdfViewer) (numPages : Z) :
  viewerPages s = Some numPages ->
  (1 <= viewerPage s <= numPages)%Z ->
  viewerPages (fold_left (viewerEvent fitScale) events s) = Some numPages
  /\ (1 <= viewerPage (fold_left (viewerEvent fitScale) events s) <= numPages)%Z.
Proof.
  revert s. induction events as [|e events IH]; intros s P H; simpl; [auto|].
  destruct (viewerEvent_range fitScale s e numPages P H) as [P' H'].
  now apply IH.
Qed.

Lemma viewer_page_in_range_witness :
  viewerPages
    (fold_left (viewerEvent 1.25)
       [NextButton; NextButton; NextButton; PageInput 0; PageInput 7; PrevButton]
       {| viewerPages := Some 3%Z; viewerPage := 1%Z; viewerScale := 1.5 |})
  = Some 3%Z
  /\ (1 <= viewerPage
             (fold_left (viewerEvent 1.25)
                [NextButton; NextButton; NextButton; PageInput 0; PageInput 7;
                 PrevButton]
                {| viewerPages := Some 3%Z; viewerPage := 1%Z; viewerScale := 1.5 |})
      <= 3)%Z.
Proof.
  apply viewer_page_in_range; [reflexivity|cbn; lia].
Defined.

End ZoomProperties.

(** ** part_003: the notes area and the saved folders *)

(** X20.  Leaving the notes area of a page without typing changes what
    no page shows: [onblur] saves the text [updateNoteSection] has put
    in the area, read with its line breaks normalised, and every page
    then shows what it showed before, when that text holds none of
    [$$], [$&], [$`] and [$'] and the page does not have a section that
    is empty. *)
Theorem blur_without_typing (vault : gmap jsstring jsstring) (pdf : jsstring) (p q : Z) :
  pdf <> [] ->
  fst (loadNotes vault (Some pdf) p) <> Some [] ->
  hasSubstitution (noteAreaValue (fst (loadNotes vault (Some pdf) p))) = false ->
  updateNoteSection
    (noteAreaBlur vault (Some pdf) p
       (noteAreaValue (fst (loadNotes vault (Some pdf) p))))
    (Some pdf) q
  = updateNoteSection vault (Some pdf) q.
Proof.
  intros T. unfold updateNoteSection, noteAreaBlur, saveNotes, loadNotes.
  rewrite (truthyPath_Some pdf T). cbv zeta.
  destruct (vault !! notesFileOf pdf) as [content|] eqn:V; cbn [fst];
    rewrite lookup_insert_eq; cbn [fst]; intros B S; f_equal.
  - now apply saveNotesInto_shown.
  - pose proof (saveNotesInto_shown (js "# PDF Notes\n\n") p q) as H.
    rewrite !(loadNotesFrom_absent (js "# PDF Notes\n\n"))
      in H by apply includes_header_fresh.
    apply H; [discriminate|reflexivity].
Qed.

Lemma blur_without_typing_witness :
  updateNoteSection
    (noteAreaBlur
       ({[ notesFileOf (js "a.pdf") :=
            js "# PDF Notes\n\n## Page 2\nfirst\r\nsecond\n\n" ]}
        : gmap jsstring jsstring)
       (Some (js "a.pdf")) 2
       (noteAreaValue
          (fst (loadNotes
                  ({[ notesFileOf (js "a.pdf") :=
            js "# PDF Notes\n\n## Page 2\nfirst\r\nsecond\n\n" ]}
        : gmap jsstring jsstring)
                  (Some (js "a.pdf")) 2))))
    (Some (js "a.pdf")) 1
  = updateNoteSection
      ({[ notesFileOf (js "a.pdf") :=
            js "# PDF Notes\n\n## Page 2\nfirst\r\nsecond\n\n" ]}
        : gmap jsstring jsstring)
      (Some (js "a.pdf")) 1.
Proof.
  apply blur_without_typing;
    [discriminate|vm_compute; discriminate|vm_compute; reflexivity].
Defined.

(** X21.  The folders [loadSavedPdf] offers are distinct, none is the
    root or the empty path, and in each of them [loadFromSaveFolder]
    finds a PDF, on the same list of files. *)
Theorem offered_folders_hold_a_pdf (files : list VaultFile) (folders : list jsstring) :
  loadSavedPdf files = Some folders ->
  NoDup folders
  /\ forall folder, In folder folders ->
       folder <> [] /\ folder <> js "/"
       /\ exists found, findPdfIn folder files = Some found
                        /\ extension found = js "pdf"
                        /\ parentPath found = Some folder.
Proof.
  intros H. apply loadSavedPdf_Some in H. subst folders.
  destruct (pdfFolders_spec files) as [N S]. split.
  - apply NoDup_ListNoDup, List.NoDup_filter, NoDup_ListNoDup, N.
  - intros folder Hf. apply filter_In in Hf as [Hf Hn].
    apply negb_true_iff, bool_decide_eq_false in Hn.
    apply (proj2 (list_elem_of_In _ _)), S in Hf as (file & I & X & P & D).
    destruct (parentPath file) as [parent|] eqn:Q; simpl in D; [|congruence].
    subst parent. split; [exact Hn|]. split; [congruence|].
    now apply (findPdfIn_found folder files file).
Qed.

Lemma offered_folders_hold_a_pdf_witness :
  loadSavedPdf
    [{| extension := js "pdf"; parentPath := Some (js "/") |};
     {| extension := js "md"; parentPath := Some (js "notes") |};
     {| extension := js "pdf"; parentPath := Some (js "books") |};
     {| extension := js "pdf"; parentPath := None |};
     {| extension := js "pdf"; parentPath := Some (js "books") |}]
  = Some [js "books"]
  /\ NoDup [js "books"].
Proof.
  assert (H : loadSavedPdf
                [{| extension := js "pdf"; parentPath := Some (js "/") |};
                 {| extension := js "md"; parentPath := Some (js "notes") |};
                 {| extension := js "pdf"; parentPath := Some (js "books") |};
                 {| extension := js "pdf"; parentPath := None |};
                 {| extension := js "pdf"; parentPath := Some (js "books") |}]
              = Some [js "books"]) by (vm_compute; reflexivity).
  split; [exact H|].
  exact (proj1 (offered_folders_hold_a_pdf _ _ H)).
Defined.

(** X22.  What [loadNotes] returns for a page is trimmed and holds no
    [## Page], and it returns something only when the header line of the
    page stands in the file. *)
Theorem loaded_notes_trimmed (vault : gmap jsstring jsstring)
    (currentPdfPath : option jsstring) (p : Z) (notes : jsstring) :
  fst (loadNotes vault currentPdfPath p) = Some notes ->
  trim notes = notes
  /\ includes PAGE notes = false
  /\ exists pdf content,
       currentPdfPath = Some pdf
       /\ vault !! notesFileOf pdf = Some content
       /\ includes (pageHeaderLine p) content = true.
Proof.
  unfold loadNotes. destruct currentPdfPath as [[|c pdf]|]; try discriminate.
  cbn [truthyPath]. cbv zeta.
  destruct (vault !! notesFileOf (c :: pdf)) as [content|] eqn:V; [|discriminate].
  cbn [fst]. intros H. apply loadNotesFrom_Some in H as (I & P & T).
  split; [exact T|]. split; [exact P|].
  exists (c :: pdf), content. auto.
Qed.

Lemma loaded_notes_trimmed_witness :
  fst (loadNotes {[ js "a.pdf-notes.md" := js "## Page 1\n  kept \n\n## Page 2\nb" ]}
         (Some (js "a.pdf")) 1) = Some (js "kept")
  /\ trim (js "kept") = js "kept"
  /\ includes PAGE (js "kept") = false.
Proof.
  assert (H : fst (loadNotes
                     {[ js "a.pdf-notes.md" := js "## Page 1\n  kept \n\n## Page 2\nb" ]}
                     (Some (js "a.pdf")) 1) = Some (js "kept"))
    by (vm_compute; reflexivity).
  split; [exact H|].
  destruct (loaded_notes_trimmed _ _ _ _ H) as (T & P & _). auto.
Defined.

(** X23.  [saveNotes] with a PDF open always leaves a notes file that
    holds the header of the page saved, whatever the notes and whatever
    the file held (also when there was none), and changes no other file
    of the vault. *)
Theorem saved_page_has_header (vault : gmap jsstring jsstring) (pdf : jsstring)
    (p : Z) (notes : jsstring) :
  pdf <> [] ->
  (exists content,
      fst (saveNotes vault (Some pdf) p notes) !! notesFileOf pdf = Some content
      /\ includes (pageHeader p) content = true)
  /\ forall other, other <> notesFileOf pdf ->
       fst (saveNotes vault (Some pdf) p notes) !! other = vault !! other.
Proof.
  intros T. rewrite (saveNotes_vault vault pdf p notes T). split.
  - eexists. split; [apply lookup_insert_eq|apply includes_pageHeader_saved].
  - intros other D. now apply lookup_insert_ne.
Qed.

Lemma saved_page_has_header_witness :
  (exists content,
      fst (saveNotes ∅ (Some (js "a.pdf")) 3 (js "$& ## Page 4")) !! notesFileOf (js "a.pdf")
      = Some content
      /\ includes (pageHeader 3) content = true)
  /\ forall other, other <> notesFileOf (js "a.pdf") ->
       fst (saveNotes ∅ (Some (js "a.pdf")) 3 (js "$& ## Page 4")) !! other
       = (∅ : gmap jsstring jsstring) !! other.
Proof.
  apply saved_page_has_header. discriminate.
Defined.

(** X24.  The document [saveAllNotesToFile] writes has one marker line
    for each page from 1 to [numPages], in order, and no other, when the
    heading and the notes hold no marker line of their own. *)
Theorem one_marker_per_page (v : PDFNotesView) :
  markerFreeNotes v = true ->
  captures (split (fullContent v)) = map numberToString (seqZ 1 (numPagesOr0 v)).
Proof.
  unfold markerFreeNotes. intros H. apply andb_true_iff in H as [Hh Hm].
  assert (Hks : Forall (fun k => (0 <= k)%Z
                          /\ markerFree (writtenText (pageNotes v) k) = true)
                  (seqZ 1 (numPagesOr0 v))).
  { apply List.Forall_forall. intros k Hk. split.
    - apply (proj2 (list_elem_of_In _ _)), elem_of_seqZ in Hk. lia.
    - exact (proj1 (forallb_forall _ _) Hm k Hk). }
  pose proof (tail_split_document
                (notesHeading (pdfNameOf v) (pdfFileNameOf v) (numPagesOr0 v))
                (pageNotes v) (seqZ 1 (numPagesOr0 v)) Hh) as T.
  destruct (notesHeading_line (pdfNameOf v) (pdfFileNameOf v) (numPagesOr0 v))
    as [t E].
  specialize (T (ex_intro _ t (ex_intro _ 10 (conj E eq_refl))) Hks).
  unfold fullContent, pageBlocks.
  pose proof (splitPieces_nonempty 0 true
                (notesHeading (pdfNameOf v) (pdfFileNameOf v) (numPagesOr0 v)
                 ++ concat (map (pageBlock (pageNotes v)) (seqZ 1 (numPagesOr0 v)))))
    as N.
  unfold split in *.
  destruct (splitPieces 0 true _) as [|x pieces]; [congruence|].
  simpl in T. rewrite T. apply captures_blocks.
Qed.

Lemma one_marker_per_page_witness :
  captures
    (split
       (fullContent
          {| currentPdf := Some 3%Z; currentPage := 1%Z;
             currentPdfFile := None; currentNotesFile := None;
             pageNotes := <[2%Z := js "two"]> (<[7%Z := js "seven"]> ∅);
             notesEditor := None; autoSaveOnClose := true |}))
  = [js "1"; js "2"; js "3"].
Proof.
  refine (eq_trans (one_marker_per_page _ _) _); vm_compute; reflexivity.
Defined.

(** X25.  A document written from trimmed notes is left as it is by
    reading it and writing it again: [parseExistingNotes] followed by
    [saveAllNotesToFile] gives the same text, page for page, when the
    heading and the notes hold no marker line of their own. *)
Theorem written_document_stable (v : PDFNotesView) :
  markerFreeNotes v = true ->
  (forall k text, (1 <= k <= numPagesOr0 v)%Z ->
                  pageNotes v !! k = Some text -> trim text = text) ->
  fullContent (reloadNotes v (fullContent v)) = fullContent v.
Proof.
  intros M T. unfold fullContent at 1 3.
  rewrite (markerFreeNotes_same_heading v (reloadNotes v (fullContent v)))
    by reflexivity.
  f_equal.
  change (numPagesOr0 (reloadNotes v (fullContent v))) with (numPagesOr0 v).
  apply pageBlocks_same_text. intros k Hk.
  apply writtenText_reloaded; [intros text; now apply T|].
  unfold reloadNotes. cbn [setPageNotes pageNotes].
  now apply parseExistingNotes_fullContent.
Qed.

Lemma written_document_stable_witness :
  fullContent
    (reloadNotes
       {| currentPdf := Some 3%Z; currentPage := 1%Z;
          currentPdfFile := None; currentNotesFile := None;
          pageNotes := <[1%Z := js "one"]> (<[2%Z := js ""]> ∅);
          notesEditor := None; autoSaveOnClose := true |}
       (fullContent
          {| currentPdf := Some 3%Z; currentPage := 1%Z;
             currentPdfFile := None; currentNotesFile := None;
             pageNotes := <[1%Z := js "one"]> (<[2%Z := js ""]> ∅);
             notesEditor := None; autoSaveOnClose := true |}))
  = fullContent
      {| currentPdf := Some 3%Z; currentPage := 1%Z;
         currentPdfFile := None; currentNotesFile := None;
         pageNotes := <[1%Z := js "one"]> (<[2%Z := js ""]> ∅);
         notesEditor := None; autoSaveOnClose := true |}.
Proof.
  apply written_document_stable; [vm_compute; reflexivity|].
  intros k text _. cbn [pageNotes].
  destruct (decide (k = 1%Z)) as [->|D1].
  - rewrite lookup_insert_eq. intros [= <-]. vm_compute. reflexivity.
  - rewrite lookup_insert_ne by congruence.
    destruct (decide (k = 2%Z)) as [->|D2].
    + rewrite lookup_insert_eq. intros [= <-]. reflexivity.
    + rewrite lookup_insert_ne by congruence. rewrite lookup_empty. discriminate.
Defined.
